(** * Time-Sheet-Converter: attendance sheet reconstruction and wage totals

    A shallow embedding of [shared/schema.ts] (rate tables) and of the
    conversion core of the server routes ([parseAttendanceSheet],
    [createOutputWorkbook], the surcharge helpers, [getKoreanHolidays] and
    [extractMonthFromSheetName]; in this checkout the routes follow the page
    component in [client/src/pages/Home.tsx]), followed by the properties
    established about them.

    Conventions of the embedding.
    - A JavaScript number is a rational ([Q]); [===] on numbers is [Qeq_bool].
      Every constant of the program is a dyadic rational and every value it
      compares against is one, so the comparisons, the divisions by 8 and
      the products of the rate tables are the exact ones.  The product of a
      base price and the work units of the hours of a sheet, and a number
      read from text, are rounded to the nearest double ([JS.toDouble]).
      Non-finite numbers (NaN, Infinity) have no representative; where a
      builtin can return NaN the model returns [option].
    - Integers that index rows, columns and days are [Z] (the source starts
      its column indices at -1).
    - A JavaScript string is a [string] of UTF-8 bytes.
    - A JavaScript [Map] or [Set] is an association list, respectively a
      list, in insertion order. *)

From Stdlib Require Import ZArith QArith Qabs Qround Qpower List String Ascii Bool Lia.
From Stdlib Require Import DecimalString DecimalPos DecimalZ Sorted Permutation.
Import ListNotations.

Local Open Scope string_scope.
Local Open Scope list_scope.
Local Open Scope Z_scope.

(* ================================================================== *)
(** * The JavaScript builtins the program calls *)
(* ================================================================== *)

Module JS.

(** ** Numbers *)

Definition num_eqb (a b : Q) : bool := Qeq_bool a b.

(** [a > b] *)
Definition num_gtb (a b : Q) : bool := negb (Qle_bool a b).

(** [Math.round]: the nearest integer, a tie going to the larger one. *)
Definition Math_round (x : Q) : Q := inject_Z (Qfloor (x + (1 # 2))).

Definition Math_floor (x : Q) : Q := inject_Z (Qfloor x).

(** ** Doubles

    The finite numbers of the language are the binary64 values [m * 2^e]
    with [|m| < 2^53] and [-1074 <= e <= 971].  An arithmetic operation
    returns the double nearest to the exact result, a tie going to the even
    significand. *)

(** The [e] with [2^e <= q < 2^(e+1)], for [0 < q]. *)
Definition binade (q : Q) : Z :=
  let e := Z.log2 (Qnum q) - Z.log2 (Zpos (Qden q)) in
  if Qle_bool (2 ^ e) q then e else e - 1.

(** The nearest integer, a tie going to the even one. *)
Definition roundEven (x : Q) : Z :=
  let f := Qfloor x in
  match (x - inject_Z f ?= 1 # 2)%Q with
  | Lt => f
  | Gt => f + 1
  | Eq => if Z.even f then f else f + 1
  end.

(** The nearest multiple of the unit in the last place of [q], for [0 < q]:
    53 significant bits, and no unit below [2^-1074]. *)
Definition nearest (q : Q) : Q :=
  let e := Z.max (binade q - 52) (-1074) in
  (inject_Z (roundEven (q / 2 ^ e)) * 2 ^ e)%Q.

(** The double nearest to [q]; a [q] that is a double is returned as it is.
    (Past the largest double the language has Infinity, which has no
    representative: there the result is the rounded significand.) *)
Definition toDouble (q : Q) : Q :=
  let r :=
    match Qnum q with
    | 0 => q
    | Zpos _ => nearest q
    | Zneg _ => (- nearest (- q))%Q
    end in
  if Qeq_bool r q then q else r.

Definition maxDouble : Q := inject_Z ((2 ^ 53 - 1) * 2 ^ 971).

(** [q] is a finite double. *)
Definition isDouble (q : Q) : bool :=
  (Qeq_bool (toDouble q) q && Qle_bool (Qabs q) maxDouble)%bool.

(** [a * b] *)
Definition mul (a b : Q) : Q := toDouble (a * b).

(** [Array.prototype.includes] on an array of numbers. *)
Definition includes (l : list Q) (x : Q) : bool := existsb (num_eqb x) l.

(** ** Characters and strings *)

Definition chars (s : string) : list ascii := list_ascii_of_string s.
Definition str (l : list ascii) : string := string_of_list_ascii l.

Definition isDigit (c : ascii) : bool :=
  let n := nat_of_ascii c in (Nat.leb 48 n && Nat.leb n 57)%bool.

Definition digitVal (c : ascii) : Z := Z.of_nat (nat_of_ascii c) - 48.

Definition bytes (l : list nat) : list ascii := map ascii_of_nat l.

(** The code points [String.prototype.trim] removes (WhiteSpace and
    LineTerminator), as UTF-8 byte sequences. *)
Definition whiteSpace : list (list ascii) :=
  map bytes
    [ [9]; [10]; [11]; [12]; [13]; [32];
      [194; 160];
      [225; 154; 128];
      [226; 128; 128]; [226; 128; 129]; [226; 128; 130]; [226; 128; 131];
      [226; 128; 132]; [226; 128; 133]; [226; 128; 134]; [226; 128; 135];
      [226; 128; 136]; [226; 128; 137]; [226; 128; 138];
      [226; 128; 168]; [226; 128; 169]; [226; 128; 175];
      [226; 129; 159];
      [227; 128; 128];
      [239; 187; 191] ]%nat.

Fixpoint stripPrefix (p s : list ascii) : option (list ascii) :=
  match p, s with
  | [], _ => Some s
  | _ :: _, [] => None
  | a :: p', b :: s' => if Ascii.eqb a b then stripPrefix p' s' else None
  end.

Fixpoint stripAny (ps : list (list ascii)) (s : list ascii) : option (list ascii) :=
  match ps with
  | [] => None
  | p :: ps' =>
      match stripPrefix p s with
      | Some r => Some r
      | None => stripAny ps' s
      end
  end.

Fixpoint dropLeading (fuel : nat) (ps : list (list ascii)) (s : list ascii) : list ascii :=
  match fuel with
  | O => s
  | S fuel' =>
      match stripAny ps s with
      | Some r => dropLeading fuel' ps r
      | None => s
      end
  end.

Definition trimStartChars (s : list ascii) : list ascii :=
  dropLeading (List.length s) whiteSpace s.

Definition trimEndChars (s : list ascii) : list ascii :=
  rev (dropLeading (List.length s) (map (@rev ascii) whiteSpace) (rev s)).

(** [String.prototype.trim] *)
Definition trim (s : string) : string := str (trimEndChars (trimStartChars (chars s))).

(** ** Integers and strings *)

(** [String(n)] for an integer [n]. *)
Definition String_of_int (z : Z) : string := NilZero.string_of_int (Z.to_int z).

Fixpoint takeDigits (s : list ascii) : list ascii :=
  match s with
  | c :: s' => if isDigit c then c :: takeDigits s' else []
  | [] => []
  end.

Fixpoint dropDigits (s : list ascii) : list ascii :=
  match s with
  | c :: s' => if isDigit c then dropDigits s' else s
  | [] => []
  end.

(** The value of a run of decimal digits, most significant first. *)
Definition digitsVal (ds : list ascii) : Z :=
  fold_left (fun acc c => acc * 10 + digitVal c) ds 0.

(** [parseInt(s)] in radix 10: leading white space, an optional sign and the
    longest run of decimal digits; [None] is NaN.  (A [0x] prefix, which
    switches [parseInt] to radix 16, does not occur in what the program
    passes: captured digit runs and [String(day)].) *)
Definition parseInt (s : string) : option Z :=
  let t := trimStartChars (chars s) in
  let '(neg, u) :=
    match t with
    | "-"%char :: u => (true, u)
    | "+"%char :: u => (false, u)
    | _ => (false, t)
    end in
  match takeDigits u with
  | [] => None
  | ds => Some (if neg then - digitsVal ds else digitsVal ds)
  end.

(** ** Numbers and strings *)

Definition digitChar (d : Z) : ascii := ascii_of_nat (48 + Z.to_nat d).

Fixpoint fractionDigits (fuel : nat) (r d : Z) : list ascii :=
  match fuel with
  | O => []
  | S fuel' =>
      if r =? 0 then []
      else digitChar (r * 10 / d) :: fractionDigits fuel' ((r * 10) mod d) d
  end.

(** [String(x)] for a number [x]: the decimal numeral of an integer, and for
    a fraction its decimal expansion (which for the short dyadic fractions of
    a time sheet, 2.5 or 0.3125, is the numeral JavaScript prints).  From
    [10^21] on the language prints an exponent, which this numeral does not
    follow. *)
Definition Number_toString (x : Q) : string :=
  let r := Qred x in
  let n := Qnum r in
  let d := Zpos (Qden r) in
  if d =? 1 then String_of_int n
  else
    ((if (n <? 0)%Z then "-" else "") ++ String_of_int (Z.abs n / d) ++ "."
      ++ str (fractionDigits 20 (Z.abs n mod d) d))%string.

(** A decimal literal [digits [. digits]] or [. digits]: its value and the
    rest of the input. *)
Definition decimalLiteral (s : list ascii) : option (Q * list ascii) :=
  let ip := takeDigits s in
  let r1 := dropDigits s in
  let '(fp, r2) :=
    match r1 with
    | "."%char :: r => (takeDigits r, dropDigits r)
    | _ => ([], r1)
    end in
  match ip, fp with
  | [], [] => None
  | _, _ =>
      Some ((inject_Z (digitsVal ip)
             + inject_Z (digitsVal fp) / inject_Z (10 ^ Z.of_nat (List.length fp)))%Q,
            r2)
  end.

(** An exponent part [e[+-]digits], or 0 when there is none. *)
Definition exponentPart (s : list ascii) : Z :=
  match s with
  | c :: r =>
      if (Ascii.eqb c "e" || Ascii.eqb c "E")%bool then
        let '(neg, u) :=
          match r with
          | "-"%char :: u => (true, u)
          | "+"%char :: u => (false, u)
          | _ => (false, r)
          end in
        match takeDigits u with
        | [] => 0
        | ds => if neg then - digitsVal ds else digitsVal ds
        end
      else 0
  | [] => 0
  end.

(** [parseFloat(s)]: leading white space, an optional sign, the longest
    decimal literal and an optional exponent, rounded to the nearest double;
    [None] is NaN.  The literal [Infinity] has no rational value and is read
    as NaN. *)
Definition parseFloat (s : string) : option Q :=
  let t := trimStartChars (chars s) in
  let '(neg, u) :=
    match t with
    | "-"%char :: u => (true, u)
    | "+"%char :: u => (false, u)
    | _ => (false, t)
    end in
  match decimalLiteral u with
  | None => None
  | Some (m, rest) =>
      let v := (m * Qpower 10 (exponentPart rest))%Q in
      Some (toDouble (if neg then (- v)%Q else v))
  end.

(** ** Map and Set, in insertion order *)

Section MapSet.
Context {K V : Type} (eqb : K -> K -> bool).

Fixpoint map_get (m : list (K * V)) (k : K) : option V :=
  match m with
  | [] => None
  | (k', v) :: m' => if eqb k k' then Some v else map_get m' k
  end.

Definition map_has (m : list (K * V)) (k : K) : bool :=
  match map_get m k with Some _ => true | None => false end.

(** [Map.prototype.set]: an existing key keeps its place. *)
Fixpoint map_set (m : list (K * V)) (k : K) (v : V) : list (K * V) :=
  match m with
  | [] => [(k, v)]
  | (k', v') :: m' =>
      if eqb k k' then (k', v) :: m' else (k', v') :: map_set m' k v
  end.

(** [Set.prototype.add] *)
Fixpoint set_add (s : list K) (k : K) : list K :=
  match s with
  | [] => [k]
  | k' :: s' => if eqb k k' then s else k' :: set_add s' k
  end.
End MapSet.

(** ** Array.prototype.sort

    The sort is stable; the comparator returns a number, and an element [x]
    goes before [y] when [cmp x y <= 0].  On a comparator that orders the
    array consistently every stable sort returns the same array, here the
    one of insertion sort. *)
Section Sort.
Context {A : Type} (cmp : A -> A -> Z).

Fixpoint insert (x : A) (l : list A) : list A :=
  match l with
  | [] => [x]
  | y :: l' => if cmp x y <=? 0 then x :: l else y :: insert x l'
  end.

Fixpoint sort (l : list A) : list A :=
  match l with
  | [] => []
  | x :: l' => insert x (sort l')
  end.
End Sort.

End JS.

(* ================================================================== *)
(** * shared/schema.ts *)
(* ================================================================== *)

Module Schema.

(** The type ['남' | '여']. *)
Inductive Gender := Nam | Yeo.

Definition genderText (g : Gender) : string :=
  match g with Nam => "남" | Yeo => "여" end.

Record Rate := { units : Q; price : Q }.

(** The tables are objects indexed by a number; a property access converts
    the number to its numeral, so two numbers hit the same entry exactly
    when they are equal. *)
Definition maleRates : list (Q * Rate) :=
  [ (8%Q, {| units := 1; price := 117480 |});
    (6%Q, {| units := 0.75; price := 88110 |});
    (2.5%Q, {| units := 0.3125; price := 36713 |});
    (1%Q, {| units := 0.125; price := 14685 |}) ].

Definition femaleRates : list (Q * Rate) :=
  [ (8%Q, {| units := 1; price := 108680 |});
    (6%Q, {| units := 0.75; price := 81510 |});
    (2.5%Q, {| units := 0.3125; price := 33963 |});
    (1%Q, {| units := 0.125; price := 13585 |}) ].

Definition getWorkUnits (gender : Gender) (basicHours : Q) : Q :=
  let rates := match gender with Nam => maleRates | Yeo => femaleRates end in
  match JS.map_get JS.num_eqb rates basicHours with
  | Some r => units r
  | None => 0
  end.

Definition getUnitPrice (gender : Gender) (basicHours : Q) : Q :=
  let rates := match gender with Nam => maleRates | Yeo => femaleRates end in
  match JS.map_get JS.num_eqb rates basicHours with
  | Some r => price r
  | None => 0
  end.

Definition calculateTotal (workUnits unitPrice : Q) : Q :=
  JS.Math_round (workUnits * unitPrice).

End Schema.

(* ================================================================== *)
(** * The conversion core of the server routes *)
(* ================================================================== *)

Module Routes.
Import Schema.

(** ** The worksheet, as the spreadsheet library presents it *)

(** A [Date] is observed through [getDate()] and through [String(d)]. *)
Record JsDate := { getDate : Z; dateString : string }.

(** The value of a cell.  [VObject] stands for the remaining object values
    (formula, hyperlink, error), which have no [richText] field. *)
Inductive CellValue :=
| VNull
| VNumber (x : Q)
| VString (s : string)
| VBoolean (b : bool)
| VDate (d : JsDate)
| VRichText (runs : list string)
| VObject.

(** A row lists the values of its cells from column 1 on; a worksheet lists
    its rows from row 1 on. *)
Definition Row := list CellValue.
Definition Worksheet := list Row.

Definition rowCount (ws : Worksheet) : Z := Z.of_nat (List.length ws).

(** [row.getCell(col).value] *)
Definition getCell (row : Row) (col : Z) : CellValue :=
  if col <=? 0 then VNull else nth (Z.to_nat (col - 1)) row VNull.

(** [row.eachCell(f)]: the cells that hold a value, by increasing column. *)
Fixpoint eachCell {S : Type} (f : CellValue -> Z -> S -> S)
    (colNumber : Z) (cells : Row) (st : S) : S :=
  match cells with
  | [] => st
  | v :: rest =>
      eachCell f (colNumber + 1) rest
        (match v with VNull => st | _ => f v colNumber st end)
  end.

(** [String(cell.value || '')] *)
Definition stringOrEmpty (v : CellValue) : string :=
  match v with
  | VNull => ""
  | VNumber x => if Qeq_bool x 0 then "" else JS.Number_toString x
  | VString s => s
  | VBoolean b => if b then "true" else ""
  | VDate d => dateString d
  | VRichText _ => "[object Object]"
  | VObject => "[object Object]"
  end.

Definition cellText (v : CellValue) : string := JS.trim (stringOrEmpty v).

Record AttendanceRow := {
  gender : Gender;
  name : string;
  date : string;
  basicHours : Q;
  overtimeHours : Q;
  weekendSpecialHours : Q;
  weeklyHolidayHours : Q
}.

(** ** Surcharges *)

Definition getWeekendSpecialWorkUnits (hours : Q) : Q :=
  if JS.num_eqb hours 8 then 1
  else if JS.num_eqb hours 6 then 0.75
  else if JS.num_eqb hours 2.5 then 0.3125
  else if JS.num_eqb hours 1 then 0.125
  else hours / 8.

Definition getWeekendSpecialUnitPrice (hours : Q) : Q :=
  let basePrice := 171800%Q in
  let workUnits := getWeekendSpecialWorkUnits hours in
  JS.Math_round (JS.mul basePrice workUnits).

Definition getWeeklyHolidayWorkUnits (hours : Q) : Q :=
  if JS.num_eqb hours 8 then 1
  else if JS.num_eqb hours 6 then 0.75
  else if JS.num_eqb hours 2.5 then 0.3125
  else if JS.num_eqb hours 1 then 0.125
  else hours / 8.

Definition getWeeklyHolidayUnitPrice (hours : Q) : Q :=
  let basePrice := 99600%Q in
  let workUnits := getWeeklyHolidayWorkUnits hours in
  JS.Math_round (JS.mul basePrice workUnits).

(** ** formatWorkUnits *)

Definition padLeft (n : nat) (l : list ascii) : list ascii :=
  repeat "0"%char (n - List.length l) ++ l.

(** [value.toFixed(4)] *)
Definition toFixed4 (value : Q) : list ascii :=
  let n := Qfloor (Qabs value * 10000 + (1 # 2)) in
  (if Qlt_le_dec value 0 then ["-"%char] else [])
    ++ JS.chars (JS.String_of_int (n / 10000)) ++ ["."%char]
    ++ padLeft 4 (JS.chars (JS.String_of_int (n mod 10000))).

Fixpoint dropZeros (l : list ascii) : list ascii :=
  match l with
  | "0"%char :: l' => dropZeros l'
  | _ => l
  end.

(** [str.replace(/\.?0+$/, '')]: a final run of zeros goes, and the point
    before it when there is one. *)
Definition stripZeros (l : list ascii) : list ascii :=
  match rev l with
  | "0"%char :: _ =>
      match dropZeros (rev l) with
      | "."%char :: r => rev r
      | r => rev r
      end
  | _ => l
  end.

Definition formatWorkUnits (value : Q) : string :=
  if Qeq_bool value (JS.Math_floor value)
  then JS.Number_toString (JS.Math_floor value)
  else JS.str (stripZeros (toFixed4 value)).

(** ** parseAttendanceSheet: the header columns *)

Record HeaderCols := {
  genderColIndex : Z;
  nameColIndex : Z;
  categoryColIndex : Z;
  headerRowIndex : Z
}.

Definition noHeader : HeaderCols :=
  {| genderColIndex := -1; nameColIndex := -1;
     categoryColIndex := -1; headerRowIndex := -1 |}.

(** The callback of the first [eachCell]. *)
Definition headerCell (rowNum : Z) (cell : CellValue) (colNumber : Z)
    (h : HeaderCols) : HeaderCols :=
  let value := cellText cell in
  if String.eqb value "성별" then
    {| genderColIndex := colNumber; nameColIndex := nameColIndex h;
       categoryColIndex := categoryColIndex h; headerRowIndex := rowNum |}
  else if (String.eqb value "성명" || String.eqb value "이름")%bool then
    {| genderColIndex := genderColIndex h; nameColIndex := colNumber;
       categoryColIndex := categoryColIndex h; headerRowIndex := headerRowIndex h |}
  else if String.eqb value "구분" then
    {| genderColIndex := genderColIndex h; nameColIndex := nameColIndex h;
       categoryColIndex := colNumber; headerRowIndex := headerRowIndex h |}
  else h.

Definition allFound (h : HeaderCols) : bool :=
  ((0 <? genderColIndex h) && (0 <? nameColIndex h) && (0 <? categoryColIndex h))%bool.

(** The first loop, from row [rowNum] on, with its [break]. *)
Fixpoint headerLoop (rowNum : Z) (rows : list Row) (h : HeaderCols) : HeaderCols :=
  match rows with
  | [] => h
  | row :: rest =>
      let h' := eachCell (headerCell rowNum) 1 row h in
      if allFound h' then h' else headerLoop (rowNum + 1) rest h'
  end.

Definition headerDefaults (h : HeaderCols) : HeaderCols :=
  {| genderColIndex := if genderColIndex h =? -1 then 1 else genderColIndex h;
     nameColIndex := if nameColIndex h =? -1 then 2 else nameColIndex h;
     categoryColIndex := if categoryColIndex h =? -1 then 3 else categoryColIndex h;
     headerRowIndex := if headerRowIndex h =? -1 then 1 else headerRowIndex h |}.

(** Rows 1 to [Math.min(15, worksheet.rowCount)]. *)
Definition scanHeader (ws : Worksheet) : HeaderCols :=
  headerLoop 1 (firstn 15 ws) noHeader.

Definition detectHeader (ws : Worksheet) : HeaderCols :=
  headerDefaults (scanHeader ws).

(** ** parseAttendanceSheet: the date columns *)

Record DateHeader := { col : Z; day : Z }.

(** [dateHeaders.some(h => h.col === colNumber)] *)
Definition someCol (hs : list DateHeader) (colNumber : Z) : bool :=
  existsb (fun h => col h =? colNumber) hs.

(** [if (!dateHeaders.some(...)) dateHeaders.push({ col, day })] *)
Definition pushHeader (hs : list DateHeader) (colNumber d : Z) : list DateHeader :=
  if someCol hs colNumber then hs else hs ++ [{| col := colNumber; day := d |}].

(** The second group [(\d{1,2})] once the slash has been read. *)
Definition secondGroup (s : list ascii) : option (list ascii) :=
  match s with
  | d1 :: r =>
      if JS.isDigit d1 then
        Some (match r with
              | d2 :: _ => if JS.isDigit d2 then [d1; d2] else [d1]
              | [] => [d1]
              end)
      else None
  | [] => None
  end.

(** [/(\d{1,2})\/(\d{1,2})/] tried at the head of [s]. *)
Definition matchMDHere (s : list ascii) : option (list ascii) :=
  match s with
  | a :: b :: r =>
      if JS.isDigit a then
        if Ascii.eqb b "/" then secondGroup r
        else if JS.isDigit b then
          match r with
          | c :: r' => if Ascii.eqb c "/" then secondGroup r' else None
          | [] => None
          end
        else None
      else None
  | _ => None
  end.

(** [value.match(/(\d{1,2})\/(\d{1,2})/)]: the second group of the leftmost
    match. *)
Fixpoint matchMD (s : list ascii) : option (list ascii) :=
  match matchMDHere s with
  | Some g => Some g
  | None =>
      match s with
      | [] => None
      | _ :: s' => matchMD s'
      end
  end.

(** [value.match(/^(\d{1,2})$/)]: the group. *)
Definition matchBare (s : list ascii) : option (list ascii) :=
  match s with
  | [a] => if JS.isDigit a then Some [a] else None
  | [a; b] => if (JS.isDigit a && JS.isDigit b)%bool then Some [a; b] else None
  | _ => None
  end.

(** The text the patterns are tried on, and the headers after the
    [instanceof Date] branch. *)
Definition dateCellValue (cell : CellValue) (colNumber : Z)
    (hs : list DateHeader) : string * list DateHeader :=
  match cell with
  | VRichText runs => (String.concat "" runs, hs)
  | VDate d =>
      (("[Date:" ++ JS.String_of_int (getDate d) ++ "]")%string,
       pushHeader hs colNumber (getDate d))
  | _ => (cellText cell, hs)
  end.

(** The callback of the second [eachCell].  A captured group is a run of
    digits, on which [parseInt] never yields NaN. *)
Definition dateCell (categoryColIndex : Z) (cell : CellValue) (colNumber : Z)
    (hs : list DateHeader) : list DateHeader :=
  if ((categoryColIndex <? colNumber) && (colNumber <=? categoryColIndex + 35))%bool then
    let '(value, hs1) := dateCellValue cell colNumber hs in
    match matchMD (JS.chars value) with
    | Some g2 =>
        match JS.parseInt (JS.str g2) with
        | Some d => pushHeader hs1 colNumber d
        | None => hs1
        end
    | None =>
        match matchBare (JS.chars value) with
        | Some g1 =>
            match JS.parseInt (JS.str g1) with
            | Some d =>
                if ((1 <=? d) && (d <=? 31) && negb (someCol hs1 colNumber))%bool
                then hs1 ++ [{| col := colNumber; day := d |}]
                else hs1
            | None => hs1
            end
        | None => hs1
        end
    end
  else hs.

(** The second loop, with its [break]. *)
Fixpoint dateLoop (categoryColIndex : Z) (rows : list Row)
    (hs : list DateHeader) : list DateHeader :=
  match rows with
  | [] => hs
  | row :: rest =>
      let hs' := eachCell (dateCell categoryColIndex) 1 row hs in
      if 10 <=? Z.of_nat (List.length hs') then hs'
      else dateLoop categoryColIndex rest hs'
  end.

(** Rows 1 to [Math.min(10, worksheet.rowCount)], before the sort. *)
Definition scanDates (ws : Worksheet) (categoryColIndex : Z) : list DateHeader :=
  dateLoop categoryColIndex (firstn 10 ws) [].

Definition dateHeadersOf (ws : Worksheet) (categoryColIndex : Z) : list DateHeader :=
  JS.sort (fun a b => col a - col b) (scanDates ws categoryColIndex).

(** ** parseAttendanceSheet: the data rows *)

Record WorkerData := {
  w_gender : Gender;
  w_name : string;
  w_order : Z;
  w_basicHours : list (Z * Q);
  w_overtimeHours : list (Z * Q);
  w_weekendSpecialHours : list (Z * Q);
  w_weeklyHolidayHours : list (Z * Q)
}.

Record Walk := {
  workers : list (string * WorkerData);
  currentGender : Gender;
  currentName : string;
  workerOrder : Z
}.

Definition startWalk : Walk :=
  {| workers := []; currentGender := Nam; currentName := ""; workerOrder := 0 |}.

Definition categories : list string := ["기본"; "연장"; "주특"; "주휴"].

Definition isCategory (categoryValue : string) : bool :=
  existsb (String.eqb categoryValue) categories.

Definition canonicalHours : list Q := [8%Q; 6%Q; 2.5%Q; 1%Q].

(** [numValue] of a cell that passed the test
    [cellValue !== null && cellValue !== undefined && cellValue !== '']. *)
Definition numValueOf (cellValue : CellValue) : Q :=
  match cellValue with
  | VNumber x => x
  | VString s =>
      match JS.parseFloat s with
      | Some x => x
      | None => 0
      end
  | _ => 0
  end.

Definition hasValue (cellValue : CellValue) : bool :=
  match cellValue with
  | VNull => false
  | VString "" => false
  | _ => true
  end.

Definition setHours (categoryValue : string) (d : Z) (numValue : Q)
    (worker : WorkerData) : WorkerData :=
  if String.eqb categoryValue "기본" then
    if JS.includes canonicalHours numValue then
      {| w_gender := w_gender worker; w_name := w_name worker; w_order := w_order worker;
         w_basicHours := JS.map_set Z.eqb (w_basicHours worker) d numValue;
         w_overtimeHours := w_overtimeHours worker;
         w_weekendSpecialHours := w_weekendSpecialHours worker;
         w_weeklyHolidayHours := w_weeklyHolidayHours worker |}
    else worker
  else if String.eqb categoryValue "연장" then
    {| w_gender := w_gender worker; w_name := w_name worker; w_order := w_order worker;
       w_basicHours := w_basicHours worker;
       w_overtimeHours := JS.map_set Z.eqb (w_overtimeHours worker) d numValue;
       w_weekendSpecialHours := w_weekendSpecialHours worker;
       w_weeklyHolidayHours := w_weeklyHolidayHours worker |}
  else if String.eqb categoryValue "주특" then
    {| w_gender := w_gender worker; w_name := w_name worker; w_order := w_order worker;
       w_basicHours := w_basicHours worker;
       w_overtimeHours := w_overtimeHours worker;
       w_weekendSpecialHours := JS.map_set Z.eqb (w_weekendSpecialHours worker) d numValue;
       w_weeklyHolidayHours := w_weeklyHolidayHours worker |}
  else if String.eqb categoryValue "주휴" then
    {| w_gender := w_gender worker; w_name := w_name worker; w_order := w_order worker;
       w_basicHours := w_basicHours worker;
       w_overtimeHours := w_overtimeHours worker;
       w_weekendSpecialHours := w_weekendSpecialHours worker;
       w_weeklyHolidayHours := JS.map_set Z.eqb (w_weeklyHolidayHours worker) d numValue |}
  else worker.

(** The body of [for (const dateHeader of dateHeaders)]. *)
Definition readCell (categoryValue : string) (row : Row)
    (worker : WorkerData) (dateHeader : DateHeader) : WorkerData :=
  let cellValue := getCell row (col dateHeader) in
  if hasValue cellValue then
    let numValue := numValueOf cellValue in
    if JS.num_gtb numValue 0
    then setHours categoryValue (day dateHeader) numValue worker
    else worker
  else worker.

Definition workerKeyOf (g : Gender) (n : string) : string :=
  (genderText g ++ "-" ++ n)%string.

Definition newWorker (g : Gender) (n : string) (o : Z) : WorkerData :=
  {| w_gender := g; w_name := n; w_order := o;
     w_basicHours := []; w_overtimeHours := [];
     w_weekendSpecialHours := []; w_weeklyHolidayHours := [] |}.

(** [if (genderValue === '남' || genderValue === '여') currentGender = genderValue] *)
Definition nextGender (currentGender : Gender) (genderValue : string) : Gender :=
  if String.eqb genderValue "남" then Nam
  else if String.eqb genderValue "여" then Yeo
  else currentGender.

(** [if (nameValue && nameValue !== '') currentName = nameValue] *)
Definition nextName (currentName nameValue : string) : string :=
  if String.eqb nameValue "" then currentName else nameValue.

(** [if (!workers.has(workerKey)) workers.set(workerKey, {...})], with the
    counter [workerOrder] after it. *)
Definition ensureWorker (ws : list (string * WorkerData)) (order : Z)
    (g : Gender) (n : string) : list (string * WorkerData) * Z :=
  if JS.map_has String.eqb ws (workerKeyOf g n)
  then (ws, order)
  else (JS.map_set String.eqb ws (workerKeyOf g n) (newWorker g n order), order + 1).

(** [workers.get(workerKey)] and the loop over the date headers, which
    writes into the worker the map holds. *)
Definition recordHours (dateHeaders : list DateHeader) (categoryValue : string)
    (row : Row) (ws : list (string * WorkerData)) (workerKey : string)
    : list (string * WorkerData) :=
  match JS.map_get String.eqb ws workerKey with
  | Some worker =>
      JS.map_set String.eqb ws workerKey
        (fold_left (readCell categoryValue row) dateHeaders worker)
  | None => ws
  end.

(** The body of the loop over the data rows. *)
Definition dataRow (h : HeaderCols) (dateHeaders : list DateHeader)
    (st : Walk) (row : Row) : Walk :=
  let genderValue := cellText (getCell row (genderColIndex h)) in
  let nameValue := cellText (getCell row (nameColIndex h)) in
  let categoryValue := cellText (getCell row (categoryColIndex h)) in
  let g := nextGender (currentGender st) genderValue in
  let n := nextName (currentName st) nameValue in
  if (String.eqb n "" || negb (isCategory categoryValue))%bool then
    {| workers := workers st; currentGender := g;
       currentName := n; workerOrder := workerOrder st |}
  else
    let created := ensureWorker (workers st) (workerOrder st) g n in
    {| workers :=
         recordHours dateHeaders categoryValue row (fst created) (workerKeyOf g n);
       currentGender := g; currentName := n; workerOrder := snd created |}.

(** Rows [headerRowIndex + 1] to [worksheet.rowCount]. *)
Definition dataRows (h : HeaderCols) (ws : Worksheet) : list Row :=
  skipn (Z.to_nat (headerRowIndex h)) ws.

Definition walkRows (h : HeaderCols) (dateHeaders : list DateHeader)
    (rows : list Row) (st : Walk) : Walk :=
  fold_left (dataRow h dateHeaders) rows st.

Definition walkSheet (ws : Worksheet) : Walk :=
  let h := detectHeader ws in
  walkRows h (dateHeadersOf ws (categoryColIndex h)) (dataRows h ws) startWalk.

(** ** parseAttendanceSheet: the rows returned *)

Record TempRow := { t_row : AttendanceRow; t_workerOrder : Z }.

(** [map.get(day) || 0] *)
Definition hoursAt (m : list (Z * Q)) (d : Z) : Q :=
  match JS.map_get Z.eqb m d with
  | Some v => v
  | None => 0
  end.

Definition keysOf (m : list (Z * Q)) : list Z := map fst m.

Definition allDaysOf (worker : WorkerData) : list Z :=
  fold_left (JS.set_add Z.eqb) (keysOf (w_weeklyHolidayHours worker))
    (fold_left (JS.set_add Z.eqb) (keysOf (w_weekendSpecialHours worker))
      (fold_left (JS.set_add Z.eqb) (keysOf (w_basicHours worker)) [])).

(** The body of [allDays.forEach]: the rows pushed for one day. *)
Definition dayRows (worker : WorkerData) (d : Z) : list TempRow :=
  let basicHours := hoursAt (w_basicHours worker) d in
  let overtimeHours := hoursAt (w_overtimeHours worker) d in
  let weekendSpecialHours := hoursAt (w_weekendSpecialHours worker) d in
  let weeklyHolidayHours := hoursAt (w_weeklyHolidayHours worker) d in
  if (JS.num_gtb basicHours 0 || JS.num_gtb weekendSpecialHours 0
      || JS.num_gtb weeklyHolidayHours 0)%bool
  then [ {| t_row := {| gender := w_gender worker; name := w_name worker;
                        date := JS.String_of_int d;
                        basicHours := basicHours; overtimeHours := overtimeHours;
                        weekendSpecialHours := weekendSpecialHours;
                        weeklyHolidayHours := weeklyHolidayHours |};
            t_workerOrder := w_order worker |} ]
  else [].

Definition workerRows (worker : WorkerData) : list TempRow :=
  flat_map (dayRows worker) (allDaysOf worker).

(** [tempRows] before the sort. *)
Definition tempRowsOf (ws : list (string * WorkerData)) : list TempRow :=
  flat_map (fun kw => workerRows (snd kw)) ws.

(** The comparator of [tempRows.sort].  When a date does not parse the
    source compares NaN and returns NaN, which the sort reads as 0. *)
Definition compareRows (a b : TempRow) : Z :=
  match JS.parseInt (date (t_row a)), JS.parseInt (date (t_row b)) with
  | Some dateA, Some dateB =>
      if negb (dateA =? dateB) then dateA - dateB
      else t_workerOrder a - t_workerOrder b
  | _, _ => 0
  end.

Definition sortedTempRows (ws : Worksheet) : list TempRow :=
  JS.sort compareRows (tempRowsOf (workers (walkSheet ws))).

Definition parseAttendanceSheet (ws : Worksheet) : list AttendanceRow :=
  map t_row (sortedTempRows ws).

(** ** createOutputWorkbook: the data rows

    Fonts, fills, borders and number formats are left out, and with them the
    weekend and holiday tests, which only choose a font colour. *)

Inductive OutCell :=
| ONumber (x : Q)
| OText (s : string).

Definition workUnitsOf (row : AttendanceRow) : Q :=
  if JS.num_gtb (basicHours row) 0 then getWorkUnits (gender row) (basicHours row) else 0.

Definition unitPriceOf (row : AttendanceRow) : Q :=
  if JS.num_gtb (basicHours row) 0 then getUnitPrice (gender row) (basicHours row) else 0.

Definition basicTotalOf (row : AttendanceRow) : Q :=
  calculateTotal (workUnitsOf row) (unitPriceOf row).

Definition weekendSpecialTotalOf (row : AttendanceRow) : Q :=
  if JS.num_gtb (weekendSpecialHours row) 0
  then getWeekendSpecialUnitPrice (weekendSpecialHours row) else 0.

Definition weeklyHolidayTotalOf (row : AttendanceRow) : Q :=
  if JS.num_gtb (weeklyHolidayHours row) 0
  then getWeeklyHolidayUnitPrice (weeklyHolidayHours row) else 0.

Definition totalOf (row : AttendanceRow) : Q :=
  basicTotalOf row + weekendSpecialTotalOf row + weeklyHolidayTotalOf row.

(** [x > 0 ? x : ''] *)
Definition numberOrBlank (x : Q) : OutCell :=
  if JS.num_gtb x 0 then ONumber x else OText "".

(** The array given to [worksheet.addRow] for [data[index]]. *)
Definition outputRow (month : string) (index : Z) (row : AttendanceRow) : list OutCell :=
  let workUnits := workUnitsOf row in
  let unitPrice := unitPriceOf row in
  [ ONumber (inject_Z (index + 1));
    OText (month ++ "/" ++ date row)%string;
    OText (genderText (gender row));
    OText (name row);
    numberOrBlank (basicHours row);
    numberOrBlank (overtimeHours row);
    numberOrBlank (weekendSpecialHours row);
    numberOrBlank (weeklyHolidayHours row);
    (if JS.num_gtb workUnits 0 then OText (formatWorkUnits workUnits) else OText "");
    numberOrBlank unitPrice;
    OText "";
    ONumber (totalOf row) ].

Fixpoint outputRowsFrom (month : string) (index : Z) (data : list AttendanceRow)
    : list (list OutCell) :=
  match data with
  | [] => []
  | row :: rest => outputRow month index row :: outputRowsFrom month (index + 1) rest
  end.

Definition headers : list OutCell :=
  map OText
    [ "NO."; "일정"; "성별"; "성명"; "기본"; "연장"; "주특"; "주휴";
      "공수"; "단가"; "연장"; "계" ].

(** The rows added to the worksheet: the header row, then one row for each
    element of [data] ([data.forEach((row, index) => ...)]).  The company
    name and the year only enter the styling. *)
Definition createOutputWorkbook (data : list AttendanceRow) (month : string)
    : list (list OutCell) :=
  headers :: outputRowsFrom month 0 data.

(** ** getKoreanHolidays *)

(** The three tables are objects indexed by [String(month)]. *)
Definition holidays : list (string * list Z) :=
  [ ("1", [1]); ("3", [1]); ("5", [5]); ("6", [6]); ("8", [15]);
    ("10", [3; 9]); ("12", [25]) ].

Definition lunarHolidays2024 : list (string * list Z) :=
  [ ("2", [9; 10; 11; 12]); ("4", [10]); ("5", [15]); ("9", [16; 17; 18]) ].

Definition lunarHolidays2025 : list (string * list Z) :=
  [ ("1", [28; 29; 30]); ("5", [5; 6]); ("10", [5; 6; 7; 8]) ].

(** [if (table[monthKey]) result.push(...table[monthKey])] *)
Definition pushAll (table : list (string * list Z)) (monthKey : string)
    (result : list Z) : list Z :=
  match JS.map_get String.eqb table monthKey with
  | Some days => result ++ days
  | None => result
  end.

Definition getKoreanHolidays (year month : Z) : list Z :=
  let monthKey := JS.String_of_int month in
  let result := pushAll holidays monthKey [] in
  let result := if year =? 2024 then pushAll lunarHolidays2024 monthKey result else result in
  let result := if year =? 2025 then pushAll lunarHolidays2025 monthKey result else result in
  result.

(** ** extractMonthFromSheetName *)

Record Period := { year : string; month : string }.

(** The syllables 월 and 년, as bytes. *)
Definition wol : list ascii := JS.chars "월".
Definition nyeon : list ascii := JS.chars "년".

Definition startsWith (p s : list ascii) : bool :=
  match JS.stripPrefix p s with Some _ => true | None => false end.

(** [(\d{1,2})월] tried at the head of [s]: the group.  Two digits are taken
    when 월 follows them, else one digit when 월 follows it. *)
Definition monthGroup (s : list ascii) : option (list ascii) :=
  match s with
  | a :: b :: r =>
      if JS.isDigit a then
        if (JS.isDigit b && startsWith wol r)%bool then Some [a; b]
        else if startsWith wol (b :: r) then Some [a]
        else None
      else None
  | _ => None
  end.

(** Which alternative of the first pattern matched, with its two groups. *)
Inductive MonthMatch :=
| YYMM (y m : list ascii)
| YYNyeonM (y m : list ascii)
| YYYYNyeonM (y m : list ascii).

(** [(\d{2})(\d{2})월] at the head of [s]. *)
Definition matchYYMM (s : list ascii) : option MonthMatch :=
  match s with
  | a :: b :: c :: d :: r =>
      if (JS.isDigit a && JS.isDigit b && JS.isDigit c && JS.isDigit d
          && startsWith wol r)%bool
      then Some (YYMM [a; b] [c; d]) else None
  | _ => None
  end.

(** [(\d{2})년\s*(\d{1,2})월] at the head of [s]. *)
Definition matchYYNyeonM (s : list ascii) : option MonthMatch :=
  match s with
  | a :: b :: r =>
      if (JS.isDigit a && JS.isDigit b)%bool then
        match JS.stripPrefix nyeon r with
        | Some r' =>
            match monthGroup (JS.trimStartChars r') with
            | Some m => Some (YYNyeonM [a; b] m)
            | None => None
            end
        | None => None
        end
      else None
  | _ => None
  end.

(** [(\d{4})년?\s*(\d{1,2})월] at the head of [s]. *)
Definition matchYYYYNyeonM (s : list ascii) : option MonthMatch :=
  match s with
  | a :: b :: c :: d :: r =>
      if (JS.isDigit a && JS.isDigit b && JS.isDigit c && JS.isDigit d)%bool then
        let r' := match JS.stripPrefix nyeon r with Some r' => r' | None => r end in
        match monthGroup (JS.trimStartChars r') with
        | Some m => Some (YYYYNyeonM [a; b; c; d] m)
        | None => None
        end
      else None
  | _ => None
  end.

(** The three alternatives, in order, at the head of [s]. *)
Definition matchPeriodHere (s : list ascii) : option MonthMatch :=
  match matchYYMM s with
  | Some r => Some r
  | None =>
      match matchYYNyeonM s with
      | Some r => Some r
      | None => matchYYYYNyeonM s
      end
  end.

(** [sheetName.match(/(\d{2})(\d{2})월|(\d{2})년\s*(\d{1,2})월|(\d{4})년?\s*(\d{1,2})월/)]:
    the leftmost match. *)
Fixpoint matchPeriod (s : list ascii) : option MonthMatch :=
  match matchPeriodHere s with
  | Some r => Some r
  | None =>
      match s with
      | [] => None
      | _ :: s' => matchPeriod s'
      end
  end.

(** [sheetName.match(/(\d{1,2})월/)]: the group of the leftmost match. *)
Fixpoint matchSimple (s : list ascii) : option (list ascii) :=
  match monthGroup s with
  | Some m => Some m
  | None =>
      match s with
      | [] => None
      | _ :: s' => matchSimple s'
      end
  end.

(** [s.padStart(2, '0')] *)
Definition padStart2 (s : list ascii) : list ascii :=
  repeat "0"%char (2 - List.length s) ++ s.

(** [s.slice(-2)] *)
Definition sliceLast2 (s : list ascii) : list ascii :=
  skipn (List.length s - 2) s.

(** [nowFullYear] and [nowMonth] stand for [now.getFullYear()] and
    [now.getMonth() + 1] of the [new Date()] the function reads. *)
Definition extractMonthFromSheetName (sheetName : string)
    (nowFullYear nowMonth : Z) : Period :=
  match matchPeriod (JS.chars sheetName) with
  | Some (YYMM y m) =>
      {| year := JS.str y; month := JS.str (padStart2 m) |}
  | Some (YYNyeonM y m) =>
      {| year := JS.str y; month := JS.str (padStart2 m) |}
  | Some (YYYYNyeonM y m) =>
      {| year := JS.str (sliceLast2 y); month := JS.str (padStart2 m) |}
  | None =>
      match matchSimple (JS.chars sheetName) with
      | Some m =>
          {| year := JS.str (sliceLast2 (JS.chars (JS.String_of_int nowFullYear)));
             month := JS.str (padStart2 m) |}
      | None =>
          {| year := JS.str (sliceLast2 (JS.chars (JS.String_of_int nowFullYear)));
             month := JS.str (padStart2 (JS.chars (JS.String_of_int nowMonth))) |}
      end
  end.

End Routes.

(* ================================================================== *)
(** * Definitions that follow the specification's wording *)
(* ================================================================== *)

Module Spec.
Import Schema Routes.

(** A canonical basic-hour value: one of 8, 6, 2.5 and 1. *)
Definition canonical (h : Q) : Prop :=
  (h == 8 \/ h == 6 \/ h == 2.5 \/ h == 1)%Q.

(** The rate table of the specification: work units and price for a gender
    and a canonical hour value, zero for both otherwise. *)
Definition rateOf (g : Gender) (h : Q) : Q * Q :=
  if Qeq_bool h 8 then (1, match g with Nam => 117480 | Yeo => 108680 end)%Q
  else if Qeq_bool h 6 then (0.75, match g with Nam => 88110 | Yeo => 81510 end)%Q
  else if Qeq_bool h 2.5 then (0.3125, match g with Nam => 36713 | Yeo => 33963 end)%Q
  else if Qeq_bool h 1 then (0.125, match g with Nam => 14685 | Yeo => 13585 end)%Q
  else (0, 0)%Q.

(** [units(hours)]: 8 -> 1, 6 -> 0.75, 2.5 -> 0.3125, 1 -> 0.125, else
    [hours/8]. *)
Definition unitsOf (hours : Q) : Q :=
  if Qeq_bool hours 8 then 1
  else if Qeq_bool hours 6 then 0.75
  else if Qeq_bool hours 2.5 then 0.3125
  else if Qeq_bool hours 1 then 0.125
  else hours / 8.

(** The position of a key in a list, counted from 0. *)
Fixpoint indexOf (k : string) (l : list string) : option Z :=
  match l with
  | [] => None
  | x :: r => if String.eqb k x then Some 0 else option_map Z.succ (indexOf k r)
  end.

(** The (gender, name) pairs of the data rows that are not skipped, in sheet
    order, each as the key [gender-name]: gender and name are filled forward
    from the last row that gave one, and a row counts when the name is no
    longer empty and its category is one of the four codes. *)
Fixpoint recognizedKeys (h : HeaderCols) (rows : list Row)
    (g : Gender) (n : string) : list string :=
  match rows with
  | [] => []
  | row :: rest =>
      let g' := nextGender g (cellText (getCell row (genderColIndex h))) in
      let n' := nextName n (cellText (getCell row (nameColIndex h))) in
      let later := recognizedKeys h rest g' n' in
      if (String.eqb n' ""
          || negb (isCategory (cellText (getCell row (categoryColIndex h)))))%bool
      then later
      else workerKeyOf g' n' :: later
  end.

(** The workers in discovery order: each key at its first occurrence. *)
Definition discoveryOrder (ws : Worksheet) : list string :=
  let h := detectHeader ws in
  fold_left (JS.set_add String.eqb) (recognizedKeys h (dataRows h ws) Nam "") [].

(** The discovery-order index of the worker of a row. *)
Definition discoveryIndex (ws : Worksheet) (r : AttendanceRow) : option Z :=
  indexOf (workerKeyOf (gender r) (name r)) (discoveryOrder ws).

(** The day of a row. *)
Definition dayOf (r : AttendanceRow) : option Z := JS.parseInt (date r).

(** [r1] may stand before [r2]: an earlier day, or the same day and a worker
    discovered no later. *)
Definition rowLe (ws : Worksheet) (r1 r2 : AttendanceRow) : Prop :=
  exists d1 d2 i1 i2,
    dayOf r1 = Some d1 /\ dayOf r2 = Some d2 /\
    discoveryIndex ws r1 = Some i1 /\ discoveryIndex ws r2 = Some i2 /\
    (d1 < d2 \/ (d1 = d2 /\ i1 <= i2)).

(** The header labels. *)
Definition genderLabels : list string := ["성별"].
Definition nameLabels : list string := ["성명"; "이름"].
Definition categoryLabels : list string := ["구분"].

(** A cell with its row and column. *)
Definition Placed : Type := Z * Z * CellValue.

Definition hasLabel (labels : list string) (v : CellValue) : bool :=
  existsb (String.eqb (cellText v)) labels.

Definition isLabel (labels : list string) (c : Placed) : bool :=
  hasLabel labels (snd c).

Fixpoint rowCells (rowNum colNumber : Z) (cells : Row) : list Placed :=
  match cells with
  | [] => []
  | v :: rest => (rowNum, colNumber, v) :: rowCells rowNum (colNumber + 1) rest
  end.

(** The cells of some rows, row by row from row [rowNum], each row by
    increasing column. *)
Fixpoint sheetCells (rowNum : Z) (rows : list Row) : list Placed :=
  match rows with
  | [] => []
  | row :: rest => rowCells rowNum 1 row ++ sheetCells (rowNum + 1) rest
  end.

(** The place of the first, respectively last, cell that carries one of the
    labels. *)
Definition firstLabel (labels : list string) (cells : list Placed) : option (Z * Z) :=
  option_map fst (find (isLabel labels) cells).

Definition lastLabel (labels : list string) (cells : list Placed) : option (Z * Z) :=
  option_map fst (find (isLabel labels) (rev cells)).

(** All three fields have a label somewhere in the rows. *)
Definition allSeen (rows : list Row) : bool :=
  (existsb (existsb (hasLabel genderLabels)) rows
   && existsb (existsb (hasLabel nameLabels)) rows
   && existsb (existsb (hasLabel categoryLabels)) rows)%bool.

(** How many rows the header scan reads: up to the first row by which all
    three fields have been seen, or all of them. *)
Definition scannedCount (rows : list Row) : nat :=
  match find (fun k => allSeen (firstn k rows)) (seq 1 (List.length rows)) with
  | Some k => k
  | None => List.length rows
  end.

Definition scannedCells (ws : Worksheet) : list Placed :=
  sheetCells 1 (firstn (scannedCount (firstn 15 ws)) (firstn 15 ws)).

End Spec.

(* ================================================================== *)
(** * Sample sheets *)
(* ================================================================== *)

Module Sample.
Import Schema Routes.

Definition headerRow : Row :=
  [ VString "성별"; VString "성명"; VString "구분";
    VNumber 1; VNumber 2; VNumber 3 ].

(** Two workers; the one discovered first has the later name.  The first
    worker has a basic cell of 4 on day 2 and only overtime on day 3. *)
Definition twoWorkers : Worksheet :=
  [ headerRow;
    [ VString "남"; VString "하준"; VString "기본"; VNumber 8; VNumber 4 ];
    [ VNull; VNull; VString "연장"; VNumber 2; VNull; VNumber 3 ];
    [ VString "여"; VString "가은"; VString "기본"; VString "2.5"; VNumber 8 ];
    [ VNull; VNull; VString "주특"; VNull; VNull; VNumber 4 ] ].

Definition hajun : WorkerData :=
  {| w_gender := Nam; w_name := "하준"; w_order := 0;
     w_basicHours := [(1, 8%Q)];
     w_overtimeHours := [(1, 2%Q); (3, 3%Q)];
     w_weekendSpecialHours := []; w_weeklyHolidayHours := [] |}.

Definition gaeun : WorkerData :=
  {| w_gender := Yeo; w_name := "가은"; w_order := 1;
     w_basicHours := [(1, 2.5%Q); (2, 8%Q)];
     w_overtimeHours := [];
     w_weekendSpecialHours := [(3, 4%Q)]; w_weeklyHolidayHours := [] |}.

Definition mkRow (g : Gender) (n d : string) (b o s w : Q) : AttendanceRow :=
  {| gender := g; name := n; date := d; basicHours := b; overtimeHours := o;
     weekendSpecialHours := s; weeklyHolidayHours := w |}.

(** The header in row 3, the days 1 to 31 in columns 4 to 34, and one
    worker with basic hours on days 1 and 2 and overtime on day 1. *)
Definition march : Worksheet :=
  [ [ VString "24년 3월 출근부" ];
    [];
    [ VString "성별"; VString "성명"; VString "구분" ]
      ++ map (fun d => VNumber (inject_Z (Z.of_nat d))) (seq 1 31);
    [ VString "남"; VString "홍길동"; VString "기본"; VNumber 8; VNumber 8 ];
    [ VNull; VNull; VString "연장"; VNumber 2 ] ].

(** A row in which the label 성별 occurs twice. *)
Definition repeatedLabel : Worksheet :=
  [ [ VString "성별"; VString "성명"; VString "구분"; VString "성별" ] ].

(** A sheet whose first row carries a lone 성별, whose second row is the
    header and whose third row repeats the labels elsewhere. *)
Definition lateHeader : Worksheet :=
  [ [ VString "성별" ];
    [ VNull; VString "성별"; VString "이름"; VString "구분" ];
    [ VString "구분"; VString "성명"; VString "성별" ] ].

(** A header row whose first date column reads 3/45. *)
Definition badDay : Worksheet :=
  [ [ VString "성별"; VString "성명"; VString "구분"; VString "3/45"; VString "45" ] ].

(** A sheet whose data rows carry none of the four category codes. *)
Definition noCodes : Worksheet :=
  [ headerRow;
    [ VString "남"; VString "하준"; VString "합계"; VNumber 8 ];
    [ VNull; VNull; VString "비고"; VNumber 2 ] ].

(** A sheet whose header, in row 2, has no gender label. *)
Definition noGender : Worksheet :=
  [ [ VString "3월 출근부" ];
    [ VString "번호"; VNull; VString "이름"; VString "구분"; VNumber 1 ];
    [ VNumber 1; VNull; VString "하준"; VString "기본"; VNumber 8 ] ].

End Sample.

(* ================================================================== *)
(** * Notions used in the proofs *)
(* ================================================================== *)

Module Inv.
Import Schema Routes.

(** One step of reading a decimal numeral. *)
Definition digitStep (acc : Z) (c : ascii) : Z := acc * 10 + JS.digitVal c.

(** A property of every entry of the workers map. *)
Definition allWorkers (P : string -> WorkerData -> Prop)
    (ws : list (string * WorkerData)) : Prop :=
  Forall (fun kw => P (fst kw) (snd kw)) ws.

(** The basic-hours map of a worker holds canonical values only. *)
Definition basicCanonical (w : WorkerData) : Prop :=
  Forall (fun dv => Spec.canonical (snd dv)) (w_basicHours w).

(** What identifies a worker: the fields no row changes once it is created. *)
Definition ident (w : WorkerData) : Gender * string * Z :=
  (w_gender w, w_name w, w_order w).

Definition skeleton (ws : list (string * WorkerData))
  : list (string * (Gender * string * Z)) :=
  map (fun kw => (fst kw, ident (snd kw))) ws.

(** The order fields count the workers from 0, and the counter is their
    number. *)
Definition ordersOk (st : Walk) : Prop :=
  map (fun kw => w_order (snd kw)) (workers st)
  = map Z.of_nat (seq 0 (List.length (workers st))) /\
  workerOrder st = Z.of_nat (List.length (workers st)).

(** A row pushed for a worker: its date parses and its order field is the
    worker's discovery index. *)
Definition rowKnown (ws : Worksheet) (t : TempRow) : Prop :=
  (exists d, Spec.dayOf (t_row t) = Some d) /\
  Spec.discoveryIndex ws (t_row t) = Some (t_workerOrder t).

(** The callback of the header scan, on a cell with its place. *)
Definition placeCell (h : HeaderCols) (p : Spec.Placed) : HeaderCols :=
  headerCell (fst (fst p)) (snd p) (snd (fst p)) h.

(** The three tests of the [break], and what a row adds to them. *)
Definition flags (h : HeaderCols) : bool * bool * bool :=
  (0 <? genderColIndex h, 0 <? nameColIndex h, 0 <? categoryColIndex h).

Definition seenAfter (b : bool * bool * bool) (row : Row) : bool * bool * bool :=
  (fst (fst b) || existsb (Spec.hasLabel Spec.genderLabels) row,
   snd (fst b) || existsb (Spec.hasLabel Spec.nameLabels) row,
   snd b || existsb (Spec.hasLabel Spec.categoryLabels) row)%bool.

Definition allOf (b : bool * bool * bool) : bool :=
  (fst (fst b) && snd (fst b) && snd b)%bool.

(** The number of rows the loop reads before its [break], from the tests
    [b] on. *)
Fixpoint stopAt (b : bool * bool * bool) (rows : list Row) : nat :=
  match rows with
  | [] => O
  | row :: rest =>
      if allOf (seenAfter b row) then 1%nat
      else S (stopAt (seenAfter b row) rest)
  end.

Definition allFrom (b : bool * bool * bool) (rows : list Row) : bool :=
  ((fst (fst b) || existsb (existsb (Spec.hasLabel Spec.genderLabels)) rows)
   && (snd (fst b) || existsb (existsb (Spec.hasLabel Spec.nameLabels)) rows)
   && (snd b || existsb (existsb (Spec.hasLabel Spec.categoryLabels)) rows))%bool.

(** No column occurs in two date headers. *)
Definition oneDayPerColumn (hs : list DateHeader) : Prop := NoDup (map col hs).

(** Every entry of the four maps has a positive value, under the day of one
    of the given date headers. *)
Definition entriesFrom (dhs : list DateHeader) (w : WorkerData) : Prop :=
  forall d v,
    In (d, v) (w_basicHours w) \/ In (d, v) (w_overtimeHours w) \/
    In (d, v) (w_weekendSpecialHours w) \/ In (d, v) (w_weeklyHolidayHours w) ->
    (0 < v)%Q /\ exists dh, In dh dhs /\ day dh = d.

(** What tells two returned rows apart: worker and day. *)
Definition rowKey (r : AttendanceRow) : Gender * string * string :=
  (gender r, name r, date r).

(** The headers a cell can add are in the 35 columns after the category
    column. *)
Definition inDateRange (cat : Z) (hs : list DateHeader) : Prop :=
  Forall (fun h => cat < col h <= cat + 35) hs.

(** A captured group of one or two digits reads as a number from 0 to 99. *)
Definition shortDigits (g : list ascii) : Prop :=
  (exists a, g = [a] /\ JS.isDigit a = true) \/
  (exists a b, g = [a; b] /\ JS.isDigit a = true /\ JS.isDigit b = true).


(** A table indexed by month number, as the object with the numerals as
    keys. *)
Definition keyed (t : list (Z * list Z)) : list (string * list Z) :=
  map (fun e => (JS.String_of_int (fst e), snd e)) t.

(** Exactly two decimal digits. *)
Definition twoDigits (l : list ascii) : Prop :=
  exists a b, l = [a; b] /\ JS.isDigit a = true /\ JS.isDigit b = true.

(** The shape of the groups of a match of the first pattern. *)
Definition matchShape (r : MonthMatch) : Prop :=
  match r with
  | YYMM y m => twoDigits y /\ twoDigits m
  | YYNyeonM y m => twoDigits y /\ shortDigits m
  | YYYYNyeonM y m =>
      (exists a b c d, y = [a; b; c; d] /\ JS.isDigit c = true /\ JS.isDigit d = true)
      /\ shortDigits m
  end.

(** The bytes of 월 occur in [s]. *)
Definition hasWol (s : list ascii) : Prop := exists pre post, s = pre ++ wol ++ post.

(** The search for 월, as a test. *)
Fixpoint hasWolb (s : list ascii) : bool :=
  (startsWith wol s
   || match s with
      | [] => false
      | _ :: s' => hasWolb s'
      end)%bool.

(** Text that [parseFloat] reads as an infinite number: the literal
    [Infinity] after white space and an optional sign.  It has no value
    among the rationals. *)
Definition readsInfinity (s : string) : bool :=
  let t := JS.trimStartChars (JS.chars s) in
  let u :=
    match t with
    | "-"%char :: u => u
    | "+"%char :: u => u
    | _ => t
    end in
  match JS.stripPrefix (JS.chars "Infinity") u with
  | Some _ => true
  | None => false
  end.

End Inv.

(* ================================================================== *)
(** * Properties *)
(* ================================================================== *)

Import Schema Routes Inv.

(** ** Numbers *)

Lemma num_eqb_true (a b : Q) : JS.num_eqb a b = true <-> (a == b)%Q.
Proof. unfold JS.num_eqb. apply Qeq_bool_iff. Qed.

Lemma num_eqb_false (a b : Q) : JS.num_eqb a b = false <-> ~ (a == b)%Q.
Proof.
  unfold JS.num_eqb. split.
  - intros E H. apply Qeq_bool_iff in H. congruence.
  - intros H. destruct (Qeq_bool a b) eqn:E; [|reflexivity].
    apply Qeq_bool_iff in E. contradiction.
Qed.

Lemma num_gtb_true (a b : Q) : JS.num_gtb a b = true <-> (b < a)%Q.
Proof.
  unfold JS.num_gtb. rewrite negb_true_iff. split.
  - intros E. apply Qnot_le_lt. intros H. apply Qle_bool_iff in H. congruence.
  - intros H. destruct (Qle_bool a b) eqn:E; [|reflexivity].
    apply Qle_bool_iff in E. exfalso. exact (Qlt_not_le _ _ H E).
Qed.

Lemma num_gtb_false (a b : Q) : JS.num_gtb a b = false <-> (a <= b)%Q.
Proof.
  unfold JS.num_gtb. rewrite negb_false_iff. apply Qle_bool_iff.
Qed.

(** ** The rate tables *)

Lemma rates_lookup (g : Gender) (h : Q) :
  (getWorkUnits g h, getUnitPrice g h) = Spec.rateOf g h.
Proof.
  unfold getWorkUnits, getUnitPrice, Spec.rateOf, JS.num_eqb.
  destruct g; simpl; unfold JS.num_eqb;
    destruct (Qeq_bool h 8); [reflexivity| |reflexivity|];
    destruct (Qeq_bool h 6); [reflexivity| |reflexivity|];
    destruct (Qeq_bool h 2.5); [reflexivity| |reflexivity|];
    destruct (Qeq_bool h 1); reflexivity.
Qed.

(** C1. For a canonical basic-hour value (8, 6, 2.5 or 1) and either gender,
    [getWorkUnits] and [getUnitPrice] return the pair of the gender's rate
    table; for any other hour value both return 0. *)
Theorem C1_rate_table_lookup (g : Gender) (h : Q) :
  ((h == 8)%Q ->
     (getWorkUnits g h, getUnitPrice g h)
     = match g with Nam => (1, 117480) | Yeo => (1, 108680) end%Q) /\
  ((h == 6)%Q ->
     (getWorkUnits g h, getUnitPrice g h)
     = match g with Nam => (0.75, 88110) | Yeo => (0.75, 81510) end%Q) /\
  ((h == 2.5)%Q ->
     (getWorkUnits g h, getUnitPrice g h)
     = match g with Nam => (0.3125, 36713) | Yeo => (0.3125, 33963) end%Q) /\
  ((h == 1)%Q ->
     (getWorkUnits g h, getUnitPrice g h)
     = match g with Nam => (0.125, 14685) | Yeo => (0.125, 13585) end%Q) /\
  (~ Spec.canonical h -> getWorkUnits g h = 0%Q /\ getUnitPrice g h = 0%Q).
Proof.
  assert (P : (getWorkUnits g h, getUnitPrice g h) = Spec.rateOf g h)
    by apply rates_lookup.
  assert (N8 : ~ (6 == 8)%Q /\ ~ (2.5 == 8)%Q /\ ~ (1 == 8)%Q) by (repeat split; discriminate).
  assert (N6 : ~ (2.5 == 6)%Q /\ ~ (1 == 6)%Q) by (split; discriminate).
  assert (N25 : ~ (1 == 2.5)%Q) by discriminate.
  destruct N8 as (N68 & N258 & N18). destruct N6 as (N256 & N16).
  unfold Spec.rateOf, Spec.canonical in *.
  destruct (Qeq_bool h 8) eqn:E8;
    [apply Qeq_bool_iff in E8 | apply Qeq_bool_neq in E8];
    [| destruct (Qeq_bool h 6) eqn:E6;
       [apply Qeq_bool_iff in E6 | apply Qeq_bool_neq in E6];
       [| destruct (Qeq_bool h 2.5) eqn:E25;
          [apply Qeq_bool_iff in E25 | apply Qeq_bool_neq in E25];
          [| destruct (Qeq_bool h 1) eqn:E1;
             [apply Qeq_bool_iff in E1 | apply Qeq_bool_neq in E1]]]].
  - (split; [|split; [|split; [|split]]]); intros H; try (rewrite E8 in H; first [now apply N68 in H | now apply N258 in H | now apply N18 in H | symmetry in H; now first [apply N68 in H | apply N258 in H | apply N18 in H]]).
    + rewrite P. now destruct g.
    + exfalso; apply H; auto.
  - (split; [|split; [|split; [|split]]]); intros H; try contradiction;
      try (rewrite E6 in H; first [now apply N256 in H | now apply N16 in H | symmetry in H; now first [apply N256 in H | apply N16 in H]]).
    + rewrite P. now destruct g.
    + exfalso; apply H; auto.
  - (split; [|split; [|split; [|split]]]); intros H; try contradiction;
      try (rewrite E25 in H; first [now apply N25 in H | symmetry in H; now apply N25 in H]).
    + rewrite P. now destruct g.
    + exfalso; apply H; auto.
  - (split; [|split; [|split; [|split]]]); intros H; try contradiction.
    + rewrite P. now destruct g.
    + exfalso; apply H; auto.
  - (split; [|split; [|split; [|split]]]); intros H; try contradiction; now inversion P.
Qed.

Lemma C1_rate_table_lookup_witness :
  (getWorkUnits Yeo 2.5, getUnitPrice Yeo 2.5) = (0.3125, 33963)%Q /\
  (getWorkUnits Nam 8, getUnitPrice Nam 8) = (1, 117480)%Q /\
  (getWorkUnits Nam 4 = 0%Q /\ getUnitPrice Nam 4 = 0%Q).
Proof.
  split; [|split].
  - apply (proj1 (proj2 (proj2 (C1_rate_table_lookup Yeo 2.5)))). reflexivity.
  - apply (proj1 (C1_rate_table_lookup Nam 8)). reflexivity.
  - apply (proj2 (proj2 (proj2 (proj2 (C1_rate_table_lookup Nam 4))))).
    unfold Spec.canonical. intros [H|[H|[H|H]]]; discriminate H.
Defined.

(** ** Surcharges *)

Lemma weekendSpecialWorkUnits_spec (h : Q) :
  getWeekendSpecialWorkUnits h = Spec.unitsOf h.
Proof. reflexivity. Qed.

Lemma weeklyHolidayWorkUnits_spec (h : Q) :
  getWeeklyHolidayWorkUnits h = Spec.unitsOf h.
Proof. reflexivity. Qed.

(** The work units of the specification are [hours/8] throughout. *)
Lemma unitsOf_linear (h : Q) : (Spec.unitsOf h == h / 8)%Q.
Proof.
  unfold Spec.unitsOf.
  destruct (Qeq_bool h 8) eqn:E8.
  { apply Qeq_bool_iff in E8. rewrite E8. reflexivity. }
  destruct (Qeq_bool h 6) eqn:E6.
  { apply Qeq_bool_iff in E6. rewrite E6. reflexivity. }
  destruct (Qeq_bool h 2.5) eqn:E25.
  { apply Qeq_bool_iff in E25. rewrite E25. reflexivity. }
  destruct (Qeq_bool h 1) eqn:E1.
  { apply Qeq_bool_iff in E1. rewrite E1. reflexivity. }
  reflexivity.
Qed.

(** ** Rounding *)

Lemma Math_round_compat (x y : Q) : (x == y)%Q -> JS.Math_round x = JS.Math_round y.
Proof. intros E. unfold JS.Math_round. now rewrite E. Qed.

(** [Math.round x] is the integer [n] with [n - 1/2 <= x < n + 1/2]. *)
Lemma Math_round_nearest (x : Q) :
  exists n : Z,
    JS.Math_round x = inject_Z n /\
    (inject_Z n - (1 # 2) <= x)%Q /\ (x < inject_Z n + (1 # 2))%Q.
Proof.
  exists (Qfloor (x + (1 # 2))). split; [reflexivity|].
  pose proof (Qfloor_le (x + (1 # 2))) as L.
  pose proof (Qlt_floor (x + (1 # 2))) as U.
  rewrite inject_Z_plus in U.
  remember (inject_Z (Qfloor (x + (1 # 2)))) as F eqn:EF. clear EF.
  split.
  - apply (Qplus_le_l _ _ (1 # 2)).
    setoid_replace (F - (1 # 2) + (1 # 2))%Q with F by ring. exact L.
  - apply (Qplus_lt_l _ _ (1 # 2)).
    setoid_replace (F + (1 # 2) + (1 # 2))%Q with (F + inject_Z 1)%Q by ring.
    exact U.
Qed.

Lemma roundEven_Z (x : Q) (k : Z) : (x == inject_Z k)%Q -> JS.roundEven x = k.
Proof.
  intros E.
  assert (F : Qfloor x = k) by (rewrite E; apply Qfloor_Z).
  assert (C : (x - inject_Z k ?= 1 # 2)%Q = Lt).
  { apply Qlt_alt. rewrite E.
    setoid_replace (inject_Z k - inject_Z k)%Q with 0%Q by ring. reflexivity. }
  unfold JS.roundEven. rewrite F, C. reflexivity.
Qed.

Lemma pow2_Z (z : Z) : 0 <= z -> (2 ^ z == inject_Z (2 ^ z))%Q.
Proof. intros H. symmetry. exact (Zpower_Qpower 2 z H). Qed.

Lemma inject_Z_pos (m : Z) : 0 < m -> (0 < inject_Z m)%Q.
Proof. intros H. unfold Qlt, inject_Z. cbn. lia. Qed.

Lemma pow2_pos (z : Z) : (0 < 2 ^ z)%Q.
Proof. apply Qpower_0_lt. reflexivity. Qed.

Lemma pow2_split (a b : Z) : (2 ^ (a + b) == 2 ^ a * 2 ^ b)%Q.
Proof. apply Qpower_plus. discriminate. Qed.

(** The binade of [q] starts at or below [q]. *)
Lemma binade_le (q : Q) : (0 < q)%Q -> (2 ^ JS.binade q <= q)%Q.
Proof.
  intros Hq. unfold JS.binade.
  set (e := Z.log2 (Qnum q) - Z.log2 (Zpos (Qden q))).
  destruct (Qle_bool (2 ^ e) q) eqn:T; [now apply Qle_bool_iff|].
  destruct q as [n d]. cbn [Qnum Qden] in e.
  assert (Hn : 0 < n) by (unfold Qlt in Hq; cbn in Hq; lia).
  destruct (Z.log2_spec n Hn) as [La _].
  destruct (Z.log2_spec (Zpos d) (Pos2Z.is_pos d)) as [_ Lb].
  set (a := Z.log2 n) in *. set (b := Z.log2 (Zpos d)) in *.
  assert (Ha : 0 <= a) by apply Z.log2_nonneg.
  assert (Hb : 0 <= b) by apply Z.log2_nonneg.
  replace (e - 1) with (a + - (Z.succ b)) by (unfold e; lia).
  rewrite pow2_split, Qpower_opp, (pow2_Z a Ha), (pow2_Z (Z.succ b)) by lia.
  assert (PB : 0 < 2 ^ Z.succ b) by (apply Z.pow_pos_nonneg; lia).
  destruct (2 ^ Z.succ b) as [|B|B] eqn:EB; try lia.
  unfold Qle, Qmult, Qinv, inject_Z. cbn [Qnum Qden].
  rewrite Pos.mul_1_l, Z.mul_1_r. nia.
Qed.

(** A number with a significand below [2^53] and a unit of at least
    [2^-1074] is its own nearest double. *)
Lemma nearest_exact (q : Q) (m e : Z) :
  0 < m < 2 ^ 53 -> -1074 <= e -> (q == inject_Z m * 2 ^ e)%Q ->
  (JS.nearest q == q)%Q.
Proof.
  intros [Hm0 Hm] He Hq.
  assert (Q0 : (0 < q)%Q).
  { rewrite Hq. apply Qmult_lt_0_compat; [|apply pow2_pos].
    now apply inject_Z_pos. }
  pose proof (binade_le q Q0) as B.
  assert (Hb : JS.binade q < 53 + e).
  { apply (Qpower_lt_compat_l_inv 2); [|reflexivity].
    eapply Qle_lt_trans; [exact B|]. rewrite Hq, pow2_split.
    apply Qmult_lt_compat_r; [apply pow2_pos|].
    rewrite (pow2_Z 53) by lia. rewrite <- Zlt_Qlt. exact Hm. }
  unfold JS.nearest. set (E := Z.max (JS.binade q - 52) (-1074)).
  assert (HE : E <= e) by (unfold E; lia).
  assert (X : (q / 2 ^ E == inject_Z (m * 2 ^ (e - E)))%Q).
  { rewrite inject_Z_mult, <- (pow2_Z (e - E)) by lia.
    rewrite Hq. replace e with ((e - E) + E) at 1 by lia.
    rewrite pow2_split. field. intros Z0.
    pose proof (pow2_pos E) as P. rewrite Z0 in P. discriminate P. }
  rewrite (roundEven_Z _ _ X), inject_Z_mult, <- (pow2_Z (e - E)) by lia.
  rewrite <- Qmult_assoc, <- pow2_split.
  replace (e - E + E) with e by lia. now symmetry.
Qed.

Lemma toDouble_fixed (q : Q) : (0 < q)%Q -> (JS.nearest q == q)%Q -> JS.toDouble q = q.
Proof.
  intros Hq E. unfold JS.toDouble.
  destruct q as [n d]. unfold Qlt in Hq. cbn in Hq.
  destruct n as [|p|p]; try lia. cbn [Qnum].
  now rewrite (proj2 (Qeq_bool_iff _ _) E).
Qed.

(** The doubles: every positive [m * 2^e] with [m < 2^53] and
    [-1074 <= e <= 971]. *)
Lemma isDouble_dyadic (q : Q) (m e : Z) :
  0 < m < 2 ^ 53 -> -1074 <= e <= 971 -> (q == inject_Z m * 2 ^ e)%Q ->
  JS.toDouble q = q /\ JS.isDouble q = true.
Proof.
  intros Hm He Hq.
  assert (Q0 : (0 < q)%Q).
  { rewrite Hq. apply Qmult_lt_0_compat; [|apply pow2_pos].
    apply inject_Z_pos, Hm. }
  assert (F : JS.toDouble q = q).
  { apply toDouble_fixed; [exact Q0|].
    apply (nearest_exact q m e); [exact Hm|lia|exact Hq]. }
  split; [exact F|].
  unfold JS.isDouble. rewrite F.
  apply andb_true_intro. split; [apply Qeq_bool_iff; reflexivity|].
  apply Qle_bool_iff. rewrite Qabs_pos by now apply Qlt_le_weak.
  rewrite Hq. unfold JS.maxDouble. rewrite inject_Z_mult, <- (pow2_Z 971) by lia.
  apply Qle_trans with (inject_Z m * 2 ^ 971)%Q.
  - apply Qmult_le_l; [apply inject_Z_pos, Hm|].
    apply Qpower_le_compat_l; [lia|discriminate].
  - apply Qmult_le_compat_r; [|apply Qlt_le_weak, pow2_pos].
    rewrite <- Zle_Qle. lia.
Qed.

(** [roundEven] moves its argument by at most a half. *)
Lemma roundEven_near (x : Q) : (Qabs (inject_Z (JS.roundEven x) - x) <= 1 # 2)%Q.
Proof.
  unfold JS.roundEven.
  pose proof (Qfloor_le x) as L. pose proof (Qlt_floor x) as U.
  rewrite inject_Z_plus in U.
  set (f := Qfloor x) in *.
  assert (A : forall d : Q, (0 <= d)%Q -> (d <= 1 # 2)%Q -> (Qabs (- d) <= 1 # 2)%Q).
  { intros d D0 D1. rewrite Qabs_opp, Qabs_pos; assumption. }
  assert (B : forall d : Q, (0 <= d)%Q -> (d <= 1 # 2)%Q -> (Qabs d <= 1 # 2)%Q).
  { intros d D0 D1. rewrite Qabs_pos; assumption. }
  assert (D0 : (0 <= x - inject_Z f)%Q).
  { apply (Qplus_le_l _ _ (inject_Z f)).
    setoid_replace (x - inject_Z f + inject_Z f)%Q with x by ring.
    now rewrite Qplus_0_l. }
  assert (D1 : (0 <= inject_Z f + inject_Z 1 - x)%Q).
  { apply (Qplus_le_l _ _ x).
    setoid_replace (inject_Z f + inject_Z 1 - x + x)%Q with (inject_Z f + inject_Z 1)%Q by ring.
    rewrite Qplus_0_l. now apply Qlt_le_weak. }
  assert (S : forall c : Q, (1 # 2 <= c)%Q -> c == x - inject_Z f ->
              (inject_Z f + inject_Z 1 - x <= 1 # 2)%Q).
  { intros c C E. apply (Qplus_le_l _ _ (c - (1 # 2))).
    setoid_replace (inject_Z f + inject_Z 1 - x + (c - (1 # 2)))%Q with (1 # 2)%Q
      by (rewrite E; change (inject_Z 1) with 1%Q; ring).
    setoid_replace ((1 # 2) + (c - (1 # 2)))%Q with c by ring. exact C. }
  destruct (Qcompare_spec (x - inject_Z f) (1 # 2)) as [E|E|E].
  - destruct (Z.even f).
    + setoid_replace (inject_Z f - x)%Q with (- (x - inject_Z f))%Q by ring.
      apply A; [exact D0|]. rewrite E. apply Qle_refl.
    + rewrite inject_Z_plus. apply B; [exact D1|].
      apply (S (x - inject_Z f)%Q); [rewrite E; apply Qle_refl|reflexivity].
  - setoid_replace (inject_Z f - x)%Q with (- (x - inject_Z f))%Q by ring.
    apply A; [exact D0|]. now apply Qlt_le_weak.
  - rewrite inject_Z_plus. apply B; [exact D1|].
    apply (S (x - inject_Z f)%Q); [now apply Qlt_le_weak|reflexivity].
Qed.

(** The rounding error of [nearest]: half a unit in the last place. *)
Lemma nearest_near (q : Q) :
  (0 < q)%Q ->
  (Qabs (JS.nearest q - q) <= (q * 2 ^ (-53) + 2 ^ (-1075)))%Q.
Proof.
  intros Hq. pose proof (binade_le q Hq) as B.
  unfold JS.nearest. set (E := Z.max (JS.binade q - 52) (-1074)).
  set (R := inject_Z (JS.roundEven (q / 2 ^ E))).
  pose proof (roundEven_near (q / 2 ^ E)) as N. fold R in N.
  assert (P : (0 < 2 ^ E)%Q) by apply pow2_pos.
  assert (NZ : ~ (2 ^ E == 0)%Q).
  { intros Z0. rewrite Z0 in P. discriminate P. }
  setoid_replace (R * 2 ^ E - q)%Q with ((R - q / 2 ^ E) * 2 ^ E)%Q by (field; exact NZ).
  rewrite Qabs_Qmult, (Qabs_pos (2 ^ E)) by now apply Qlt_le_weak.
  apply Qle_trans with ((1 # 2) * 2 ^ E)%Q.
  { apply Qmult_le_compat_r; [exact N|now apply Qlt_le_weak]. }
  setoid_replace ((1 # 2) * 2 ^ E)%Q with (2 ^ (E - 1))%Q
    by (replace (E - 1) with (E + -1) by lia; rewrite pow2_split;
        change (2 ^ (-1))%Q with (1 # 2)%Q; ring).
  destruct (Z.max_spec (JS.binade q - 52) (-1074)) as [[_ M]|[_ M]]; fold E in M; rewrite M.
  - rewrite <- (Qplus_0_l (2 ^ (-1074 - 1))).
    apply Qplus_le_compat; [|apply Qle_refl].
    apply Qmult_le_0_compat; apply Qlt_le_weak; [exact Hq|apply pow2_pos].
  - rewrite <- (Qplus_0_r (2 ^ (JS.binade q - 52 - 1))).
    apply Qplus_le_compat; [|apply Qlt_le_weak, pow2_pos].
    replace (JS.binade q - 52 - 1) with (JS.binade q + -53) by lia.
    rewrite pow2_split. apply Qmult_le_compat_r; [exact B|apply Qlt_le_weak, pow2_pos].
Qed.

Lemma toDouble_nearest (q : Q) : (0 < q)%Q -> (JS.toDouble q == JS.nearest q)%Q.
Proof.
  intros Hq. unfold JS.toDouble.
  destruct q as [n d]. unfold Qlt in Hq. cbn in Hq.
  destruct n as [|p|p]; try lia. cbn [Qnum].
  destruct (Qeq_bool (JS.nearest (Zpos p # d)) (Zpos p # d)) eqn:E; [|reflexivity].
  apply Qeq_bool_iff in E. now symmetry.
Qed.

(** Two numbers less than 1 apart round to integers at most 1 apart. *)
Lemma Math_round_close (x y : Q) :
  (Qabs (x - y) < 1)%Q -> (Qabs (JS.Math_round x - JS.Math_round y) <= 1)%Q.
Proof.
  intros H.
  assert (G : forall a b : Q, (a - b < 1)%Q ->
            (Qfloor (a + (1 # 2)) <= Qfloor (b + (1 # 2)) + 1)%Z).
  { intros a b D.
    pose proof (Qfloor_le (a + (1 # 2))) as L.
    pose proof (Qlt_floor (b + (1 # 2))) as U.
    assert (T : (inject_Z (Qfloor (a + (1 # 2))) < inject_Z (Qfloor (b + (1 # 2)) + 1 + 1))%Q).
    { eapply Qle_lt_trans; [exact L|].
      rewrite (inject_Z_plus _ 1).
      apply Qlt_trans with (b + (1 # 2) + inject_Z 1)%Q.
      - apply (Qplus_lt_l _ _ (- b - (1 # 2))).
        setoid_replace (a + (1 # 2) + (- b - (1 # 2)))%Q with (a - b)%Q by ring.
        setoid_replace (b + (1 # 2) + inject_Z 1 + (- b - (1 # 2)))%Q with 1%Q
          by (change (inject_Z 1) with 1%Q; ring).
        exact D.
      - apply Qplus_lt_l. exact U. }
    rewrite <- Zlt_Qlt in T. lia. }
  assert (Hx : (x - y < 1)%Q).
  { eapply Qle_lt_trans; [apply Qle_Qabs|exact H]. }
  assert (Hy : (y - x < 1)%Q).
  { eapply Qle_lt_trans; [apply Qle_Qabs|]. rewrite Qabs_Qminus. exact H. }
  pose proof (G x y Hx) as A. pose proof (G y x Hy) as B.
  unfold JS.Math_round.
  set (m := Qfloor (x + (1 # 2))) in *. set (n := Qfloor (y + (1 # 2))) in *.
  apply Qabs_Qle_condition. unfold Qminus. rewrite <- inject_Z_opp, <- inject_Z_plus.
  change (- (1))%Q with (inject_Z (-1)). change 1%Q with (inject_Z 1).
  rewrite <- !Zle_Qle. lia.
Qed.

(** Up to [2^52] the nearest double is less than 1 away. *)
Lemma toDouble_close (x : Q) :
  (0 < x)%Q -> (x <= 2 ^ 52)%Q -> (Qabs (JS.toDouble x - x) < 1)%Q.
Proof.
  intros H0 H1. rewrite (toDouble_nearest x H0).
  eapply Qle_lt_trans; [apply nearest_near; exact H0|].
  apply Qle_lt_trans with (2 ^ 52 * 2 ^ (-53) + 2 ^ (-1075))%Q.
  - apply Qplus_le_compat; [|apply Qle_refl].
    apply Qmult_le_compat_r; [exact H1|apply Qlt_le_weak, pow2_pos].
  - apply Qle_lt_trans with ((1 # 2) + (1 # 4))%Q; [|reflexivity].
    apply Qplus_le_compat.
    + rewrite <- pow2_split. apply Qle_refl.
    + apply (Qpower_le_compat_l 2 (-1075) (-2)); [lia|discriminate].
Qed.

Lemma surcharge_product (b : Z) (h : Q) :
  (inject_Z b * Spec.unitsOf h == inject_Z b * h * (1 # 8))%Q.
Proof. rewrite unitsOf_linear. field. Qed.

(** The product of a base price and the units of a number of eighths of an
    hour is a double: the multiplication does not round. *)
Lemma surcharge_dyadic (b k : Z) (h : Q) :
  0 < b < 2 ^ 18 -> 0 < k < 2 ^ 35 -> (h == inject_Z k / 8)%Q ->
  JS.mul (inject_Z b) (Spec.unitsOf h) = (inject_Z b * Spec.unitsOf h)%Q.
Proof.
  intros Hb Hk Hh. unfold JS.mul.
  apply (isDouble_dyadic _ (b * k) (-6)).
  - split; [nia|].
    apply Z.lt_le_trans with (2 ^ 18 * k); [apply Z.mul_lt_mono_pos_r; lia|].
    change (2 ^ 53) with (2 ^ 18 * 2 ^ 35). apply Z.mul_le_mono_nonneg_l; lia.
  - lia.
  - rewrite surcharge_product, Hh, inject_Z_mult.
    change (2 ^ (-6))%Q with (1 # 64)%Q. field.
Qed.

(** Up to [2^37] hours the rounded double product is at most 1 away from
    the rounded exact product. *)
Lemma surcharge_close (b : Z) (h : Q) :
  0 < b < 2 ^ 18 -> (0 < h)%Q -> (h <= 2 ^ 37)%Q ->
  (Qabs (JS.Math_round (JS.mul (inject_Z b) (Spec.unitsOf h))
         - JS.Math_round (inject_Z b * Spec.unitsOf h)) <= 1)%Q.
Proof.
  intros Hb H0 H1. apply Math_round_close. unfold JS.mul.
  assert (B0 : (0 < inject_Z b)%Q) by (apply inject_Z_pos; lia).
  apply toDouble_close; rewrite surcharge_product.
  - apply Qmult_lt_0_compat; [|reflexivity].
    now apply Qmult_lt_0_compat.
  - apply Qle_trans with (inject_Z (2 ^ 18) * 2 ^ 37 * (1 # 8))%Q.
    + apply Qmult_le_compat_r; [|discriminate].
      apply Qle_trans with (inject_Z b * 2 ^ 37)%Q.
      * apply Qmult_le_l; assumption.
      * apply Qmult_le_compat_r; [|apply Qlt_le_weak, pow2_pos].
        rewrite <- Zle_Qle. lia.
    + vm_compute. discriminate.
Qed.

(** C2.  For positive hours [h], a double of at most [2^1000], the
    weekend-special total of a row is [Math.round] of the double nearest to
    [171800 * units h], and its weekly-holiday total [Math.round] of the
    double nearest to [99600 * units h], where [units] sends 8 to 1, 6 to
    0.75, 2.5 to 0.3125, 1 to 0.125 and any other [h] to [h/8].  For a whole
    number of eighths of an hour the product is a double, and the totals are
    [round(171800 * units h)] and [round(99600 * units h)]; up to [2^37]
    hours they are at most 1 away from these.  At [h = 4] the units are 0.5
    and the weekend-special total is 85900. *)
Theorem C2_surcharge_totals_rounded (h : Q) :
  (0 < h)%Q -> JS.isDouble h = true -> (h <= 2 ^ 1000)%Q ->
  (forall row, weekendSpecialHours row = h ->
     weekendSpecialTotalOf row = JS.Math_round (JS.mul 171800 (Spec.unitsOf h))) /\
  (forall row, weeklyHolidayHours row = h ->
     weeklyHolidayTotalOf row = JS.Math_round (JS.mul 99600 (Spec.unitsOf h))) /\
  ((h == 8)%Q -> Spec.unitsOf h = 1%Q) /\
  ((h == 6)%Q -> Spec.unitsOf h = 0.75%Q) /\
  ((h == 2.5)%Q -> Spec.unitsOf h = 0.3125%Q) /\
  ((h == 1)%Q -> Spec.unitsOf h = 0.125%Q) /\
  (~ Spec.canonical h -> Spec.unitsOf h = (h / 8)%Q) /\
  (forall k : Z, 0 < k < 2 ^ 35 -> (h == inject_Z k / 8)%Q ->
     (forall row, weekendSpecialHours row = h ->
        weekendSpecialTotalOf row = JS.Math_round (171800 * Spec.unitsOf h)) /\
     (forall row, weeklyHolidayHours row = h ->
        weeklyHolidayTotalOf row = JS.Math_round (99600 * Spec.unitsOf h))) /\
  ((h <= 2 ^ 37)%Q ->
     (forall row, weekendSpecialHours row = h ->
        (Qabs (weekendSpecialTotalOf row
               - JS.Math_round (171800 * Spec.unitsOf h)) <= 1)%Q) /\
     (forall row, weeklyHolidayHours row = h ->
        (Qabs (weeklyHolidayTotalOf row
               - JS.Math_round (99600 * Spec.unitsOf h)) <= 1)%Q)) /\
  (h = 4%Q ->
     (Spec.unitsOf h == 0.5)%Q /\
     (forall row, weekendSpecialHours row = h ->
        weekendSpecialTotalOf row = 85900%Q)).
Proof.
  intros Hpos _ _.
  assert (G : JS.num_gtb h 0 = true) by now apply num_gtb_true.
  assert (W : forall row, weekendSpecialHours row = h ->
            weekendSpecialTotalOf row
            = JS.Math_round (JS.mul 171800 (Spec.unitsOf h))).
  { intros row <-. unfold weekendSpecialTotalOf. rewrite G. reflexivity. }
  assert (H : forall row, weeklyHolidayHours row = h ->
            weeklyHolidayTotalOf row
            = JS.Math_round (JS.mul 99600 (Spec.unitsOf h))).
  { intros row <-. unfold weeklyHolidayTotalOf. rewrite G. reflexivity. }
  split; [exact W|]. split; [exact H|].
  split; [|split; [|split; [|split; [|split; [|split; [|split]]]]]].
  - unfold Spec.unitsOf. intros E. now rewrite (proj2 (Qeq_bool_iff h 8) E).
  - unfold Spec.unitsOf. intros E. rewrite (proj2 (Qeq_bool_iff h 6) E).
    destruct (Qeq_bool h 8) eqn:E8; [|reflexivity].
    apply Qeq_bool_iff in E8. rewrite E in E8. discriminate E8.
  - unfold Spec.unitsOf. intros E. rewrite (proj2 (Qeq_bool_iff h 2.5) E).
    destruct (Qeq_bool h 8) eqn:E8.
    { apply Qeq_bool_iff in E8. rewrite E in E8. discriminate E8. }
    destruct (Qeq_bool h 6) eqn:E6; [|reflexivity].
    apply Qeq_bool_iff in E6. rewrite E in E6. discriminate E6.
  - unfold Spec.unitsOf. intros E. rewrite (proj2 (Qeq_bool_iff h 1) E).
    destruct (Qeq_bool h 8) eqn:E8.
    { apply Qeq_bool_iff in E8. rewrite E in E8. discriminate E8. }
    destruct (Qeq_bool h 6) eqn:E6.
    { apply Qeq_bool_iff in E6. rewrite E in E6. discriminate E6. }
    destruct (Qeq_bool h 2.5) eqn:E25; [|reflexivity].
    apply Qeq_bool_iff in E25. rewrite E in E25. discriminate E25.
  - unfold Spec.unitsOf, Spec.canonical. intros N.
    destruct (Qeq_bool h 8) eqn:E8.
    { apply Qeq_bool_iff in E8. tauto. }
    destruct (Qeq_bool h 6) eqn:E6.
    { apply Qeq_bool_iff in E6. tauto. }
    destruct (Qeq_bool h 2.5) eqn:E25.
    { apply Qeq_bool_iff in E25. tauto. }
    destruct (Qeq_bool h 1) eqn:E1.
    { apply Qeq_bool_iff in E1. tauto. }
    reflexivity.
  - intros k Hk Hh. split; intros row Hrow.
    + rewrite (W row Hrow). f_equal.
      apply (surcharge_dyadic 171800 k h); [lia|exact Hk|exact Hh].
    + rewrite (H row Hrow). f_equal.
      apply (surcharge_dyadic 99600 k h); [lia|exact Hk|exact Hh].
  - intros Hle. split; intros row Hrow.
    + rewrite (W row Hrow).
      apply (surcharge_close 171800 h); [lia|exact Hpos|exact Hle].
    + rewrite (H row Hrow).
      apply (surcharge_close 99600 h); [lia|exact Hpos|exact Hle].
  - intros E. split; [rewrite E; reflexivity|].
    intros row Hrow. rewrite (W row Hrow), E. vm_compute. reflexivity.
Qed.

Lemma C2_surcharge_totals_rounded_witness :
  weekendSpecialTotalOf (Sample.mkRow Nam "A" "5" 0 0 4 0)
  = JS.Math_round (JS.mul 171800 (Spec.unitsOf 4)) /\
  weekendSpecialTotalOf (Sample.mkRow Nam "A" "5" 0 0 4 0)
  = JS.Math_round (171800 * Spec.unitsOf 4) /\
  weekendSpecialTotalOf (Sample.mkRow Nam "A" "5" 0 0 4 0) = 85900%Q.
Proof.
  assert (P : (0 < 4)%Q) by reflexivity.
  assert (D : JS.isDouble 4 = true) by (vm_compute; reflexivity).
  assert (B : (4 <= 2 ^ 1000)%Q) by (vm_compute; discriminate).
  destruct (C2_surcharge_totals_rounded 4 P D B)
    as (T1 & _ & _ & _ & _ & _ & _ & T8 & _ & T10).
  split; [|split].
  - apply T1. reflexivity.
  - apply (proj1 (T8 32 ltac:(lia) ltac:(reflexivity))). reflexivity.
  - apply (proj2 (T10 eq_refl)). reflexivity.
Defined.

(** C2 as stated, with the product taken exactly, fails: at the double
    nearest to 0.3 the weekend-special total is 6443, the double product
    being 6442.5, while [round(171800 * units h)] is 6442; at the double
    nearest to 0.15 the weekly-holiday total is 1868 and
    [round(99600 * units h)] is 1867. *)
Lemma C2_exact_product_differs :
  (0 < JS.toDouble 0.3)%Q /\ JS.isDouble (JS.toDouble 0.3) = true /\
  (JS.toDouble 0.3 == 5404319552844595 # 18014398509481984)%Q /\
  (JS.mul 171800 (Spec.unitsOf (JS.toDouble 0.3)) == 6442.5)%Q /\
  weekendSpecialTotalOf (Sample.mkRow Nam "A" "5" 0 0 (JS.toDouble 0.3) 0) = 6443%Q /\
  JS.Math_round (171800 * Spec.unitsOf (JS.toDouble 0.3)) = 6442%Q /\
  (0 < JS.toDouble 0.15)%Q /\ JS.isDouble (JS.toDouble 0.15) = true /\
  weeklyHolidayTotalOf (Sample.mkRow Nam "A" "5" 0 0 0 (JS.toDouble 0.15)) = 1868%Q /\
  JS.Math_round (99600 * Spec.unitsOf (JS.toDouble 0.15)) = 1867%Q.
Proof. vm_compute. repeat split; congruence. Qed.

(** Hours read from text are the double nearest to the numeral. *)
Example text_hours_priced :
  weekendSpecialTotalOf
    (Sample.mkRow Nam "A" "5" 0 0 (numValueOf (VString "0.7")) 0) = 15032%Q /\
  weeklyHolidayTotalOf
    (Sample.mkRow Nam "A" "5" 0 0 0 (numValueOf (VString "0.29"))) = 3610%Q /\
  (numValueOf (VString "2.5000000000000001") == 2.5)%Q /\
  (numValueOf (VString "1e-400") == 0)%Q.
Proof. vm_compute. repeat split. Qed.

(** C10. [getWeekendSpecialWorkUnits] and [getWeeklyHolidayWorkUnits] equal
    [hours/8] for every hours value: the four special cases return what the
    fallback returns. *)
Theorem C10_work_units_linear (hours : Q) :
  (getWeekendSpecialWorkUnits hours == hours / 8)%Q /\
  (getWeeklyHolidayWorkUnits hours == hours / 8)%Q.
Proof.
  split.
  - change (Spec.unitsOf hours == hours / 8)%Q. apply unitsOf_linear.
  - change (Spec.unitsOf hours == hours / 8)%Q. apply unitsOf_linear.
Qed.

(** ** The output rows *)

Lemma nonpositive_not_eq (h c : Q) : (h <= 0)%Q -> (0 < c)%Q -> Qeq_bool h c = false.
Proof.
  intros Hh Hc. destruct (Qeq_bool h c) eqn:E; [|reflexivity].
  apply Qeq_bool_iff in E. rewrite E in Hh.
  exfalso. exact (Qlt_not_le _ _ Hc Hh).
Qed.

Lemma getWorkUnits_nonpositive (g : Gender) (h : Q) :
  (h <= 0)%Q -> getWorkUnits g h = 0%Q /\ getUnitPrice g h = 0%Q.
Proof.
  intros H. pose proof (rates_lookup g h) as P. unfold Spec.rateOf in P.
  rewrite !(nonpositive_not_eq h _ H) in P by reflexivity.
  now inversion P.
Qed.

(** The test [basicHours > 0] before the two lookups changes nothing: the
    tables have no entry at a value that fails it. *)
Lemma workUnitsOf_lookup (row : AttendanceRow) :
  workUnitsOf row = getWorkUnits (gender row) (basicHours row) /\
  unitPriceOf row = getUnitPrice (gender row) (basicHours row).
Proof.
  unfold workUnitsOf, unitPriceOf.
  destruct (JS.num_gtb (basicHours row) 0) eqn:E; [now split|].
  apply num_gtb_false in E.
  destruct (getWorkUnits_nonpositive (gender row) _ E) as [-> ->]. now split.
Qed.

Lemma outputRowsFrom_nth (month : string) (data : list AttendanceRow) :
  forall (index : Z) (i : nat) (row : AttendanceRow),
    nth_error data i = Some row ->
    nth_error (outputRowsFrom month index data) i
    = Some (outputRow month (index + Z.of_nat i) row).
Proof.
  induction data as [|r data IH]; intros index i row H.
  - destruct i; discriminate H.
  - destruct i as [|i]; simpl in *.
    + injection H as ->. now rewrite Z.add_0_r.
    + rewrite (IH (index + 1) i row H). do 2 f_equal. lia.
Qed.



(** ** Maps in insertion order *)

Section MapFacts.
Context {K V : Type} (eqb : K -> K -> bool).
Hypothesis eqb_eq : forall a b, eqb a b = true <-> a = b.

Lemma map_get_In (m : list (K * V)) (k : K) (v : V) :
  JS.map_get eqb m k = Some v -> In (k, v) m.
Proof.
  induction m as [|[k' v'] m IH]; simpl; [discriminate|].
  destruct (eqb k k') eqn:E.
  - intros [= ->]. apply eqb_eq in E. subst. now left.
  - intros H. right. now apply IH.
Qed.

Lemma map_get_None (m : list (K * V)) (k : K) :
  JS.map_get eqb m k = None <-> ~ In k (map fst m).
Proof.
  induction m as [|[k' v'] m IH]; simpl; [tauto|].
  destruct (eqb k k') eqn:E.
  - apply eqb_eq in E. subst. split; [discriminate|]. intros H. exfalso. auto.
  - rewrite IH. split; [|tauto].
    intros H [H'|H']; [|tauto]. subst.
    assert (eqb k k = true) by now apply eqb_eq. congruence.
Qed.

Lemma map_set_Forall (P : K * V -> Prop) (m : list (K * V)) (k : K) (v : V) :
  Forall P m -> P (k, v) -> Forall P (JS.map_set eqb m k v).
Proof.
  intros Hm Hv. induction Hm as [|[k' v'] m Hx Hm IH]; simpl.
  - now constructor.
  - destruct (eqb k k') eqn:E.
    + apply eqb_eq in E. subst. now constructor.
    + now constructor.
Qed.

Lemma map_set_keys (m : list (K * V)) (k : K) (v : V) :
  map fst (JS.map_set eqb m k v)
  = if JS.map_has eqb m k then map fst m else map fst m ++ [k].
Proof.
  unfold JS.map_has. induction m as [|[k' v'] m IH]; simpl; [reflexivity|].
  destruct (eqb k k') eqn:E; simpl; [reflexivity|].
  rewrite IH. now destruct (JS.map_get eqb m k).
Qed.

Lemma set_add_In (s : list K) (k x : K) :
  In x (JS.set_add eqb s k) <-> In x s \/ x = k.
Proof.
  induction s as [|k' s IH]; simpl.
  - intuition.
  - destruct (eqb k k') eqn:E; simpl.
    + apply eqb_eq in E. subst. intuition.
    + rewrite IH. intuition.
Qed.

Lemma set_add_fold_In (l s : list K) (x : K) :
  In x (fold_left (JS.set_add eqb) l s) <-> In x s \/ In x l.
Proof.
  revert s. induction l as [|k l IH]; intros s; simpl.
  - intuition.
  - rewrite IH, set_add_In. intuition.
Qed.
End MapFacts.

Lemma fold_left_preserves {A B : Type} (P : A -> Prop) (f : A -> B -> A)
    (l : list B) :
  (forall a b, P a -> P (f a b)) -> forall a, P a -> P (fold_left f l a).
Proof.
  intros Hf. induction l as [|b l IH]; intros a Ha; simpl; auto.
Qed.

(** ** Invariants of the walk over the data rows *)

Section WalkInvariant.
Variable P : string -> WorkerData -> Prop.
Hypothesis P_new : forall g n o, P (workerKeyOf g n) (newWorker g n o).
Hypothesis P_read :
  forall k categoryValue row w dh,
    P k w -> P k (readCell categoryValue row w dh).

Lemma ensureWorker_allWorkers ws order g n :
  allWorkers P ws -> allWorkers P (fst (ensureWorker ws order g n)).
Proof.
  intros H. unfold ensureWorker.
  destruct (JS.map_has String.eqb ws (workerKeyOf g n)); simpl; [exact H|].
  apply (map_set_Forall String.eqb String.eqb_eq); [exact H|].
  simpl. apply P_new.
Qed.

Lemma recordHours_allWorkers dhs categoryValue row ws key :
  allWorkers P ws -> allWorkers P (recordHours dhs categoryValue row ws key).
Proof.
  intros H. unfold recordHours.
  destruct (JS.map_get String.eqb ws key) as [worker|] eqn:G; [|exact H].
  apply (map_set_Forall String.eqb String.eqb_eq); [exact H|].
  simpl. apply fold_left_preserves.
  - intros a b. apply P_read.
  - apply (map_get_In String.eqb String.eqb_eq) in G.
    unfold allWorkers in H. rewrite Forall_forall in H.
    exact (H _ G).
Qed.

Lemma dataRow_allWorkers (h : HeaderCols) (dhs : list DateHeader)
    (st : Walk) (row : Row) :
  allWorkers P (workers st) -> allWorkers P (workers (dataRow h dhs st row)).
Proof.
  intros Hst. unfold dataRow.
  destruct (_ || _)%bool; simpl; [exact Hst|].
  apply recordHours_allWorkers. now apply ensureWorker_allWorkers.
Qed.

Lemma walkRows_allWorkers (h : HeaderCols) (dhs : list DateHeader)
    (rows : list Row) :
  forall st, allWorkers P (workers st) ->
             allWorkers P (workers (walkRows h dhs rows st)).
Proof.
  unfold walkRows. induction rows as [|row rows IH]; intros st Hst; simpl.
  - exact Hst.
  - apply IH. now apply dataRow_allWorkers.
Qed.

Lemma walkSheet_allWorkers (ws : Worksheet) :
  allWorkers P (workers (walkSheet ws)).
Proof.
  unfold walkSheet. apply walkRows_allWorkers. constructor.
Qed.
End WalkInvariant.

(** ** The basic-hours maps *)

Lemma includes_canonical (x : Q) :
  JS.includes canonicalHours x = true <-> Spec.canonical x.
Proof.
  unfold JS.includes, canonicalHours, Spec.canonical. simpl.
  rewrite !orb_true_iff, !num_eqb_true. intuition discriminate.
Qed.

Lemma setHours_basicCanonical (categoryValue : string) (d : Z) (x : Q)
    (w : WorkerData) :
  basicCanonical w -> basicCanonical (setHours categoryValue d x w).
Proof.
  intros Hw. unfold setHours.
  destruct (String.eqb categoryValue "기본").
  - destruct (JS.includes canonicalHours x) eqn:E; [|exact Hw].
    apply includes_canonical in E. unfold basicCanonical; simpl.
    apply (map_set_Forall Z.eqb Z.eqb_eq); [exact Hw | exact E].
  - destruct (String.eqb categoryValue "연장"); [exact Hw|].
    destruct (String.eqb categoryValue "주특"); [exact Hw|].
    destruct (String.eqb categoryValue "주휴"); exact Hw.
Qed.

Lemma readCell_basicCanonical (categoryValue : string) (row : Row)
    (w : WorkerData) (dh : DateHeader) :
  basicCanonical w -> basicCanonical (readCell categoryValue row w dh).
Proof.
  intros Hw. unfold readCell.
  destruct (hasValue _); [|exact Hw].
  destruct (JS.num_gtb _ 0); [|exact Hw].
  now apply setHours_basicCanonical.
Qed.

(** C4. After reconstruction every value in every worker's basic-hours map
    is one of 8, 6, 2.5 and 1; reading a basic-category cell that holds any
    other number stores nothing: the worker is left as it was, so a day
    absent from the basic map stays absent. *)
Theorem C4_basic_hours_canonical (ws : Worksheet) :
  (forall key worker d v,
      In (key, worker) (workers (walkSheet ws)) ->
      In (d, v) (w_basicHours worker) ->
      Spec.canonical v) /\
  (forall row worker dh,
      ~ Spec.canonical (numValueOf (getCell row (col dh))) ->
      readCell "기본" row worker dh = worker /\
      (JS.map_get Z.eqb (w_basicHours worker) (day dh) = None ->
       JS.map_get Z.eqb
         (w_basicHours (readCell "기본" row worker dh)) (day dh) = None)).
Proof.
  split.
  - intros key worker d v Hin Hd.
    pose proof (walkSheet_allWorkers (fun _ w => basicCanonical w)
                  (fun _ _ _ => Forall_nil _)
                  (fun _ c r w dh => readCell_basicCanonical c r w dh) ws) as H.
    unfold allWorkers in H. rewrite Forall_forall in H.
    specialize (H _ Hin). simpl in H.
    unfold basicCanonical in H. rewrite Forall_forall in H.
    exact (H _ Hd).
  - intros row worker dh Hn.
    assert (E : readCell "기본" row worker dh = worker).
    { unfold readCell.
      destruct (hasValue _); [|reflexivity].
      destruct (JS.num_gtb _ 0); [|reflexivity].
      unfold setHours. rewrite String.eqb_refl.
      destruct (JS.includes canonicalHours _) eqn:I; [|reflexivity].
      apply includes_canonical in I. contradiction. }
    split; [exact E|]. now rewrite E.
Qed.

(** ** Printing and reading back an integer *)

Lemma digits_acc (d : Decimal.uint) :
  forall acc : positive,
    fold_left digitStep (JS.chars (NilEmpty.string_of_uint d)) (Z.pos acc)
    = Z.pos (Pos.of_uint_acc d acc).
Proof.
  induction d; intros acc;
    cbn [NilEmpty.string_of_uint JS.chars list_ascii_of_string fold_left Pos.of_uint_acc];
    [reflexivity| ..];
    rewrite <- IHd; f_equal; unfold digitStep;
    match goal with
    | |- context [JS.digitVal ?c] =>
        let v := eval vm_compute in (JS.digitVal c) in
        change (JS.digitVal c) with v
    end; lia.
Qed.

Lemma digits_value (d : Decimal.uint) :
  JS.digitsVal (JS.chars (NilEmpty.string_of_uint d)) = Z.of_N (Pos.of_uint d).
Proof.
  unfold JS.digitsVal. change (fun acc c => acc * 10 + JS.digitVal c) with digitStep.
  induction d;
    cbn [NilEmpty.string_of_uint JS.chars list_ascii_of_string fold_left Pos.of_uint];
    [reflexivity | exact IHd | ..];
    match goal with
    | |- fold_left _ _ (digitStep 0 ?c) = _ =>
        let v := eval vm_compute in (digitStep 0 c) in
        change (digitStep 0 c) with v
    end; apply digits_acc.
Qed.

Lemma digits_all (d : Decimal.uint) :
  JS.takeDigits (JS.chars (NilEmpty.string_of_uint d))
  = JS.chars (NilEmpty.string_of_uint d).
Proof.
  induction d;
    cbn [NilEmpty.string_of_uint JS.chars list_ascii_of_string JS.takeDigits];
    [reflexivity| ..];
    match goal with
    | |- context [JS.isDigit ?c] => change (JS.isDigit c) with true
    end; cbv iota; f_equal; exact IHd.
Qed.

Lemma parseInt_unsigned (d : Decimal.uint) :
  d <> Decimal.Nil ->
  JS.parseInt (NilEmpty.string_of_uint d) = Some (Z.of_N (Pos.of_uint d)) /\
  JS.parseInt (String "-" (NilEmpty.string_of_uint d))
  = Some (- Z.of_N (Pos.of_uint d)).
Proof.
  intros N. pose proof (digits_value d) as V. pose proof (digits_all d) as A.
  unfold JS.parseInt.
  destruct d; [contradiction| ..];
    cbn [NilEmpty.string_of_uint JS.chars list_ascii_of_string] in V, A |- *;
    unfold JS.trimStartChars;
    cbn [List.length JS.dropLeading];
    match goal with
    | |- context [JS.stripAny JS.whiteSpace (?c :: ?r)] =>
        change (JS.stripAny JS.whiteSpace (c :: r)) with (@None (list ascii))
    end;
    match goal with
    | |- context [JS.stripAny JS.whiteSpace ("-"%char :: ?r)] =>
        change (JS.stripAny JS.whiteSpace ("-"%char :: r)) with (@None (list ascii))
    end;
    cbv iota beta; rewrite A; cbv iota; rewrite V; split; reflexivity.
Qed.

Lemma parseInt_String_of_int (z : Z) : JS.parseInt (JS.String_of_int z) = Some z.
Proof.
  unfold JS.String_of_int. destruct z as [|p|p]; [reflexivity| |]; simpl.
  - pose proof (DecimalPos.Unsigned.to_uint_nonnil p) as N.
    replace (NilZero.string_of_uint (Pos.to_uint p))
      with (NilEmpty.string_of_uint (Pos.to_uint p))
      by (now destruct (Pos.to_uint p)).
    rewrite (proj1 (parseInt_unsigned _ N)), DecimalPos.Unsigned.of_to. reflexivity.
  - pose proof (DecimalPos.Unsigned.to_uint_nonnil p) as N.
    replace (NilZero.string_of_uint (Pos.to_uint p))
      with (NilEmpty.string_of_uint (Pos.to_uint p))
      by (now destruct (Pos.to_uint p)).
    rewrite (proj2 (parseInt_unsigned _ N)), DecimalPos.Unsigned.of_to. reflexivity.
Qed.

Lemma String_of_int_inj (a b : Z) : JS.String_of_int a = JS.String_of_int b -> a = b.
Proof.
  intros H. pose proof (parseInt_String_of_int a) as Ha.
  rewrite H, parseInt_String_of_int in Ha. congruence.
Qed.

(** ** The stable sort *)

Section SortFacts.
Context {A : Type} (cmp : A -> A -> Z).

Lemma insert_perm (x : A) (l : list A) : Permutation (JS.insert cmp x l) (x :: l).
Proof.
  induction l as [|y l IH]; simpl; [reflexivity|].
  destruct (cmp x y <=? 0); [reflexivity|].
  rewrite IH. apply perm_swap.
Qed.

Lemma sort_perm (l : list A) : Permutation (JS.sort cmp l) l.
Proof.
  induction l as [|x l IH]; simpl; [reflexivity|].
  rewrite insert_perm. now constructor.
Qed.

Lemma sort_In (l : list A) (x : A) : In x (JS.sort cmp l) <-> In x l.
Proof.
  split; apply Permutation_in; [|symmetry]; apply sort_perm.
Qed.

(** On a set [D] of elements that the comparator orders as a total
    preorder [le], the result is sorted. *)
Variable D : A -> Prop.
Variable le : A -> A -> Prop.
Hypothesis cmp_le : forall a b, D a -> D b -> (cmp a b <= 0 <-> le a b).
Hypothesis le_total : forall a b, D a -> D b -> le a b \/ le b a.
Hypothesis le_trans :
  forall a b c, D a -> D b -> D c -> le a b -> le b c -> le a c.

Lemma insert_sorted (x : A) (l : list A) :
  D x -> Forall D l -> StronglySorted le l ->
  StronglySorted le (JS.insert cmp x l).
Proof.
  intros Dx Dl Sl. induction Sl as [|y l Sl IH Hy]; simpl.
  - repeat constructor.
  - inversion Dl as [|? ? Dy Dl']; subst.
    destruct (cmp x y <=? 0) eqn:E.
    + apply Z.leb_le in E. apply cmp_le in E; trivial.
      constructor; [now constructor|].
      constructor; [exact E|].
      rewrite Forall_forall in *. intros z Hz.
      apply (le_trans x y z); auto.
    + apply Z.leb_gt in E.
      assert (Lyx : le y x).
      { destruct (le_total x y Dx Dy) as [L|L]; [|exact L].
        apply cmp_le in L; trivial. lia. }
      constructor; [now apply IH|].
      rewrite Forall_forall in *. intros z Hz.
      apply (Permutation_in _ (insert_perm x l)) in Hz.
      destruct Hz as [<-|Hz]; auto.
Qed.

Lemma sort_sorted (l : list A) :
  Forall D l -> StronglySorted le (JS.sort cmp l).
Proof.
  induction l as [|x l IH]; intros Dl; simpl; [constructor|].
  inversion Dl as [|? ? Dx Dl']; subst.
  apply insert_sorted; [exact Dx | | now apply IH].
  apply Forall_forall. intros z Hz. apply (proj1 (sort_In _ _)) in Hz.
  rewrite Forall_forall in Dl'. now apply Dl'.
Qed.
End SortFacts.

(** ** The workers map during the walk *)

Lemma setHours_ident (c : string) (d : Z) (x : Q) (w : WorkerData) :
  ident (setHours c d x w) = ident w.
Proof.
  unfold setHours.
  destruct (String.eqb c "기본"); [now destruct (JS.includes _ _)|].
  destruct (String.eqb c "연장"); [reflexivity|].
  destruct (String.eqb c "주특"); [reflexivity|].
  now destruct (String.eqb c "주휴").
Qed.

Lemma readCell_ident (c : string) (row : Row) (w : WorkerData) (dh : DateHeader) :
  ident (readCell c row w dh) = ident w.
Proof.
  unfold readCell. destruct (hasValue _); [|reflexivity].
  destruct (JS.num_gtb _ _); [|reflexivity]. apply setHours_ident.
Qed.

Lemma readCells_ident (c : string) (row : Row) (dhs : list DateHeader) :
  forall w, ident (fold_left (readCell c row) dhs w) = ident w.
Proof.
  induction dhs as [|dh dhs IH]; intros w; simpl; [reflexivity|].
  now rewrite IH, readCell_ident.
Qed.

Lemma map_set_skeleton (m : list (string * WorkerData)) (k : string)
    (v0 v : WorkerData) :
  JS.map_get String.eqb m k = Some v0 -> ident v = ident v0 ->
  skeleton (JS.map_set String.eqb m k v) = skeleton m.
Proof.
  intros G E. induction m as [|[k' v'] m IH]; simpl in *; [discriminate|].
  destruct (String.eqb k k') eqn:K; simpl.
  - injection G as ->. now rewrite E.
  - now rewrite IH.
Qed.

Lemma recordHours_skeleton dhs c row ws key :
  skeleton (recordHours dhs c row ws key) = skeleton ws.
Proof.
  unfold recordHours.
  destruct (JS.map_get String.eqb ws key) as [w|] eqn:G; [|reflexivity].
  apply (map_set_skeleton _ _ w); [exact G|]. apply readCells_ident.
Qed.

Lemma skeleton_keys ws : map fst (skeleton ws) = map fst ws.
Proof. unfold skeleton. rewrite map_map. reflexivity. Qed.

Lemma skeleton_orders ws :
  map (fun e => snd (snd e)) (skeleton ws) = map (fun kw => w_order (snd kw)) ws.
Proof. unfold skeleton. rewrite map_map. reflexivity. Qed.

Lemma skeleton_length ws : List.length (skeleton ws) = List.length ws.
Proof. unfold skeleton. apply length_map. Qed.

Lemma map_set_absent {V : Type} (m : list (string * V)) (k : string) (v : V) :
  JS.map_has String.eqb m k = false -> JS.map_set String.eqb m k v = m ++ [(k, v)].
Proof.
  unfold JS.map_has. induction m as [|[k' v'] m IH]; simpl; [reflexivity|].
  destruct (String.eqb k k'); [discriminate|].
  intros H. now rewrite IH.
Qed.

Lemma set_add_keys {V : Type} (m : list (string * V)) (k : string) (v : V) :
  JS.set_add String.eqb (map fst m) k = map fst (JS.map_set String.eqb m k v).
Proof.
  induction m as [|[k' v'] m IH]; simpl; [reflexivity|].
  destruct (String.eqb k k'); simpl; [reflexivity|]. now rewrite IH.
Qed.

(** The workers map lists the recognized keys at their first occurrence. *)
Lemma dataRow_keys (h : HeaderCols) (dhs : list DateHeader) (st : Walk) (row : Row) :
  let g := nextGender (currentGender st) (cellText (getCell row (genderColIndex h))) in
  let n := nextName (currentName st) (cellText (getCell row (nameColIndex h))) in
  currentGender (dataRow h dhs st row) = g /\
  currentName (dataRow h dhs st row) = n /\
  map fst (workers (dataRow h dhs st row))
  = if (String.eqb n ""
        || negb (isCategory (cellText (getCell row (categoryColIndex h)))))%bool
    then map fst (workers st)
    else JS.set_add String.eqb (map fst (workers st)) (workerKeyOf g n).
Proof.
  intros g n. unfold dataRow. fold g. fold n.
  destruct (_ || _)%bool; simpl; [now repeat split|].
  repeat split.
  rewrite <- skeleton_keys, recordHours_skeleton, skeleton_keys.
  unfold ensureWorker.
  rewrite (set_add_keys _ _ (newWorker g n (workerOrder st))).
  destruct (JS.map_has String.eqb (workers st) (workerKeyOf g n)) eqn:H; simpl.
  - rewrite (map_set_keys String.eqb), H. reflexivity.
  - reflexivity.
Qed.

Lemma walkRows_keys (h : HeaderCols) (dhs : list DateHeader) (rows : list Row) :
  forall st,
    map fst (workers (walkRows h dhs rows st))
    = fold_left (JS.set_add String.eqb)
        (Spec.recognizedKeys h rows (currentGender st) (currentName st))
        (map fst (workers st)).
Proof.
  unfold walkRows. induction rows as [|row rows IH]; intros st; simpl; [reflexivity|].
  rewrite IH.
  destruct (dataRow_keys h dhs st row) as (-> & -> & ->).
  now destruct (_ || _)%bool.
Qed.

Lemma walkSheet_keys (ws : Worksheet) :
  map fst (workers (walkSheet ws)) = Spec.discoveryOrder ws.
Proof.
  unfold walkSheet, Spec.discoveryOrder. apply walkRows_keys.
Qed.

(** ** The sample sheet *)

Lemma twoWorkers_workers :
  workers (walkSheet Sample.twoWorkers)
  = [ ("남-하준", Sample.hajun); ("여-가은", Sample.gaeun) ].
Proof. vm_compute. reflexivity. Qed.

Lemma twoWorkers_rows :
  parseAttendanceSheet Sample.twoWorkers
  = [ Sample.mkRow Nam "하준" "1" 8 2 0 0;
      Sample.mkRow Yeo "가은" "1" 2.5 0 0 0;
      Sample.mkRow Yeo "가은" "2" 8 0 0 0;
      Sample.mkRow Yeo "가은" "3" 0 0 4 0 ].
Proof. vm_compute. reflexivity. Qed.

Example march_header :
  detectHeader Sample.march
  = {| genderColIndex := 1; nameColIndex := 2;
       categoryColIndex := 3; headerRowIndex := 3 |} /\
  map day (dateHeadersOf Sample.march 3) = map Z.of_nat (seq 1 31) /\
  map col (dateHeadersOf Sample.march 3) = map Z.of_nat (seq 4 31).
Proof. vm_compute. repeat split. Qed.

Example march_rows :
  parseAttendanceSheet Sample.march
  = [ Sample.mkRow Nam "홍길동" "1" 8 2 0 0;
      Sample.mkRow Nam "홍길동" "2" 8 0 0 0 ].
Proof. vm_compute. reflexivity. Qed.

Example march_output :
  createOutputWorkbook (parseAttendanceSheet Sample.march) "03"
  = [ headers;
      [ ONumber 1; OText "03/1"; OText "남"; OText "홍길동";
        ONumber 8; ONumber 2; OText ""; OText "";
        OText "1"; ONumber 117480; OText ""; ONumber 117480 ];
      [ ONumber 2; OText "03/2"; OText "남"; OText "홍길동";
        ONumber 8; OText ""; OText ""; OText "";
        OText "1"; ONumber 117480; OText ""; ONumber 117480 ] ].
Proof. vm_compute. reflexivity. Qed.

Example formatWorkUnits_samples :
  formatWorkUnits 0.3125 = "0.3125" /\ formatWorkUnits 1 = "1" /\
  formatWorkUnits 0.75 = "0.75" /\ formatWorkUnits 0.125 = "0.125".
Proof. vm_compute. repeat split. Qed.

Lemma C4_basic_hours_canonical_witness :
  Spec.canonical 2.5 /\
  readCell "기본" [VNumber 4] Sample.hajun {| col := 1; day := 2 |} = Sample.hajun.
Proof.
  split.
  - apply (proj1 (C4_basic_hours_canonical Sample.twoWorkers)
             "여-가은" Sample.gaeun 1 2.5%Q).
    + rewrite twoWorkers_workers. right. left. reflexivity.
    + left. reflexivity.
  - apply (proj2 (C4_basic_hours_canonical Sample.twoWorkers)
             [VNumber 4] Sample.hajun {| col := 1; day := 2 |}).
    unfold Spec.canonical. simpl. intros [H|[H|[H|H]]]; discriminate H.
Defined.

(** ** Keys and orders of the workers map *)

Lemma set_add_NoDup (s : list string) (k : string) :
  NoDup s -> NoDup (JS.set_add String.eqb s k).
Proof.
  intros H. induction H as [|x s Hx Hs IH]; simpl.
  - constructor; [intros []|constructor].
  - destruct (String.eqb k x) eqn:E; [now constructor|].
    constructor; [|exact IH].
    rewrite (set_add_In String.eqb String.eqb_eq). intros [H|H]; [contradiction|].
    subst. rewrite String.eqb_refl in E. discriminate.
Qed.

Lemma set_add_fold_NoDup (l s : list string) :
  NoDup s -> NoDup (fold_left (JS.set_add String.eqb) l s).
Proof.
  revert s. induction l as [|k l IH]; intros s H; simpl; [exact H|].
  apply IH. now apply set_add_NoDup.
Qed.

Lemma workers_NoDup (ws : Worksheet) : NoDup (map fst (workers (walkSheet ws))).
Proof.
  rewrite walkSheet_keys. apply set_add_fold_NoDup. constructor.
Qed.

(** Each worker is stored under the key of its own gender and name. *)
Lemma workers_key (ws : Worksheet) (k : string) (w : WorkerData) :
  In (k, w) (workers (walkSheet ws)) -> k = workerKeyOf (w_gender w) (w_name w).
Proof.
  intros H.
  assert (I : allWorkers (fun k w => k = workerKeyOf (w_gender w) (w_name w))
                (workers (walkSheet ws))).
  { apply walkSheet_allWorkers; [reflexivity|].
    intros k0 c row w0 dh E.
    pose proof (readCell_ident c row w0 dh) as R. unfold ident in R.
    injection R as Rg Rn _. now rewrite Rg, Rn. }
  unfold allWorkers in I. rewrite Forall_forall in I.
  exact (I _ H).
Qed.

Lemma NoDup_keys_same {V : Type} (m : list (string * V)) (k : string) (v v' : V) :
  NoDup (map fst m) -> In (k, v) m -> In (k, v') m -> v = v'.
Proof.
  induction m as [|[k0 v0] m IH]; simpl; intros N H H'; [contradiction|].
  inversion N as [|? ? Nk Nm]; subst.
  destruct H as [H|H], H' as [H'|H'].
  - congruence.
  - injection H as -> ->. exfalso. apply Nk. now apply (in_map fst) in H'.
  - injection H' as -> ->. exfalso. apply Nk. now apply (in_map fst) in H.
  - now apply IH.
Qed.

(** ** The rows pushed for the workers *)

Lemma dayRows_In (w : WorkerData) (d : Z) (t : TempRow) :
  In t (dayRows w d) ->
  gender (t_row t) = w_gender w /\ name (t_row t) = w_name w /\
  date (t_row t) = JS.String_of_int d /\ t_workerOrder t = w_order w /\
  basicHours (t_row t) = hoursAt (w_basicHours w) d /\
  overtimeHours (t_row t) = hoursAt (w_overtimeHours w) d /\
  weekendSpecialHours (t_row t) = hoursAt (w_weekendSpecialHours w) d /\
  weeklyHolidayHours (t_row t) = hoursAt (w_weeklyHolidayHours w) d /\
  (0 < basicHours (t_row t) \/ 0 < weekendSpecialHours (t_row t)
   \/ 0 < weeklyHolidayHours (t_row t))%Q.
Proof.
  unfold dayRows.
  destruct (_ || _ || _)%bool eqn:G; [|intros []].
  intros [<-|[]]. simpl. repeat split.
  rewrite !orb_true_iff, !num_gtb_true in G. tauto.
Qed.

Lemma tempRows_In (ws : list (string * WorkerData)) (t : TempRow) :
  In t (tempRowsOf ws) ->
  exists k w d, In (k, w) ws /\ In d (allDaysOf w) /\ In t (dayRows w d).
Proof.
  unfold tempRowsOf, workerRows. rewrite in_flat_map.
  intros ([k w] & Hkw & H). simpl in H. rewrite in_flat_map in H.
  destruct H as (d & Hd & H). now exists k, w, d.
Qed.

Lemma allDaysOf_In (w : WorkerData) (d : Z) :
  In d (allDaysOf w) ->
  JS.map_get Z.eqb (w_basicHours w) d <> None \/
  JS.map_get Z.eqb (w_weekendSpecialHours w) d <> None \/
  JS.map_get Z.eqb (w_weeklyHolidayHours w) d <> None.
Proof.
  unfold allDaysOf, keysOf.
  rewrite !(set_add_fold_In Z.eqb Z.eqb_eq). simpl.
  rewrite !(map_get_None Z.eqb Z.eqb_eq). tauto.
Qed.

Lemma parse_rows_In (ws : Worksheet) (r : AttendanceRow) :
  In r (parseAttendanceSheet ws) ->
  exists t k w d,
    r = t_row t /\ In (k, w) (workers (walkSheet ws)) /\
    In d (allDaysOf w) /\ In t (dayRows w d).
Proof.
  unfold parseAttendanceSheet, sortedTempRows. rewrite in_map_iff.
  intros (t & <- & H). apply (proj1 (sort_In _ _ _)) in H.
  apply tempRows_In in H. destruct H as (k & w & d & H).
  now exists t, k, w, d.
Qed.

(** C5. Every row returned has positive basic, weekend-special or
    weekly-holiday hours; for a worker and a day that none of these three
    maps holds, whatever the overtime map holds, no row is returned. *)
Theorem C5_rows_need_hours (ws : Worksheet) :
  (forall r, In r (parseAttendanceSheet ws) ->
     (0 < basicHours r \/ 0 < weekendSpecialHours r \/ 0 < weeklyHolidayHours r)%Q) /\
  (forall key worker d,
     In (key, worker) (workers (walkSheet ws)) ->
     JS.map_get Z.eqb (w_basicHours worker) d = None ->
     JS.map_get Z.eqb (w_weekendSpecialHours worker) d = None ->
     JS.map_get Z.eqb (w_weeklyHolidayHours worker) d = None ->
     forall r, In r (parseAttendanceSheet ws) ->
       ~ (gender r = w_gender worker /\ name r = w_name worker
          /\ date r = JS.String_of_int d)).
Proof.
  split.
  - intros r H. apply parse_rows_In in H.
    destruct H as (t & k & w & d & -> & _ & _ & H).
    apply dayRows_In in H. tauto.
  - intros key worker d Hin Hb Hs Hw r H (Eg & En & Ed).
    apply parse_rows_In in H.
    destruct H as (t & k & w & d' & -> & Hin' & Hd' & H).
    apply dayRows_In in H. destruct H as (Tg & Tn & Td & _).
    assert (k = key).
    { rewrite (workers_key ws _ _ Hin), (workers_key ws _ _ Hin').
      congruence. }
    subst k.
    assert (w = worker)
      by exact (NoDup_keys_same _ _ _ _ (workers_NoDup ws) Hin' Hin).
    subst w.
    assert (d' = d) by (apply String_of_int_inj; congruence).
    subst d'.
    apply allDaysOf_In in Hd'. tauto.
Qed.

Lemma C5_rows_need_hours_witness :
  (0 < 8 \/ 0 < 0 \/ 0 < 0)%Q /\
  ~ In (Sample.mkRow Nam "하준" "3" 0 3 0 0) (parseAttendanceSheet Sample.twoWorkers).
Proof.
  split.
  - apply (proj1 (C5_rows_need_hours Sample.twoWorkers)
             (Sample.mkRow Nam "하준" "1" 8 2 0 0)).
    rewrite twoWorkers_rows. left. reflexivity.
  - intros H.
    apply (proj2 (C5_rows_need_hours Sample.twoWorkers)
             "남-하준" Sample.hajun 3
             ltac:(rewrite twoWorkers_workers; left; reflexivity)
             eq_refl eq_refl eq_refl _ H).
    repeat split.
Defined.

(** ** The order field is the position in the workers map *)

Lemma dataRow_ordersOk (h : HeaderCols) (dhs : list DateHeader) (st : Walk) (row : Row) :
  ordersOk st -> ordersOk (dataRow h dhs st row).
Proof.
  intros [Ho Hc]. unfold ordersOk, dataRow.
  destruct (_ || _)%bool; simpl; [now split|].
  rewrite <- skeleton_orders, <- (skeleton_length (recordHours _ _ _ _ _)).
  rewrite recordHours_skeleton, skeleton_orders, skeleton_length.
  unfold ensureWorker.
  destruct (JS.map_has String.eqb (workers st) _) eqn:H; simpl; [now split|].
  rewrite (map_set_absent _ _ _ H), map_app, length_app, seq_app, map_app.
  simpl. rewrite Ho, Hc. split; [reflexivity|lia].
Qed.

Lemma walkRows_ordersOk (h : HeaderCols) (dhs : list DateHeader) (rows : list Row) :
  forall st, ordersOk st -> ordersOk (walkRows h dhs rows st).
Proof.
  unfold walkRows. induction rows as [|row rows IH]; intros st H; simpl; [exact H|].
  apply IH. now apply dataRow_ordersOk.
Qed.

Lemma walkSheet_ordersOk (ws : Worksheet) : ordersOk (walkSheet ws).
Proof.
  unfold walkSheet. apply walkRows_ordersOk. now split.
Qed.

Lemma indexOf_order (m : list (string * WorkerData)) :
  forall s : nat,
    NoDup (map fst m) ->
    map (fun kw => w_order (snd kw)) m = map Z.of_nat (seq s (List.length m)) ->
    forall k w, In (k, w) m ->
      option_map (Z.add (Z.of_nat s)) (Spec.indexOf k (map fst m)) = Some (w_order w).
Proof.
  induction m as [|[k0 w0] m IH]; intros s N O k w H; [contradiction|].
  cbn [map fst snd List.length seq Spec.indexOf In] in *.
  inversion N as [|? ? Nk Nm]; subst.
  injection O as O0 O.
  destruct H as [H|H].
  - injection H as -> ->. rewrite String.eqb_refl. cbn [option_map]. f_equal. lia.
  - destruct (String.eqb k k0) eqn:E.
    + apply String.eqb_eq in E. subst. exfalso. apply Nk.
      now apply (in_map fst) in H.
    + specialize (IH (S s) Nm O k w H).
      destruct (Spec.indexOf k (map fst m)) as [i|]; cbn [option_map] in *;
        [|discriminate].
      assert (X : forall a b : Z, Some a = Some b -> a = b) by (intros; congruence).
      apply X in IH. rewrite <- IH. f_equal. lia.
Qed.

Lemma discoveryIndex_order (ws : Worksheet) (k : string) (w : WorkerData) :
  In (k, w) (workers (walkSheet ws)) ->
  Spec.indexOf k (Spec.discoveryOrder ws) = Some (w_order w).
Proof.
  intros H. rewrite <- walkSheet_keys.
  pose proof (indexOf_order _ 0 (workers_NoDup ws)
                (proj1 (walkSheet_ordersOk ws)) k w H) as I.
  destruct (Spec.indexOf k _) as [i|]; simpl in *; [|discriminate].
  now rewrite <- I.
Qed.

(** ** The order of the rows returned *)

Lemma tempRows_known (ws : Worksheet) :
  Forall (rowKnown ws) (tempRowsOf (workers (walkSheet ws))).
Proof.
  apply Forall_forall. intros t H. apply tempRows_In in H.
  destruct H as (k & w & d & Hin & _ & H). apply dayRows_In in H.
  destruct H as (Tg & Tn & Td & To & _). split.
  - exists d. unfold Spec.dayOf. rewrite Td. apply parseInt_String_of_int.
  - unfold Spec.discoveryIndex. rewrite Tg, Tn, To.
    rewrite <- (workers_key ws _ _ Hin). now apply discoveryIndex_order.
Qed.

Lemma compareRows_le (ws : Worksheet) (a b : TempRow) :
  rowKnown ws a -> rowKnown ws b ->
  (compareRows a b <= 0 <-> Spec.rowLe ws (t_row a) (t_row b)).
Proof.
  intros [[da Da] Ia] [[db Db] Ib]. unfold compareRows, Spec.rowLe.
  unfold Spec.dayOf in *. rewrite Da, Db.
  destruct (da =? db) eqn:E; simpl.
  - apply Z.eqb_eq in E. subst. split.
    + intros H. exists db, db, (t_workerOrder a), (t_workerOrder b).
      repeat split; trivial. right. split; [reflexivity|lia].
    + intros (d1 & d2 & i1 & i2 & [= <-] & [= <-] & H1 & H2 & H).
      rewrite Ia in H1. rewrite Ib in H2.
      injection H1 as <-. injection H2 as <-. lia.
  - apply Z.eqb_neq in E. split.
    + intros H. exists da, db, (t_workerOrder a), (t_workerOrder b).
      repeat split; trivial. left. lia.
    + intros (d1 & d2 & i1 & i2 & [= <-] & [= <-] & _ & _ & H). lia.
Qed.

Lemma rowLe_total (ws : Worksheet) (a b : TempRow) :
  rowKnown ws a -> rowKnown ws b ->
  Spec.rowLe ws (t_row a) (t_row b) \/ Spec.rowLe ws (t_row b) (t_row a).
Proof.
  intros [[da Da] Ia] [[db Db] Ib]. unfold Spec.rowLe.
  destruct (Z.lt_trichotomy da db) as [H|[H|H]].
  - left. exists da, db, (t_workerOrder a), (t_workerOrder b). tauto.
  - destruct (Z.le_ge_cases (t_workerOrder a) (t_workerOrder b)).
    + left. exists da, db, (t_workerOrder a), (t_workerOrder b). tauto.
    + right. exists db, da, (t_workerOrder b), (t_workerOrder a).
      repeat split; trivial. right. split; [congruence|assumption].
  - right. exists db, da, (t_workerOrder b), (t_workerOrder a). tauto.
Qed.

Lemma rowLe_trans (ws : Worksheet) (a b c : AttendanceRow) :
  Spec.rowLe ws a b -> Spec.rowLe ws b c -> Spec.rowLe ws a c.
Proof.
  intros (d1 & d2 & i1 & i2 & A1 & A2 & A3 & A4 & A)
         (e1 & e2 & j1 & j2 & B1 & B2 & B3 & B4 & B).
  rewrite A2 in B1. injection B1 as <-.
  rewrite A4 in B3. injection B3 as <-.
  exists d1, e2, i1, j2. repeat split; trivial. lia.
Qed.

Lemma StronglySorted_map {A B : Type} (f : A -> B) (R : B -> B -> Prop) (l : list A) :
  StronglySorted (fun a b => R (f a) (f b)) l -> StronglySorted R (map f l).
Proof.
  induction 1 as [|a l S IH F]; simpl; constructor; [exact IH|].
  rewrite Forall_forall in *. intros y Hy.
  apply in_map_iff in Hy. destruct Hy as (x & <- & Hx). now apply F.
Qed.

Lemma StronglySorted_nth {A : Type} (R : A -> A -> Prop) (l : list A) :
  StronglySorted R l ->
  forall i j a b, (i < j)%nat ->
    nth_error l i = Some a -> nth_error l j = Some b -> R a b.
Proof.
  induction 1 as [|x l S IH F]; intros i j a b Lt Hi Hj.
  - destruct i; discriminate.
  - destruct j as [|j]; [lia|]. simpl in Hj.
    destruct i as [|i]; simpl in Hi.
    + injection Hi as <-. rewrite Forall_forall in F.
      apply F. now apply nth_error_In in Hj.
    + apply (IH i j); trivial. lia.
Qed.

Lemma rows_sorted (ws : Worksheet) :
  StronglySorted (Spec.rowLe ws) (parseAttendanceSheet ws).
Proof.
  unfold parseAttendanceSheet, sortedTempRows. apply StronglySorted_map.
  apply (sort_sorted compareRows (rowKnown ws)).
  - apply compareRows_le.
  - apply rowLe_total.
  - intros a b c _ _ _. apply rowLe_trans.
  - apply tempRows_known.
Qed.

(** C6. The rows returned are sorted by day, and within a day by the
    discovery-order index of the worker (the position at which the worker's
    gender and name first occur among the recognized category rows), not by
    name: of two rows for the same day, the one whose worker was discovered
    earlier stands first. *)
Theorem C6_rows_sorted (ws : Worksheet) :
  StronglySorted (Spec.rowLe ws) (parseAttendanceSheet ws) /\
  (forall i j rA rB d iA iB,
      nth_error (parseAttendanceSheet ws) i = Some rA ->
      nth_error (parseAttendanceSheet ws) j = Some rB ->
      Spec.dayOf rA = Some d -> Spec.dayOf rB = Some d ->
      Spec.discoveryIndex ws rA = Some iA ->
      Spec.discoveryIndex ws rB = Some iB ->
      iA < iB -> (i < j)%nat).
Proof.
  split; [apply rows_sorted|].
  intros i j rA rB d iA iB Hi Hj DA DB IA IB Lt.
  destruct (Nat.lt_trichotomy i j) as [H|[H|H]]; [exact H| |].
  - subst j. rewrite Hi in Hj. injection Hj as <-.
    rewrite IA in IB. injection IB as <-. lia.
  - pose proof (StronglySorted_nth _ _ (rows_sorted ws) j i rB rA H Hj Hi) as L.
    destruct L as (d1 & d2 & i1 & i2 & L1 & L2 & L3 & L4 & L).
    rewrite DB in L1. rewrite DA in L2. rewrite IB in L3. rewrite IA in L4.
    injection L1 as <-. injection L2 as <-.
    injection L3 as <-. injection L4 as <-. lia.
Qed.

Lemma C6_rows_sorted_witness :
  parseAttendanceSheet Sample.twoWorkers
  = [ Sample.mkRow Nam "하준" "1" 8 2 0 0;
      Sample.mkRow Yeo "가은" "1" 2.5 0 0 0;
      Sample.mkRow Yeo "가은" "2" 8 0 0 0;
      Sample.mkRow Yeo "가은" "3" 0 0 4 0 ] /\
  (0 < 1)%nat.
Proof.
  split; [exact twoWorkers_rows|].
  apply (proj2 (C6_rows_sorted Sample.twoWorkers) 0%nat 1%nat
           (Sample.mkRow Nam "하준" "1" 8 2 0 0)
           (Sample.mkRow Yeo "가은" "1" 2.5 0 0 0) 1 0 1).
  - rewrite twoWorkers_rows. reflexivity.
  - rewrite twoWorkers_rows. reflexivity.
  - reflexivity.
  - reflexivity.
  - vm_compute. reflexivity.
  - vm_compute. reflexivity.
  - reflexivity.
Defined.

Lemma workerKeyOf_inj (g g' : Gender) (n n' : string) :
  workerKeyOf g n = workerKeyOf g' n' -> g = g' /\ n = n'.
Proof.
  unfold workerKeyOf. destruct g, g'; simpl; intros H;
    try discriminate H; injection H as H; now split.
Qed.

(** ** Forward fill of gender and name *)

Lemma dataRow_cursor (h : HeaderCols) (dhs : list DateHeader) (st : Walk) (row : Row) :
  currentGender (dataRow h dhs st row)
  = nextGender (currentGender st) (cellText (getCell row (genderColIndex h))) /\
  currentName (dataRow h dhs st row)
  = nextName (currentName st) (cellText (getCell row (nameColIndex h))).
Proof.
  unfold dataRow. now destruct (_ || _)%bool.
Qed.

Lemma dataRow_skipped (h : HeaderCols) (dhs : list DateHeader) (st : Walk) (row : Row) :
  currentName (dataRow h dhs st row) = "" ->
  workers (dataRow h dhs st row) = workers st /\
  workerOrder (dataRow h dhs st row) = workerOrder st /\
  currentName st = "".
Proof.
  unfold dataRow.
  set (n := nextName (currentName st) (cellText (getCell row (nameColIndex h)))).
  destruct (String.eqb n "") eqn:E; simpl.
  - intros _. repeat split. apply String.eqb_eq in E. unfold n, nextName in E.
    destruct (String.eqb (cellText _) "") eqn:F; [exact E|].
    rewrite E in F. discriminate F.
  - destruct (negb (isCategory _)); simpl; intros H; rewrite H in E; discriminate E.
Qed.

Lemma walkRows_skipped (h : HeaderCols) (dhs : list DateHeader) (rows : list Row) :
  forall st,
    currentName (walkRows h dhs rows st) = "" ->
    workers (walkRows h dhs rows st) = workers st /\
    workerOrder (walkRows h dhs rows st) = workerOrder st /\
    currentName st = "".
Proof.
  unfold walkRows. induction rows as [|row rows IH]; intros st H; simpl in *.
  - now repeat split.
  - destruct (IH _ H) as (W & O & N).
    destruct (dataRow_skipped h dhs st row N) as (W' & O' & N').
    rewrite W, O. now repeat split.
Qed.

(** C9, as the code has it.  The walk starts with gender 남 and an empty
    name.  At each data row the current name becomes the trimmed text of the
    name cell when that text is not empty, and is carried forward otherwise;
    the current gender becomes the trimmed text of the gender cell only when
    that text is 남 or 여, and is carried forward for any other text, empty or
    not.  A row at which the current name is still empty changes neither the
    workers nor the order counter, and so does any run of rows after which the
    name is still empty. *)
Theorem C9_forward_fill (h : HeaderCols) (dhs : list DateHeader) (st : Walk) (row : Row) :
  let genderValue := cellText (getCell row (genderColIndex h)) in
  let nameValue := cellText (getCell row (nameColIndex h)) in
  let st' := dataRow h dhs st row in
  (currentGender startWalk = Nam /\ currentName startWalk = "") /\
  (genderValue = "남" -> currentGender st' = Nam) /\
  (genderValue = "여" -> currentGender st' = Yeo) /\
  (genderValue <> "남" -> genderValue <> "여" -> currentGender st' = currentGender st) /\
  (nameValue <> "" -> currentName st' = nameValue) /\
  (nameValue = "" -> currentName st' = currentName st) /\
  (currentName st' = "" -> workers st' = workers st /\ workerOrder st' = workerOrder st) /\
  (forall rows,
      currentName (walkRows h dhs rows st) = "" ->
      workers (walkRows h dhs rows st) = workers st /\
      workerOrder (walkRows h dhs rows st) = workerOrder st).
Proof.
  intros genderValue nameValue st'.
  destruct (dataRow_cursor h dhs st row) as [G N].
  fold genderValue in G. fold nameValue in N. fold st' in G, N.
  split; [now split|].
  split; [|split; [|split; [|split; [|split; [|split]]]]].
  - intros E. rewrite G, E. reflexivity.
  - intros E. rewrite G, E. reflexivity.
  - intros E1 E2. rewrite G. unfold nextGender.
    apply String.eqb_neq in E1, E2. now rewrite E1, E2.
  - intros E. rewrite N. unfold nextName.
    apply String.eqb_neq in E. now rewrite E.
  - intros E. rewrite N, E. reflexivity.
  - intros E. destruct (dataRow_skipped h dhs st row E) as (W & O & _). now split.
  - intros rows E. destruct (walkRows_skipped h dhs rows st E) as (W & O & _).
    now split.
Qed.

Lemma C9_forward_fill_witness :
  let h := {| genderColIndex := 1; nameColIndex := 2;
              categoryColIndex := 3; headerRowIndex := 1 |} in
  let st := {| workers := []; currentGender := Yeo;
               currentName := "가은"; workerOrder := 0 |} in
  currentGender (dataRow h [] st [VString "여자"; VNull; VString "기본"]) = Yeo /\
  currentName (dataRow h [] st [VString "여자"; VNull; VString "기본"]) = "가은" /\
  currentGender (dataRow h [] st [VString "남"; VString "하준"; VString "기본"]) = Nam /\
  currentName (dataRow h [] st [VString "남"; VString "하준"; VString "기본"]) = "하준" /\
  workers (dataRow h [] startWalk [VString "남"; VNull; VString "기본"]) = [].
Proof.
  intros h st.
  pose proof (C9_forward_fill h [] st [VString "여자"; VNull; VString "기본"])
    as (_ & _ & _ & K1 & _ & K2 & _).
  pose proof (C9_forward_fill h [] st [VString "남"; VString "하준"; VString "기본"])
    as (_ & K3 & _ & _ & K4 & _).
  pose proof (C9_forward_fill h [] startWalk [VString "남"; VNull; VString "기본"])
    as (_ & _ & _ & _ & _ & _ & K5 & _).
  split; [|split; [|split; [|split]]].
  - apply K1; intros E; discriminate E.
  - apply K2. reflexivity.
  - apply K3. reflexivity.
  - apply K4. intros E; discriminate E.
  - apply K5. reflexivity.
Defined.

(** C9, at the gender text 여자.  The trimmed text of a gender cell can be
    non-empty and still leave the current gender as it was, so the gender is
    not updated whenever the cell is non-empty. *)
Lemma C9_gender_not_updated :
  ~ (forall (h : HeaderCols) (dhs : list DateHeader) (st : Walk) (row : Row),
        cellText (getCell row (genderColIndex h)) <> "" ->
        genderText (currentGender (dataRow h dhs st row))
        = cellText (getCell row (genderColIndex h))).
Proof.
  intros H.
  specialize (H {| genderColIndex := 1; nameColIndex := 2;
                   categoryColIndex := 3; headerRowIndex := 1 |}
                [] startWalk [VString "여자"; VString "가은"; VString "기본"]).
  assert (N : cellText (VString "여자") <> "") by (intros E; discriminate E).
  specialize (H N). discriminate H.
Qed.

(** ** The header scan *)

Lemma eachCell_fold (rn : Z) (row : Row) :
  forall c h,
    eachCell (headerCell rn) c row h = fold_left placeCell (Spec.rowCells rn c row) h.
Proof.
  induction row as [|v row IH]; intros c h; simpl; [reflexivity|].
  rewrite IH. now destruct v.
Qed.

Lemma placeCell_gender (h : HeaderCols) (p : Spec.Placed) :
  genderColIndex (placeCell h p)
  = (if Spec.isLabel Spec.genderLabels p then snd (fst p) else genderColIndex h) /\
  headerRowIndex (placeCell h p)
  = (if Spec.isLabel Spec.genderLabels p then fst (fst p) else headerRowIndex h).
Proof.
  destruct p as [[r c] v].
  unfold placeCell, headerCell, Spec.isLabel, Spec.hasLabel, Spec.genderLabels.
  cbn [fst snd existsb]. rewrite orb_false_r.
  destruct (String.eqb (cellText v) "성별"); [now split|].
  destruct (_ || _)%bool; [now split|].
  now destruct (String.eqb (cellText v) "구분").
Qed.

Lemma placeCell_name (h : HeaderCols) (p : Spec.Placed) :
  nameColIndex (placeCell h p)
  = if Spec.isLabel Spec.nameLabels p then snd (fst p) else nameColIndex h.
Proof.
  destruct p as [[r c] v].
  unfold placeCell, headerCell, Spec.isLabel, Spec.hasLabel, Spec.nameLabels.
  cbn [fst snd existsb]. rewrite orb_false_r.
  destruct (String.eqb (cellText v) "성별") eqn:E.
  - apply String.eqb_eq in E. rewrite E. reflexivity.
  - destruct (_ || _)%bool; [reflexivity|].
    now destruct (String.eqb (cellText v) "구분").
Qed.

Lemma placeCell_category (h : HeaderCols) (p : Spec.Placed) :
  categoryColIndex (placeCell h p)
  = if Spec.isLabel Spec.categoryLabels p then snd (fst p) else categoryColIndex h.
Proof.
  destruct p as [[r c] v].
  unfold placeCell, headerCell, Spec.isLabel, Spec.hasLabel, Spec.categoryLabels.
  cbn [fst snd existsb]. rewrite orb_false_r.
  destruct (String.eqb (cellText v) "성별") eqn:E.
  - apply String.eqb_eq in E. rewrite E. reflexivity.
  - destruct (String.eqb (cellText v) "성명") eqn:E1.
    + apply String.eqb_eq in E1. rewrite E1. reflexivity.
    + destruct (String.eqb (cellText v) "이름") eqn:E2.
      * apply String.eqb_eq in E2. rewrite E2. reflexivity.
      * simpl. now destruct (String.eqb (cellText v) "구분").
Qed.

(** A field that every labelled cell overwrites holds what the last
    labelled cell gave it. *)
Lemma fold_last {X : Type} (get : HeaderCols -> X) (val : Spec.Placed -> X)
    (labels : list string) :
  (forall h p, get (placeCell h p) = if Spec.isLabel labels p then val p else get h) ->
  forall cells h,
    get (fold_left placeCell cells h)
    = match find (Spec.isLabel labels) (rev cells) with
      | Some p => val p
      | None => get h
      end.
Proof.
  intros H cells. induction cells as [|x l IH] using rev_ind; intros h.
  - reflexivity.
  - rewrite fold_left_app, rev_app_distr. simpl. rewrite H.
    destruct (Spec.isLabel labels x); [reflexivity|]. apply IH.
Qed.

Lemma flag_fold (get : HeaderCols -> Z) (labels : list string) (rn : Z) :
  (forall h p, get (placeCell h p)
               = if Spec.isLabel labels p then snd (fst p) else get h) ->
  forall row c h, 0 < c ->
    (0 <? get (fold_left placeCell (Spec.rowCells rn c row) h))
    = ((0 <? get h) || existsb (Spec.hasLabel labels) row)%bool.
Proof.
  intros H. induction row as [|v row IH]; intros c h Hc; simpl.
  - now rewrite orb_false_r.
  - rewrite IH by lia. rewrite H. unfold Spec.isLabel. simpl.
    destruct (Spec.hasLabel labels v); simpl; [|reflexivity].
    rewrite orb_true_r. apply orb_true_iff. left. now apply Z.ltb_lt.
Qed.

Lemma flags_row (rn : Z) (row : Row) (h : HeaderCols) :
  flags (eachCell (headerCell rn) 1 row h) = seenAfter (flags h) row.
Proof.
  rewrite eachCell_fold. unfold flags, seenAfter. simpl.
  rewrite (flag_fold genderColIndex Spec.genderLabels rn
             (fun h p => proj1 (placeCell_gender h p))) by lia.
  rewrite (flag_fold nameColIndex Spec.nameLabels rn placeCell_name) by lia.
  rewrite (flag_fold categoryColIndex Spec.categoryLabels rn placeCell_category) by lia.
  reflexivity.
Qed.

Lemma headerLoop_fold (rows : list Row) :
  forall rn h,
    headerLoop rn rows h
    = fold_left placeCell
        (Spec.sheetCells rn (firstn (stopAt (flags h) rows) rows)) h.
Proof.
  induction rows as [|row rows IH]; intros rn h; simpl; [reflexivity|].
  change (allFound (eachCell (headerCell rn) 1 row h))
    with (allOf (flags (eachCell (headerCell rn) 1 row h))).
  rewrite flags_row.
  destruct (allOf (seenAfter (flags h) row)) eqn:E; simpl.
  - rewrite app_nil_r. apply eachCell_fold.
  - rewrite fold_left_app, <- eachCell_fold, IH, flags_row. reflexivity.
Qed.

Lemma allFrom_cons (b : bool * bool * bool) (row : Row) (rows : list Row) :
  allFrom b (row :: rows) = allFrom (seenAfter b row) rows.
Proof.
  unfold allFrom, seenAfter. simpl. now rewrite !orb_assoc.
Qed.

Lemma find_map_S (f : nat -> bool) (l : list nat) :
  find f (map S l) = option_map S (find (fun k => f (S k)) l).
Proof.
  induction l as [|x l IH]; simpl; [reflexivity|].
  destruct (f (S x)); [reflexivity|exact IH].
Qed.

Lemma find_ext_nat (f g : nat -> bool) (l : list nat) :
  (forall k, f k = g k) -> find f l = find g l.
Proof.
  intros H. induction l as [|x l IH]; simpl; [reflexivity|].
  rewrite H, IH. reflexivity.
Qed.

Lemma stopAt_find (rows : list Row) :
  forall b,
    stopAt b rows
    = match find (fun k => allFrom b (firstn k rows)) (seq 1 (List.length rows)) with
      | Some k => k
      | None => List.length rows
      end.
Proof.
  induction rows as [|row rows IH]; intros b; [reflexivity|].
  cbn [stopAt List.length seq find firstn].
  rewrite allFrom_cons. cbn [firstn].
  replace (allFrom (seenAfter b row) []) with (allOf (seenAfter b row))
    by (unfold allFrom, allOf; simpl; now rewrite !orb_false_r).
  destruct (allOf (seenAfter b row)); [reflexivity|].
  rewrite <- seq_shift, find_map_S.
  rewrite (find_ext_nat _ (fun k => allFrom (seenAfter b row) (firstn k rows)))
    by (intros k; apply allFrom_cons).
  rewrite IH. now destruct (find _ _).
Qed.

Lemma scanHeader_fold (ws : Worksheet) :
  scanHeader ws = fold_left placeCell (Spec.scannedCells ws) noHeader.
Proof.
  unfold scanHeader, Spec.scannedCells, Spec.scannedCount.
  rewrite headerLoop_fold, stopAt_find. reflexivity.
Qed.

Lemma find_seq_first (f : nat -> bool) (n : nat) :
  forall s j,
    find f (seq s n) = Some j ->
    (s <= j < s + n)%nat /\ forall k, (s <= k < j)%nat -> f k = false.
Proof.
  induction n as [|n IH]; intros s j; simpl; [discriminate|].
  destruct (f s) eqn:E.
  - intros [= <-]. split; [lia|]. intros k Hk. lia.
  - intros H. destruct (IH _ _ H) as [B L]. split; [lia|].
    intros k Hk. destruct (Nat.eq_dec k s) as [->|N]; [exact E|].
    apply L. lia.
Qed.

Lemma find_seq_none (f : nat -> bool) (n : nat) :
  forall s, find f (seq s n) = None ->
            forall k, (s <= k < s + n)%nat -> f k = false.
Proof.
  induction n as [|n IH]; intros s H k Hk; simpl in *; [lia|].
  destruct (f s) eqn:E; [discriminate|].
  destruct (Nat.eq_dec k s) as [->|N]; [exact E|].
  apply (IH _ H). lia.
Qed.

Lemma scannedCount_bound (rows : list Row) :
  (Spec.scannedCount rows <= List.length rows)%nat.
Proof.
  unfold Spec.scannedCount.
  destruct (find _ _) as [j|] eqn:F; [|lia].
  apply find_seq_first in F. lia.
Qed.

Lemma scannedCount_least (rows : list Row) (k : nat) :
  Spec.allSeen (firstn k rows) = true -> (Spec.scannedCount rows <= k)%nat.
Proof.
  intros H.
  destruct (Nat.le_gt_cases (List.length rows) k) as [L|L].
  { pose proof (scannedCount_bound rows). lia. }
  assert (K : (1 <= k)%nat).
  { destruct k; [discriminate H|lia]. }
  unfold Spec.scannedCount.
  destruct (find _ _) as [j|] eqn:F.
  - destruct (find_seq_first _ _ _ _ F) as [_ M].
    destruct (Nat.le_gt_cases j k) as [J|J]; [exact J|].
    rewrite (M k) in H by lia. discriminate H.
  - rewrite (find_seq_none _ _ _ F k) in H by lia. discriminate H.
Qed.

(** C7, as the code has it.  The header scan reads rows 1 to
    [min(15, rowCount)] in order, each row by increasing column, and stops
    after the first row by whose end all three fields are set.  Among the
    cells it reads, the last one whose trimmed text is 성별 fixes the gender
    column and the header row, the last one with 성명 or 이름 the name column,
    the last one with 구분 the category column: a later labelled cell that is
    read overwrites an earlier one.  A field without a labelled cell stays
    at -1. *)
Theorem C7_header_scan_last_match (ws : Worksheet) :
  let found := fun labels => Spec.lastLabel labels (Spec.scannedCells ws) in
  genderColIndex (scanHeader ws)
  = match found Spec.genderLabels with Some (_, c) => c | None => -1 end /\
  headerRowIndex (scanHeader ws)
  = match found Spec.genderLabels with Some (r, _) => r | None => -1 end /\
  nameColIndex (scanHeader ws)
  = match found Spec.nameLabels with Some (_, c) => c | None => -1 end /\
  categoryColIndex (scanHeader ws)
  = match found Spec.categoryLabels with Some (_, c) => c | None => -1 end /\
  (Spec.scannedCount (firstn 15 ws) <= Nat.min 15 (List.length ws))%nat /\
  (forall k, Spec.allSeen (firstn k (firstn 15 ws)) = true ->
             (Spec.scannedCount (firstn 15 ws) <= k)%nat).
Proof.
  intros found. unfold found, Spec.lastLabel. rewrite scanHeader_fold.
  split; [|split; [|split; [|split; [|split]]]].
  - rewrite (fold_last genderColIndex (fun p => snd (fst p)) Spec.genderLabels
               (fun h p => proj1 (placeCell_gender h p))).
    now destruct (find _ _) as [[[r c] v]|].
  - rewrite (fold_last headerRowIndex (fun p => fst (fst p)) Spec.genderLabels
               (fun h p => proj2 (placeCell_gender h p))).
    now destruct (find _ _) as [[[r c] v]|].
  - rewrite (fold_last nameColIndex (fun p => snd (fst p)) Spec.nameLabels
               placeCell_name).
    now destruct (find _ _) as [[[r c] v]|].
  - rewrite (fold_last categoryColIndex (fun p => snd (fst p)) Spec.categoryLabels
               placeCell_category).
    now destruct (find _ _) as [[[r c] v]|].
  - pose proof (scannedCount_bound (firstn 15 ws)) as B.
    rewrite length_firstn in B. exact B.
  - intros k. apply scannedCount_least.
Qed.

Lemma C7_header_scan_last_match_witness :
  (Spec.scannedCount (firstn 15 Sample.lateHeader) <= 2)%nat /\
  genderColIndex (scanHeader Sample.lateHeader) = 2 /\
  headerRowIndex (scanHeader Sample.lateHeader) = 2.
Proof.
  pose proof (C7_header_scan_last_match Sample.lateHeader) as (G & R & _ & _ & _ & S).
  split; [|split].
  - apply S. reflexivity.
  - rewrite G. reflexivity.
  - rewrite R. reflexivity.
Defined.

(** C7, at a row that reads 성별, 성명, 구분, 성별.  The first cell with the
    text 성별 does not fix the gender column when a later cell that is read
    carries the same text: the first such cell is in column 1 and the scan
    returns column 4. *)
Lemma C7_first_match_overwritten :
  ~ (forall (ws : Worksheet) (r c : Z),
        Spec.firstLabel Spec.genderLabels (Spec.sheetCells 1 (firstn 15 ws))
        = Some (r, c) ->
        genderColIndex (scanHeader ws) = c /\ headerRowIndex (scanHeader ws) = r).
Proof.
  intros H.
  destruct (H Sample.repeatedLabel 1 1 eq_refl) as [G _].
  discriminate G.
Qed.

(** ** The date columns *)

Lemma eachCell_preserves {S : Type} (P : S -> Prop) (f : CellValue -> Z -> S -> S) :
  (forall v c s, P s -> P (f v c s)) ->
  forall cells c s, P s -> P (eachCell f c cells s).
Proof.
  intros H. induction cells as [|v cells IH]; intros c s Hs; simpl; [exact Hs|].
  apply IH. destruct v; auto.
Qed.

Lemma someCol_false (hs : list DateHeader) (c : Z) :
  someCol hs c = false -> ~ In c (map col hs).
Proof.
  unfold someCol. intros H Hin. apply in_map_iff in Hin.
  destruct Hin as (x & E & Hx).
  assert (T : existsb (fun h => col h =? c) hs = true).
  { apply existsb_exists. exists x. split; [exact Hx|]. now apply Z.eqb_eq. }
  congruence.
Qed.

Lemma append_oneDayPerColumn (hs : list DateHeader) (c d : Z) :
  someCol hs c = false -> oneDayPerColumn hs ->
  oneDayPerColumn (hs ++ [{| col := c; day := d |}]).
Proof.
  unfold oneDayPerColumn. intros H N. rewrite map_app. simpl.
  apply NoDup_app; [exact N | repeat constructor; intros [] |].
  intros x Hx [<-|[]]. now apply someCol_false in H.
Qed.

Lemma pushHeader_oneDayPerColumn (hs : list DateHeader) (c d : Z) :
  oneDayPerColumn hs -> oneDayPerColumn (pushHeader hs c d).
Proof.
  intros N. unfold pushHeader.
  destruct (someCol hs c) eqn:E; [exact N|]. now apply append_oneDayPerColumn.
Qed.

Lemma dateCell_oneDayPerColumn (categoryColIndex : Z) (v : CellValue) (c : Z)
    (hs : list DateHeader) :
  oneDayPerColumn hs -> oneDayPerColumn (dateCell categoryColIndex v c hs).
Proof.
  intros N. unfold dateCell.
  destruct (_ && _)%bool; [|exact N].
  assert (N1 : oneDayPerColumn (snd (dateCellValue v c hs))).
  { unfold dateCellValue. destruct v; simpl; trivial.
    now apply pushHeader_oneDayPerColumn. }
  destruct (dateCellValue v c hs) as [value hs1]. simpl in N1.
  destruct (matchMD _) as [g2|].
  - destruct (JS.parseInt _); [|exact N1]. now apply pushHeader_oneDayPerColumn.
  - destruct (matchBare _) as [g1|]; [|exact N1].
    destruct (JS.parseInt _) as [d|]; [|exact N1].
    destruct (_ && _ && negb (someCol hs1 c))%bool eqn:E; [|exact N1].
    apply andb_true_iff in E. destruct E as [_ E]. apply negb_true_iff in E.
    now apply append_oneDayPerColumn.
Qed.

Lemma dateLoop_oneDayPerColumn (categoryColIndex : Z) (rows : list Row) :
  forall hs, oneDayPerColumn hs ->
             oneDayPerColumn (dateLoop categoryColIndex rows hs).
Proof.
  induction rows as [|row rows IH]; intros hs N; simpl; [exact N|].
  assert (N' : oneDayPerColumn (eachCell (dateCell categoryColIndex) 1 row hs)).
  { apply eachCell_preserves; [|exact N].
    intros v c s. apply dateCell_oneDayPerColumn. }
  destruct (10 <=? _); [exact N'|]. now apply IH.
Qed.

(** A column is given at most one day, whatever the cells hold. *)
Lemma dateHeaders_oneDayPerColumn (ws : Worksheet) (categoryColIndex : Z) :
  oneDayPerColumn (dateHeadersOf ws categoryColIndex).
Proof.
  unfold dateHeadersOf, oneDayPerColumn.
  apply (Permutation_NoDup (l := map col (scanDates ws categoryColIndex))).
  - apply Permutation_map. symmetry. apply sort_perm.
  - apply dateLoop_oneDayPerColumn. constructor.
Qed.

(** C8, at the cell text 3/45.  The text matches the month/day pattern, and
    the second number is taken as the day without the range test that the
    bare-number pattern applies: column 4 is given day 45, while the cell 45
    next to it is refused. *)
Theorem C8_slash_day_unchecked :
  detectHeader Sample.badDay
  = {| genderColIndex := 1; nameColIndex := 2;
       categoryColIndex := 3; headerRowIndex := 1 |} /\
  dateHeadersOf Sample.badDay 3 = [ {| col := 4; day := 45 |} ] /\
  ~ (1 <= 45 <= 31).
Proof.
  split; [reflexivity|]. split; [reflexivity|]. lia.
Qed.

(* ================================================================== *)
(** * Further properties *)
(* ================================================================== *)

(** ** Further properties of the wage figures *)

Lemma Math_round_integer (n : Z) : JS.Math_round (inject_Z n) = inject_Z n.
Proof.
  unfold JS.Math_round. f_equal.
  assert (L : (inject_Z n <= inject_Z n + (1 # 2))%Q).
  { rewrite <- (Qplus_0_r (inject_Z n)) at 1. apply Qplus_le_r. discriminate. }
  assert (U : (inject_Z n + (1 # 2) < inject_Z (n + 1))%Q).
  { rewrite inject_Z_plus. apply Qplus_lt_r. reflexivity. }
  apply Qfloor_resp_le in L. rewrite Qfloor_Z in L.
  pose proof (Qfloor_le (inject_Z n + (1 # 2))) as F.
  assert (F' : (inject_Z (Qfloor (inject_Z n + (1 # 2))) < inject_Z (n + 1))%Q)
    by (eapply Qle_lt_trans; eauto).
  rewrite <- Zlt_Qlt in F'. lia.
Qed.


(** The entry of the rate table that a lookup hits. *)
Lemma rateOf_cases (g : Gender) (h : Q) :
  ((h == 8)%Q /\ Spec.rateOf g h
     = (1, match g with Nam => 117480 | Yeo => 108680 end)%Q) \/
  ((h == 6)%Q /\ Spec.rateOf g h
     = (0.75, match g with Nam => 88110 | Yeo => 81510 end)%Q) \/
  ((h == 2.5)%Q /\ Spec.rateOf g h
     = (0.3125, match g with Nam => 36713 | Yeo => 33963 end)%Q) \/
  ((h == 1)%Q /\ Spec.rateOf g h
     = (0.125, match g with Nam => 14685 | Yeo => 13585 end)%Q) \/
  (~ Spec.canonical h /\ Spec.rateOf g h = (0, 0)%Q).
Proof.
  unfold Spec.rateOf, Spec.canonical.
  destruct (Qeq_bool h 8) eqn:E8.
  { left. split; [now apply Qeq_bool_iff|reflexivity]. }
  destruct (Qeq_bool h 6) eqn:E6.
  { right; left. split; [now apply Qeq_bool_iff|reflexivity]. }
  destruct (Qeq_bool h 2.5) eqn:E25.
  { right; right; left. split; [now apply Qeq_bool_iff|reflexivity]. }
  destruct (Qeq_bool h 1) eqn:E1.
  { right; right; right; left. split; [now apply Qeq_bool_iff|reflexivity]. }
  right; right; right; right. split; [|reflexivity].
  apply Qeq_bool_neq in E8, E6, E25, E1. tauto.
Qed.

Lemma canonical_distinct (h : Q) :
  ((h == 8)%Q -> ~ (h == 6)%Q /\ ~ (h == 2.5)%Q /\ ~ (h == 1)%Q) /\
  ((h == 6)%Q -> ~ (h == 2.5)%Q /\ ~ (h == 1)%Q) /\
  ((h == 2.5)%Q -> ~ (h == 1)%Q).
Proof.
  split; [|split]; intros H; repeat split; intros E; rewrite H in E; discriminate E.
Qed.

(** The pair a row is priced with. *)
Lemma row_rate (row : AttendanceRow) :
  (workUnitsOf row, unitPriceOf row) = Spec.rateOf (gender row) (basicHours row).
Proof.
  destruct (workUnitsOf_lookup row) as [-> ->]. apply rates_lookup.
Qed.

(** X1. The basic total of a row is the rounded product of the work units
    and the unit price of its table entry: the full price at 8 hours, and at
    6, 2.5 and 1 hours the table price scaled once more by the work units;
    it is 0 at every other hour value. *)
Theorem X1_basic_total_table (row : AttendanceRow) :
  let h := basicHours row in
  let g := gender row in
  ((h == 8)%Q ->
     basicTotalOf row = match g with Nam => 117480 | Yeo => 108680 end%Q) /\
  ((h == 6)%Q ->
     basicTotalOf row = match g with Nam => 66083 | Yeo => 61133 end%Q) /\
  ((h == 2.5)%Q ->
     basicTotalOf row = match g with Nam => 11473 | Yeo => 10613 end%Q) /\
  ((h == 1)%Q ->
     basicTotalOf row = match g with Nam => 1836 | Yeo => 1698 end%Q) /\
  (~ Spec.canonical h -> basicTotalOf row = 0%Q).
Proof.
  intros h g. unfold basicTotalOf, calculateTotal.
  pose proof (row_rate row) as R. fold h g in R.
  destruct (canonical_distinct h) as (D8 & D6 & D25).
  unfold Spec.canonical.
  destruct (rateOf_cases g h) as [[E C]|[[E C]|[[E C]|[[E C]|[E C]]]]];
    rewrite C in R; injection R as -> ->;
    (split; [|split; [|split; [|split]]]); intros H;
    try (now destruct g);
    try (exfalso; specialize (D8 E); tauto);
    try (exfalso; specialize (D8 H); tauto);
    try (exfalso; specialize (D6 E); tauto);
    try (exfalso; specialize (D6 H); tauto);
    try (exfalso; specialize (D25 E); tauto);
    try (exfalso; specialize (D25 H); tauto);
    try (exfalso; unfold Spec.canonical in *; tauto).
Qed.

Lemma X1_basic_total_table_witness :
  basicTotalOf (Sample.mkRow Yeo "가은" "1" 2.5 0 0 0) = 10613%Q /\
  basicTotalOf (Sample.mkRow Nam "하준" "1" 8 0 0 0) = 117480%Q /\
  basicTotalOf (Sample.mkRow Nam "하준" "1" 4 0 0 0) = 0%Q.
Proof.
  split; [|split].
  - apply (proj1 (proj2 (proj2 (X1_basic_total_table (Sample.mkRow Yeo "가은" "1" 2.5 0 0 0))))).
    reflexivity.
  - apply (proj1 (X1_basic_total_table (Sample.mkRow Nam "하준" "1" 8 0 0 0))).
    reflexivity.
  - apply (proj2 (proj2 (proj2 (proj2 (X1_basic_total_table (Sample.mkRow Nam "하준" "1" 4 0 0 0)))))).
    unfold Spec.canonical. simpl. intros [H|[H|[H|H]]]; discriminate H.
Defined.







(** X3. The work-units cell of an output row shows 1, 0.75, 0.3125 or 0.125
    for 8, 6, 2.5 or 1 basic hours, and is blank for every other hour value;
    no other text ever appears in that column. *)
Theorem X3_work_units_cell (month : string) (index : Z) (row : AttendanceRow) :
  let h := basicHours row in
  let cell := nth_error (outputRow month index row) 8 in
  ((h == 8)%Q -> cell = Some (OText "1")) /\
  ((h == 6)%Q -> cell = Some (OText "0.75")) /\
  ((h == 2.5)%Q -> cell = Some (OText "0.3125")) /\
  ((h == 1)%Q -> cell = Some (OText "0.125")) /\
  (~ Spec.canonical h -> cell = Some (OText "")).
Proof.
  intros h cell. unfold cell, outputRow. cbn [nth_error].
  pose proof (row_rate row) as R. fold h in R.
  destruct (canonical_distinct h) as (D8 & D6 & D25).
  destruct (rateOf_cases (gender row) h) as [[E C]|[[E C]|[[E C]|[[E C]|[E C]]]]];
    rewrite C in R; injection R as -> _;
    (split; [|split; [|split; [|split]]]); intros H;
    try reflexivity;
    try (exfalso; specialize (D8 E); tauto);
    try (exfalso; specialize (D8 H); tauto);
    try (exfalso; specialize (D6 E); tauto);
    try (exfalso; specialize (D6 H); tauto);
    try (exfalso; specialize (D25 E); tauto);
    try (exfalso; specialize (D25 H); tauto);
    try (exfalso; unfold Spec.canonical in *; tauto).
Qed.

Lemma X3_work_units_cell_witness :
  nth_error (outputRow "03" 0 (Sample.mkRow Yeo "가은" "1" 2.5 0 0 0)) 8
  = Some (OText "0.3125") /\
  nth_error (outputRow "03" 0 (Sample.mkRow Yeo "가은" "1" 4 0 0 0)) 8
  = Some (OText "").
Proof.
  split.
  - apply (proj1 (proj2 (proj2 (X3_work_units_cell "03" 0
                                  (Sample.mkRow Yeo "가은" "1" 2.5 0 0 0))))).
    reflexivity.
  - apply (proj2 (proj2 (proj2 (proj2 (X3_work_units_cell "03" 0
                                  (Sample.mkRow Yeo "가은" "1" 4 0 0 0)))))).
    unfold Spec.canonical. simpl. intros [H|[H|[H|H]]]; discriminate H.
Defined.

Lemma outputRowsFrom_length (month : string) (data : list AttendanceRow) :
  forall index, List.length (outputRowsFrom month index data) = List.length data.
Proof.
  induction data as [|r data IH]; intros index; simpl; [reflexivity|].
  now rewrite IH.
Qed.

(** X4. The output holds the header row and then one row of twelve cells for
    each attendance row, in the same order; the row for the [i]-th element
    (from 0) is numbered [i + 1] and shows month/day, gender and name. *)
Theorem X4_workbook_rows (data : list AttendanceRow) (month : string) :
  List.length (createOutputWorkbook data month) = S (List.length data) /\
  nth_error (createOutputWorkbook data month) 0 = Some headers /\
  (forall i row,
      nth_error data i = Some row ->
      exists cells,
        nth_error (createOutputWorkbook data month) (S i) = Some cells /\
        List.length cells = List.length headers /\
        nth_error cells 0 = Some (ONumber (inject_Z (Z.of_nat i + 1))) /\
        nth_error cells 1 = Some (OText (month ++ "/" ++ date row)) /\
        nth_error cells 2 = Some (OText (genderText (gender row))) /\
        nth_error cells 3 = Some (OText (name row))).
Proof.
  unfold createOutputWorkbook. split; [|split].
  - simpl. now rewrite outputRowsFrom_length.
  - reflexivity.
  - intros i row H. exists (outputRow month (0 + Z.of_nat i) row).
    split; [simpl; now apply outputRowsFrom_nth|]. repeat split.
Qed.

Lemma X4_workbook_rows_witness :
  exists cells,
    nth_error (createOutputWorkbook (parseAttendanceSheet Sample.march) "03") 2
    = Some cells /\
    nth_error cells 0 = Some (ONumber 2) /\
    nth_error cells 1 = Some (OText "03/2").
Proof.
  destruct (proj2 (proj2 (X4_workbook_rows (parseAttendanceSheet Sample.march) "03"))
              1%nat (Sample.mkRow Nam "홍길동" "2" 8 0 0 0))
    as (cells & H & _ & H0 & H1 & _).
  - rewrite march_rows. reflexivity.
  - exists cells. split; [exact H|]. split; [exact H0|exact H1].
Defined.

(** ** Further properties of the walk over the data rows *)

Section MapMore.
Context {K V : Type} (eqb : K -> K -> bool).
Hypothesis eqb_eq : forall a b, eqb a b = true <-> a = b.

Lemma map_set_In (m : list (K * V)) (k : K) (v : V) (e : K * V) :
  In e (JS.map_set eqb m k v) -> In e m \/ e = (k, v).
Proof.
  induction m as [|[k' v'] m IH]; simpl.
  - intros [<-|[]]. now right.
  - destruct (eqb k k') eqn:E.
    + apply eqb_eq in E. subst. intros [<-|H]; [now right|left; now right].
    + intros [<-|H]; [left; now left|].
      destruct (IH H) as [H'|H']; [left; now right|now right].
Qed.

Lemma map_get_set_same (m : list (K * V)) (k : K) (v : V) :
  JS.map_get eqb (JS.map_set eqb m k v) k = Some v.
Proof.
  assert (R : eqb k k = true) by now apply eqb_eq.
  induction m as [|[k' v'] m IH]; simpl.
  - now rewrite R.
  - destruct (eqb k k') eqn:E; simpl; now rewrite E.
Qed.

Lemma map_get_set_other (m : list (K * V)) (k k0 : K) (v : V) :
  k0 <> k -> JS.map_get eqb (JS.map_set eqb m k v) k0 = JS.map_get eqb m k0.
Proof.
  intros N.
  assert (R : eqb k0 k = false).
  { destruct (eqb k0 k) eqn:E; [|reflexivity]. apply eqb_eq in E. contradiction. }
  induction m as [|[k' v'] m IH]; simpl.
  - now rewrite R.
  - destruct (eqb k k') eqn:E; simpl.
    + apply eqb_eq in E. subst. now rewrite R.
    + now rewrite IH.
Qed.

Lemma set_add_NoDup_gen (s : list K) (k : K) :
  NoDup s -> NoDup (JS.set_add eqb s k).
Proof.
  intros H. induction H as [|x s Hx Hs IH]; simpl.
  - constructor; [intros []|constructor].
  - destruct (eqb k x) eqn:E; [now constructor|].
    constructor; [|exact IH].
    rewrite (set_add_In eqb eqb_eq). intros [H|H]; [contradiction|].
    subst. assert (eqb k k = true) by now apply eqb_eq. congruence.
Qed.

Lemma set_add_fold_NoDup_gen (l s : list K) :
  NoDup s -> NoDup (fold_left (JS.set_add eqb) l s).
Proof.
  revert s. induction l as [|k l IH]; intros s H; simpl; [exact H|].
  apply IH. now apply set_add_NoDup_gen.
Qed.
End MapMore.

Lemma fold_left_preserves_In {A B : Type} (P : A -> Prop) (f : A -> B -> A)
    (l : list B) :
  (forall a b, In b l -> P a -> P (f a b)) -> forall a, P a -> P (fold_left f l a).
Proof.
  induction l as [|b l IH]; intros Hf a Ha; simpl; [exact Ha|].
  apply IH.
  - intros a' b' Hb. apply Hf. now right.
  - apply Hf; [now left|exact Ha].
Qed.

(** An invariant of the workers that reading a cell under one of the given
    date headers keeps. *)
Section WalkInvariantOn.
Variable dhs : list DateHeader.
Variable P : WorkerData -> Prop.
Hypothesis P_new : forall g n o, P (newWorker g n o).
Hypothesis P_read :
  forall categoryValue row w dh,
    In dh dhs -> P w -> P (readCell categoryValue row w dh).

Lemma recordHours_on categoryValue row ws key :
  Forall (fun kw => P (snd kw)) ws ->
  Forall (fun kw => P (snd kw)) (recordHours dhs categoryValue row ws key).
Proof.
  intros H. unfold recordHours.
  destruct (JS.map_get String.eqb ws key) as [worker|] eqn:G; [|exact H].
  apply (map_set_Forall String.eqb String.eqb_eq); [exact H|].
  simpl. apply fold_left_preserves_In.
  - intros a b Hb. now apply P_read.
  - apply (map_get_In String.eqb String.eqb_eq) in G.
    rewrite Forall_forall in H. exact (H _ G).
Qed.

Lemma dataRow_on (h : HeaderCols) (st : Walk) (row : Row) :
  Forall (fun kw => P (snd kw)) (workers st) ->
  Forall (fun kw => P (snd kw)) (workers (dataRow h dhs st row)).
Proof.
  intros Hst. unfold dataRow.
  destruct (_ || _)%bool; simpl; [exact Hst|].
  apply recordHours_on. unfold ensureWorker.
  destruct (JS.map_has String.eqb (workers st) _); simpl; [exact Hst|].
  apply (map_set_Forall String.eqb String.eqb_eq); [exact Hst|].
  simpl. apply P_new.
Qed.

Lemma walkRows_on (h : HeaderCols) (rows : list Row) :
  forall st,
    Forall (fun kw => P (snd kw)) (workers st) ->
    Forall (fun kw => P (snd kw)) (workers (walkRows h dhs rows st)).
Proof.
  unfold walkRows. induction rows as [|row rows IH]; intros st Hst; simpl.
  - exact Hst.
  - apply IH. now apply dataRow_on.
Qed.
End WalkInvariantOn.

Lemma setHours_entriesFrom (dhs : list DateHeader) (c : string) (dh : DateHeader)
    (x : Q) (w : WorkerData) :
  In dh dhs -> (0 < x)%Q -> entriesFrom dhs w ->
  entriesFrom dhs (setHours c (day dh) x w).
Proof.
  intros Hdh Hx Hw d v H.
  assert (New : (d, v) = (day dh, x) ->
                (0 < v)%Q /\ exists dh0, In dh0 dhs /\ day dh0 = d).
  { intros [= -> ->]. split; [exact Hx|]. now exists dh. }
  unfold setHours in H.
  destruct (String.eqb c "기본");
    [destruct (JS.includes canonicalHours x)|
     destruct (String.eqb c "연장");
     [|destruct (String.eqb c "주특"); [|destruct (String.eqb c "주휴")]]];
    simpl in H; try (now apply Hw);
    destruct H as [H|[H|[H|H]]];
    try (apply (map_set_In Z.eqb Z.eqb_eq) in H; destruct H as [H|H];
         [|now apply New]);
    apply Hw; tauto.
Qed.

Lemma readCell_entriesFrom (dhs : list DateHeader) (c : string) (row : Row)
    (w : WorkerData) (dh : DateHeader) :
  In dh dhs -> entriesFrom dhs w -> entriesFrom dhs (readCell c row w dh).
Proof.
  intros Hdh Hw. unfold readCell.
  destruct (hasValue _); [|exact Hw].
  destruct (JS.num_gtb _ 0) eqn:G; [|exact Hw].
  apply num_gtb_true in G. now apply setHours_entriesFrom.
Qed.

Lemma walkSheet_entriesFrom (ws : Worksheet) (k : string) (w : WorkerData) :
  In (k, w) (workers (walkSheet ws)) ->
  entriesFrom (dateHeadersOf ws (categoryColIndex (detectHeader ws))) w.
Proof.
  intros H.
  pose proof (walkRows_on
                (dateHeadersOf ws (categoryColIndex (detectHeader ws)))
                (entriesFrom (dateHeadersOf ws (categoryColIndex (detectHeader ws))))) as I.
  assert (F : Forall (fun kw => entriesFrom
                 (dateHeadersOf ws (categoryColIndex (detectHeader ws))) (snd kw))
                (workers (walkSheet ws))).
  { unfold walkSheet. apply I.
    - intros g n o d v [[]|[[]|[[]|[]]]].
    - intros c row w0 dh. apply readCell_entriesFrom.
    - constructor. }
  rewrite Forall_forall in F. exact (F _ H).
Qed.

(** X5. Every hour figure kept for a worker is positive and stands under the
    day of one of the sheet's date headers, in each of the four maps. *)
Theorem X5_stored_hours_positive (ws : Worksheet) (k : string) (w : WorkerData)
    (d : Z) (v : Q) :
  In (k, w) (workers (walkSheet ws)) ->
  In (d, v) (w_basicHours w) \/ In (d, v) (w_overtimeHours w) \/
  In (d, v) (w_weekendSpecialHours w) \/ In (d, v) (w_weeklyHolidayHours w) ->
  (0 < v)%Q /\
  exists dh,
    In dh (dateHeadersOf ws (categoryColIndex (detectHeader ws))) /\ day dh = d.
Proof.
  intros H. now apply (walkSheet_entriesFrom ws k w).
Qed.

Lemma X5_stored_hours_positive_witness :
  (0 < 3)%Q /\
  exists dh,
    In dh (dateHeadersOf Sample.twoWorkers
             (categoryColIndex (detectHeader Sample.twoWorkers))) /\ day dh = 3.
Proof.
  apply (X5_stored_hours_positive Sample.twoWorkers "남-하준" Sample.hajun 3 3%Q).
  - rewrite twoWorkers_workers. left. reflexivity.
  - right. left. right. left. reflexivity.
Defined.

Lemma nth_error_map_fst {A B : Type} (l : list (A * B)) (i : nat) (a : A) (b : B) :
  nth_error l i = Some (a, b) -> nth_error (map fst l) i = Some a.
Proof.
  intros H. rewrite nth_error_map, H. reflexivity.
Qed.

(** X6. The workers map holds one accumulator for each (gender, name) pair:
    two entries with the same gender and name are the same entry.  The
    [i]-th entry (from 0) carries the order [i], and the counter is the
    number of entries. *)
Theorem X6_one_worker_per_pair (ws : Worksheet) :
  (forall i j k1 w1 k2 w2,
      nth_error (workers (walkSheet ws)) i = Some (k1, w1) ->
      nth_error (workers (walkSheet ws)) j = Some (k2, w2) ->
      w_gender w1 = w_gender w2 -> w_name w1 = w_name w2 -> i = j) /\
  (forall i k w,
      nth_error (workers (walkSheet ws)) i = Some (k, w) ->
      w_order w = Z.of_nat i /\ k = workerKeyOf (w_gender w) (w_name w)) /\
  workerOrder (walkSheet ws) = Z.of_nat (List.length (workers (walkSheet ws))).
Proof.
  destruct (walkSheet_ordersOk ws) as [O C].
  split; [|split; [|exact C]].
  - intros i j k1 w1 k2 w2 Hi Hj Eg En.
    pose proof (workers_key ws _ _ (nth_error_In _ _ Hi)) as K1.
    pose proof (workers_key ws _ _ (nth_error_In _ _ Hj)) as K2.
    assert (E : k1 = k2) by congruence.
    apply nth_error_map_fst in Hi, Hj. rewrite E in Hi.
    apply (proj1 (NoDup_nth_error _) (workers_NoDup ws)); [|congruence].
    apply nth_error_Some. congruence.
  - intros i k w Hi. split; [|exact (workers_key ws _ _ (nth_error_In _ _ Hi))].
    assert (M : nth_error (map (fun kw => w_order (snd kw)) (workers (walkSheet ws))) i
                = Some (w_order w))
      by (rewrite nth_error_map, Hi; reflexivity).
    rewrite O, nth_error_map in M.
    destruct (nth_error (seq 0 _) i) as [n|] eqn:S; [|discriminate].
    assert (L : (i < List.length (seq 0 (List.length (workers (walkSheet ws)))))%nat)
      by (apply nth_error_Some; congruence).
    rewrite length_seq in L.
    pose proof (nth_error_nth _ _ 0%nat S) as N. rewrite seq_nth in N by exact L.
    simpl in M. injection M as <-. simpl in N. now rewrite N.
Qed.

Lemma X6_one_worker_per_pair_witness :
  w_order Sample.gaeun = 1 /\ "여-가은" = workerKeyOf Yeo "가은".
Proof.
  apply (proj1 (proj2 (X6_one_worker_per_pair Sample.twoWorkers)) 1%nat
           "여-가은" Sample.gaeun).
  rewrite twoWorkers_workers. reflexivity.
Defined.

Lemma recognizedKeys_none (h : HeaderCols) (rows : list Row) :
  Forall (fun row => isCategory (cellText (getCell row (categoryColIndex h))) = false)
    rows ->
  forall g n, Spec.recognizedKeys h rows g n = [].
Proof.
  induction 1 as [|row rows Hrow _ IH]; intros g n; simpl; [reflexivity|].
  rewrite Hrow, orb_true_r. apply IH.
Qed.

Lemma recognizedKeys_unnamed (h : HeaderCols) (rows : list Row) :
  Forall (fun row => cellText (getCell row (nameColIndex h)) = "") rows ->
  forall g, Spec.recognizedKeys h rows g "" = [].
Proof.
  induction 1 as [|row rows Hrow _ IH]; intros g; simpl; [reflexivity|].
  rewrite Hrow. simpl. apply IH.
Qed.

Lemma no_keys_no_rows (ws : Worksheet) :
  Spec.discoveryOrder ws = [] -> parseAttendanceSheet ws = [].
Proof.
  intros H. unfold parseAttendanceSheet, sortedTempRows.
  rewrite <- walkSheet_keys in H.
  destruct (workers (walkSheet ws)); [reflexivity|discriminate H].
Qed.

(** X7. When no data row holds one of the four category codes, or when no
    data row holds a name, no row is returned. *)
Theorem X7_nothing_recognized (ws : Worksheet) :
  let h := detectHeader ws in
  (Forall (fun row => isCategory (cellText (getCell row (categoryColIndex h))) = false)
     (dataRows h ws) ->
   parseAttendanceSheet ws = []) /\
  (Forall (fun row => cellText (getCell row (nameColIndex h)) = "") (dataRows h ws) ->
   parseAttendanceSheet ws = []).
Proof.
  intros h. split; intros H; apply no_keys_no_rows; unfold Spec.discoveryOrder;
    fold h.
  - now rewrite recognizedKeys_none.
  - now rewrite recognizedKeys_unnamed.
Qed.

Lemma X7_nothing_recognized_witness : parseAttendanceSheet Sample.noCodes = [].
Proof.
  apply (proj1 (X7_nothing_recognized Sample.noCodes)).
  repeat constructor.
Defined.

Lemma hoursAt_stored (ws : Worksheet) (k : string) (w : WorkerData)
    (m : list (Z * Q)) (d : Z) :
  In (k, w) (workers (walkSheet ws)) ->
  m = w_basicHours w \/ m = w_overtimeHours w \/
  m = w_weekendSpecialHours w \/ m = w_weeklyHolidayHours w ->
  JS.map_get Z.eqb m d <> None -> (0 < hoursAt m d)%Q.
Proof.
  intros Hin Hm Hd. unfold hoursAt.
  destruct (JS.map_get Z.eqb m d) as [v|] eqn:G; [|contradiction].
  apply (map_get_In Z.eqb Z.eqb_eq) in G.
  apply (walkSheet_entriesFrom ws k w Hin d v).
  destruct Hm as [ -> | [ -> | [ -> | -> ] ] ]; tauto.
Qed.

Lemma allDaysOf_complete (w : WorkerData) (d : Z) :
  JS.map_get Z.eqb (w_basicHours w) d <> None \/
  JS.map_get Z.eqb (w_weekendSpecialHours w) d <> None \/
  JS.map_get Z.eqb (w_weeklyHolidayHours w) d <> None ->
  In d (allDaysOf w).
Proof.
  unfold allDaysOf, keysOf.
  rewrite !(set_add_fold_In Z.eqb Z.eqb_eq). simpl.
  rewrite !(map_get_None Z.eqb Z.eqb_eq).
  intros [H|[H|H]].
  - left. left. right.
    destruct (in_dec Z.eq_dec d (map fst (w_basicHours w))); tauto.
  - left. right.
    destruct (in_dec Z.eq_dec d (map fst (w_weekendSpecialHours w))); tauto.
  - right.
    destruct (in_dec Z.eq_dec d (map fst (w_weeklyHolidayHours w))); tauto.
Qed.

(** X8. Nothing kept is lost: for every worker and every day on which the
    worker has basic, weekend-special or weekly-holiday hours, the rows
    returned hold the row of that worker and day, carrying the four hour
    figures kept for the day (0 where a map has none). *)
Theorem X8_every_day_returned (ws : Worksheet) (k : string) (w : WorkerData) (d : Z) :
  In (k, w) (workers (walkSheet ws)) ->
  JS.map_get Z.eqb (w_basicHours w) d <> None \/
  JS.map_get Z.eqb (w_weekendSpecialHours w) d <> None \/
  JS.map_get Z.eqb (w_weeklyHolidayHours w) d <> None ->
  In {| gender := w_gender w; name := w_name w; date := JS.String_of_int d;
        basicHours := hoursAt (w_basicHours w) d;
        overtimeHours := hoursAt (w_overtimeHours w) d;
        weekendSpecialHours := hoursAt (w_weekendSpecialHours w) d;
        weeklyHolidayHours := hoursAt (w_weeklyHolidayHours w) d |}
     (parseAttendanceSheet ws).
Proof.
  intros Hin Hd.
  unfold parseAttendanceSheet, sortedTempRows. apply in_map_iff.
  exists {| t_row :=
              {| gender := w_gender w; name := w_name w; date := JS.String_of_int d;
                 basicHours := hoursAt (w_basicHours w) d;
                 overtimeHours := hoursAt (w_overtimeHours w) d;
                 weekendSpecialHours := hoursAt (w_weekendSpecialHours w) d;
                 weeklyHolidayHours := hoursAt (w_weeklyHolidayHours w) d |};
            t_workerOrder := w_order w |}.
  split; [reflexivity|]. apply sort_In.
  unfold tempRowsOf. apply in_flat_map. exists (k, w). split; [exact Hin|].
  unfold workerRows. apply in_flat_map. exists d.
  split; [now apply allDaysOf_complete|].
  unfold dayRows.
  assert (G : (JS.num_gtb (hoursAt (w_basicHours w) d) 0
               || JS.num_gtb (hoursAt (w_weekendSpecialHours w) d) 0
               || JS.num_gtb (hoursAt (w_weeklyHolidayHours w) d) 0)%bool = true).
  { rewrite !orb_true_iff, !num_gtb_true.
    destruct Hd as [H|[H|H]].
    - left. left. apply (hoursAt_stored ws k w); auto.
    - left. right. apply (hoursAt_stored ws k w); auto.
    - right. apply (hoursAt_stored ws k w); auto. }
  cbv zeta. cbn [snd]. rewrite G. now left.
Qed.

Lemma X8_every_day_returned_witness :
  In (Sample.mkRow Yeo "가은" "3" 0 0 4 0) (parseAttendanceSheet Sample.twoWorkers).
Proof.
  apply (X8_every_day_returned Sample.twoWorkers "여-가은" Sample.gaeun 3).
  - rewrite twoWorkers_workers. right. left. reflexivity.
  - right. left. discriminate.
Defined.

Lemma allDaysOf_NoDup (w : WorkerData) : NoDup (allDaysOf w).
Proof.
  unfold allDaysOf.
  repeat apply (set_add_fold_NoDup_gen Z.eqb Z.eqb_eq). constructor.
Qed.

Lemma workerRows_keys (w : WorkerData) (l : list Z) (t : TempRow) :
  In t (flat_map (dayRows w) l) ->
  exists d, In d l /\ rowKey (t_row t) = (w_gender w, w_name w, JS.String_of_int d).
Proof.
  rewrite in_flat_map. intros (d & Hd & H). exists d. split; [exact Hd|].
  apply dayRows_In in H. destruct H as (G & N & D & _).
  unfold rowKey. now rewrite G, N, D.
Qed.

Lemma workerRows_NoDup (w : WorkerData) (l : list Z) :
  NoDup l -> NoDup (map (fun t => rowKey (t_row t)) (flat_map (dayRows w) l)).
Proof.
  induction 1 as [|d l Hd Hl IH]; simpl; [constructor|].
  rewrite map_app. apply NoDup_app; [| exact IH |].
  - unfold dayRows. destruct (_ || _ || _)%bool; simpl; repeat constructor.
    intros [].
  - intros key H1 H2. apply in_map_iff in H1, H2.
    destruct H1 as (t1 & <- & H1). destruct H2 as (t2 & E & H2).
    apply dayRows_In in H1. destruct H1 as (G1 & N1 & D1 & _).
    apply workerRows_keys in H2. destruct H2 as (d' & Hd' & K).
    rewrite K in E. unfold rowKey in E. rewrite D1 in E.
    injection E as _ _ E. apply String_of_int_inj in E. subst. contradiction.
Qed.

Lemma tempRows_NoDup (ws : list (string * WorkerData)) :
  NoDup (map fst ws) ->
  Forall (fun kw => fst kw = workerKeyOf (w_gender (snd kw)) (w_name (snd kw))) ws ->
  NoDup (map (fun t => rowKey (t_row t)) (tempRowsOf ws)).
Proof.
  induction ws as [|[k w] ws IH]; intros N F; simpl; [constructor|].
  inversion N as [|? ? Nk Nws]; subst. inversion F as [|? ? Fk Fws]; subst.
  simpl in Fk. rewrite map_app. apply NoDup_app.
  - apply workerRows_NoDup. apply allDaysOf_NoDup.
  - now apply IH.
  - intros key H1 H2. apply in_map_iff in H1, H2.
    destruct H1 as (t1 & <- & H1). destruct H2 as (t2 & E & H2).
    apply workerRows_keys in H1. destruct H1 as (d1 & _ & K1).
    apply tempRows_In in H2. destruct H2 as (k2 & w2 & d2 & Hin & _ & H2).
    apply dayRows_In in H2. destruct H2 as (G2 & N2 & _).
    rewrite K1 in E. unfold rowKey in E. rewrite G2, N2 in E.
    injection E as Eg En _.
    rewrite Forall_forall in Fws. specialize (Fws _ Hin). simpl in Fws.
    apply Nk. rewrite Fk, <- Eg, <- En, <- Fws.
    now apply (in_map fst) in Hin.
Qed.

(** X9. No two rows returned have the same gender, name and date: a worker
    has at most one row for a day. *)
Theorem X9_one_row_per_worker_day (ws : Worksheet) :
  NoDup (map rowKey (parseAttendanceSheet ws)).
Proof.
  unfold parseAttendanceSheet, sortedTempRows. rewrite map_map.
  apply (Permutation_NoDup
           (l := map (fun t => rowKey (t_row t)) (tempRowsOf (workers (walkSheet ws))))).
  - apply Permutation_map. symmetry. apply sort_perm.
  - apply tempRows_NoDup; [apply workers_NoDup|].
    apply Forall_forall. intros [k w] H. simpl. now apply (workers_key ws).
Qed.

(** X10. Reading a cell that holds a positive number under a date header
    makes that number the day's figure in the map of the row's category
    (for 기본 only when the number is 8, 6, 2.5 or 1), replacing what the map
    held for the day; the figures of every other day stay as they were. *)
Theorem X10_read_then_get (c : string) (row : Row) (w : WorkerData) (dh : DateHeader) :
  let cell := getCell row (col dh) in
  let x := numValueOf cell in
  let w' := readCell c row w dh in
  hasValue cell = true -> (0 < x)%Q ->
  (c = "기본" -> Spec.canonical x -> hoursAt (w_basicHours w') (day dh) = x) /\
  (c = "연장" -> hoursAt (w_overtimeHours w') (day dh) = x) /\
  (c = "주특" -> hoursAt (w_weekendSpecialHours w') (day dh) = x) /\
  (c = "주휴" -> hoursAt (w_weeklyHolidayHours w') (day dh) = x) /\
  (forall d, d <> day dh ->
     hoursAt (w_basicHours w') d = hoursAt (w_basicHours w) d /\
     hoursAt (w_overtimeHours w') d = hoursAt (w_overtimeHours w) d /\
     hoursAt (w_weekendSpecialHours w') d = hoursAt (w_weekendSpecialHours w) d /\
     hoursAt (w_weeklyHolidayHours w') d = hoursAt (w_weeklyHolidayHours w) d).
Proof.
  intros cell x w' Hv Hx.
  assert (E : w' = setHours c (day dh) x w).
  { unfold w', readCell. fold cell. rewrite Hv. fold x.
    now rewrite (proj2 (num_gtb_true x 0) Hx). }
  rewrite E. clear E. unfold hoursAt.
  split; [|split; [|split; [|split]]].
  - intros -> Hc. unfold setHours. rewrite String.eqb_refl.
    rewrite (proj2 (includes_canonical x) Hc). simpl.
    now rewrite (map_get_set_same Z.eqb Z.eqb_eq).
  - intros ->. simpl. now rewrite (map_get_set_same Z.eqb Z.eqb_eq).
  - intros ->. simpl. now rewrite (map_get_set_same Z.eqb Z.eqb_eq).
  - intros ->. simpl. now rewrite (map_get_set_same Z.eqb Z.eqb_eq).
  - intros d Hd. unfold setHours.
    destruct (String.eqb c "기본");
      [destruct (JS.includes canonicalHours x)|
       destruct (String.eqb c "연장");
       [|destruct (String.eqb c "주특"); [|destruct (String.eqb c "주휴")]]];
      simpl; rewrite ?(map_get_set_other Z.eqb Z.eqb_eq) by exact Hd;
      repeat split.
Qed.

Lemma X10_read_then_get_witness :
  hoursAt (w_overtimeHours
             (readCell "연장" [VString " 2.5시간"] Sample.hajun {| col := 1; day := 1 |})) 1
  = 2.5%Q /\
  hoursAt (w_basicHours
             (readCell "기본" [VNumber 6] Sample.hajun {| col := 1; day := 1 |})) 1
  = 6%Q.
Proof.
  split.
  - apply (proj1 (proj2 (X10_read_then_get "연장" [VString " 2.5시간"] Sample.hajun
                           {| col := 1; day := 1 |} eq_refl eq_refl))).
    reflexivity.
  - apply (proj1 (X10_read_then_get "기본" [VNumber 6] Sample.hajun
                    {| col := 1; day := 1 |} eq_refl eq_refl)).
    + reflexivity.
    + right. left. reflexivity.
Defined.

(** X11. A cell stores nothing unless it is a number, or text that starts
    with a number, above 0: an empty cell, a boolean, a date, rich text, a
    formula, text without a leading number (the literal Infinity apart) and
    any value that is not positive leave the worker as it was, under every
    category. *)
Theorem X11_cell_ignored (c : string) (row : Row) (w : WorkerData) (dh : DateHeader) :
  match getCell row (col dh) with
  | VNumber x => (x <= 0)%Q
  | VString s =>
      readsInfinity s = false /\
      match JS.parseFloat s with
      | Some x => (x <= 0)%Q
      | None => True
      end
  | _ => True
  end ->
  readCell c row w dh = w.
Proof.
  unfold readCell. destruct (getCell row (col dh)) as [|x|s|b|d|runs|];
    intros H; simpl; try reflexivity.
  - now rewrite (proj2 (num_gtb_false x 0) H).
  - destruct H as [_ H]. destruct s as [|a s]; [reflexivity|].
    destruct (JS.parseFloat (String a s)) as [x|].
    + now rewrite (proj2 (num_gtb_false x 0) H).
    + reflexivity.
Qed.

Lemma X11_cell_ignored_witness :
  readCell "연장" [VRichText ["8"]] Sample.hajun {| col := 1; day := 1 |} = Sample.hajun /\
  readCell "연장" [VString "결근"] Sample.hajun {| col := 1; day := 1 |} = Sample.hajun /\
  readCell "연장" [VNumber (-2)] Sample.hajun {| col := 1; day := 1 |} = Sample.hajun.
Proof.
  split; [|split].
  - apply (X11_cell_ignored "연장" [VRichText ["8"]] Sample.hajun {| col := 1; day := 1 |}).
    exact I.
  - apply (X11_cell_ignored "연장" [VString "결근"] Sample.hajun {| col := 1; day := 1 |}).
    split; [reflexivity|exact I].
  - apply (X11_cell_ignored "연장" [VNumber (-2)] Sample.hajun {| col := 1; day := 1 |}).
    discriminate.
Defined.

Lemma map_set_keeps {V : Type} (m : list (string * V)) (k k0 : string) (v v0 : V) :
  In (k, v) m -> k <> k0 -> In (k, v) (JS.map_set String.eqb m k0 v0).
Proof.
  intros H N. induction m as [|[k' v'] m IH]; simpl in *; [contradiction|].
  destruct (String.eqb_spec k0 k') as [->|_].
  - destruct H as [[= -> ->]|H]; [contradiction|now right].
  - destruct H as [H|H]; [now left|right; now apply IH].
Qed.

(** X12. A row writes into the accumulator of its own worker only: every
    entry of another (gender, name) pair is in the map afterwards exactly as
    it was before. *)
Theorem X12_other_workers_untouched (h : HeaderCols) (dhs : list DateHeader)
    (st : Walk) (row : Row) (k : string) (w : WorkerData) :
  let st' := dataRow h dhs st row in
  In (k, w) (workers st) ->
  k = workerKeyOf (w_gender w) (w_name w) ->
  (w_gender w, w_name w) <> (currentGender st', currentName st') ->
  In (k, w) (workers st').
Proof.
  intros st' Hin Hk Hne.
  destruct (dataRow_cursor h dhs st row) as [G N]. fold st' in G, N.
  unfold st', dataRow in *.
  set (g := nextGender _ _) in *. set (n := nextName _ _) in *.
  destruct (_ || _)%bool; simpl in *; [exact Hin|].
  assert (K : k <> workerKeyOf g n).
  { intros E. rewrite Hk in E. apply workerKeyOf_inj in E. destruct E as [Eg En].
    apply Hne. now rewrite Eg, En. }
  assert (H1 : In (k, w) (fst (ensureWorker (workers st) (workerOrder st) g n))).
  { unfold ensureWorker. destruct (JS.map_has _ _ _); simpl; [exact Hin|].
    now apply map_set_keeps. }
  unfold recordHours.
  destruct (JS.map_get String.eqb _ (workerKeyOf g n)); [|exact H1].
  now apply map_set_keeps.
Qed.

Lemma X12_other_workers_untouched_witness :
  In ("남-하준", Sample.hajun)
     (workers
        (dataRow (detectHeader Sample.twoWorkers)
           [ {| col := 4; day := 1 |} ]
           {| workers := [ ("남-하준", Sample.hajun) ]; currentGender := Nam;
              currentName := "하준"; workerOrder := 1 |}
           [ VString "여"; VString "가은"; VString "기본"; VNumber 8 ])).
Proof.
  apply (X12_other_workers_untouched (detectHeader Sample.twoWorkers)
           [ {| col := 4; day := 1 |} ]
           {| workers := [ ("남-하준", Sample.hajun) ]; currentGender := Nam;
              currentName := "하준"; workerOrder := 1 |}
           [ VString "여"; VString "가은"; VString "기본"; VNumber 8 ]
           "남-하준" Sample.hajun).
  - left. reflexivity.
  - reflexivity.
  - intros E. vm_compute in E. discriminate E.
Defined.

(** ** Further properties of the header and date scans *)

Lemma rowCells_In (rn : Z) (row : Row) :
  forall c0 r c v,
    In (r, c, v) (Spec.rowCells rn c0 row) -> r = rn /\ c0 <= c /\ In v row.
Proof.
  induction row as [|v0 row IH]; intros c0 r c v; simpl; [intros []|].
  intros [[= <- <- <-]|H].
  - repeat split; [lia|now left].
  - destruct (IH _ _ _ _ H) as (-> & L & I). repeat split; [lia|now right].
Qed.

Lemma sheetCells_In (rows : list Row) :
  forall rn r c v,
    In (r, c, v) (Spec.sheetCells rn rows) ->
    rn <= r < rn + Z.of_nat (List.length rows) /\ 1 <= c /\
    exists row, In row rows /\ In v row.
Proof.
  induction rows as [|row rows IH]; intros rn r c v; simpl; [intros []|].
  rewrite in_app_iff. intros [H|H].
  - apply rowCells_In in H. destruct H as (-> & L & I).
    repeat split; try lia. exists row. split; [now left|exact I].
  - destruct (IH _ _ _ _ H) as (B & L & row' & I1 & I2).
    repeat split; try lia. exists row'. split; [now right|exact I2].
Qed.

Lemma In_firstn {A : Type} (n : nat) (l : list A) (x : A) :
  In x (firstn n l) -> In x l.
Proof.
  intros H. rewrite <- (firstn_skipn n l). apply in_or_app. now left.
Qed.

(** What the scan leaves in a field: -1, or the place of a labelled cell
    among those read. *)
Lemma scanned_field (ws : Worksheet) (labels : list string) :
  match find (Spec.isLabel labels) (rev (Spec.scannedCells ws)) with
  | Some p =>
      1 <= fst (fst p) <= Z.min 15 (rowCount ws) /\ 1 <= snd (fst p) /\
      exists row, In row (firstn 15 ws) /\ In (snd p) row /\
                  Spec.hasLabel labels (snd p) = true
  | None => True
  end.
Proof.
  destruct (find _ _) as [[[r c] v]|] eqn:F; [|exact I].
  apply find_some in F. destruct F as [Hin Hl]. apply in_rev in Hin.
  unfold Spec.scannedCells in Hin. apply sheetCells_In in Hin.
  destruct Hin as (B & L & row & I1 & I2). simpl.
  pose proof (scannedCount_bound (firstn 15 ws)) as C.
  rewrite !length_firstn in B. rewrite length_firstn in C. unfold rowCount.
  split; [lia|]. split; [exact L|].
  exists row. split; [|split; [exact I2|exact Hl]].
  now apply In_firstn in I1.
Qed.

Lemma scanHeader_fields (ws : Worksheet) :
  let found := fun labels =>
    find (Spec.isLabel labels) (rev (Spec.scannedCells ws)) in
  genderColIndex (scanHeader ws)
  = match found Spec.genderLabels with Some p => snd (fst p) | None => -1 end /\
  headerRowIndex (scanHeader ws)
  = match found Spec.genderLabels with Some p => fst (fst p) | None => -1 end /\
  nameColIndex (scanHeader ws)
  = match found Spec.nameLabels with Some p => snd (fst p) | None => -1 end /\
  categoryColIndex (scanHeader ws)
  = match found Spec.categoryLabels with Some p => snd (fst p) | None => -1 end.
Proof.
  intros found. unfold found. rewrite scanHeader_fold.
  split; [|split; [|split]].
  - apply (fold_last genderColIndex (fun p => snd (fst p)) Spec.genderLabels
             (fun h p => proj1 (placeCell_gender h p))).
  - apply (fold_last headerRowIndex (fun p => fst (fst p)) Spec.genderLabels
             (fun h p => proj2 (placeCell_gender h p))).
  - apply (fold_last nameColIndex (fun p => snd (fst p)) Spec.nameLabels
             placeCell_name).
  - apply (fold_last categoryColIndex (fun p => snd (fst p)) Spec.categoryLabels
             placeCell_category).
Qed.

(** X13. Header detection always returns usable indices: the three columns
    are at least 1, and the header row lies between 1 and the last row the
    scan may read ([min(15, rowCount)], or 1 on an empty sheet). *)
Theorem X13_header_indices_in_range (ws : Worksheet) :
  let h := detectHeader ws in
  1 <= genderColIndex h /\ 1 <= nameColIndex h /\ 1 <= categoryColIndex h /\
  1 <= headerRowIndex h <= Z.max 1 (Z.min 15 (rowCount ws)).
Proof.
  intros h. unfold h, detectHeader, headerDefaults. cbn [genderColIndex
    nameColIndex categoryColIndex headerRowIndex].
  destruct (scanHeader_fields ws) as (G & R & N & C).
  rewrite G, R, N, C.
  pose proof (scanned_field ws Spec.genderLabels) as Fg.
  pose proof (scanned_field ws Spec.nameLabels) as Fn.
  pose proof (scanned_field ws Spec.categoryLabels) as Fc.
  destruct (find (Spec.isLabel Spec.genderLabels) _) as [pg|];
    destruct (find (Spec.isLabel Spec.nameLabels) _) as [pn|];
    destruct (find (Spec.isLabel Spec.categoryLabels) _) as [pc|];
    repeat match goal with
           | H : _ /\ _ |- _ => destruct H
           | H : exists _, _ |- _ => clear H
           end;
    repeat match goal with
           | |- context [?x =? -1] => destruct (Z.eqb_spec x (-1))
           end;
    lia.
Qed.

(** X14. A field whose label occurs nowhere in the first 15 rows gets its
    default: gender column 1, name column 2, category column 3.  The header
    row follows the gender label alone: without a cell 성별 it is row 1,
    wherever the other labels stand. *)
Theorem X14_header_defaults (ws : Worksheet) :
  let absent := fun labels =>
    Forall (fun row => existsb (Spec.hasLabel labels) row = false) (firstn 15 ws) in
  let h := detectHeader ws in
  (absent Spec.genderLabels -> genderColIndex h = 1 /\ headerRowIndex h = 1) /\
  (absent Spec.nameLabels -> nameColIndex h = 2) /\
  (absent Spec.categoryLabels -> categoryColIndex h = 3).
Proof.
  intros absent h.
  assert (None_ : forall labels,
             absent labels ->
             find (Spec.isLabel labels) (rev (Spec.scannedCells ws)) = None).
  { intros labels A. pose proof (scanned_field ws labels) as F.
    destruct (find _ _) as [p|]; [|reflexivity].
    destruct F as (_ & _ & row & I1 & I2 & L).
    unfold absent in A. rewrite Forall_forall in A. specialize (A _ I1).
    assert (T : existsb (Spec.hasLabel labels) row = true)
      by (apply existsb_exists; now exists (snd p)).
    congruence. }
  unfold h, detectHeader, headerDefaults. cbn [genderColIndex
    nameColIndex categoryColIndex headerRowIndex].
  destruct (scanHeader_fields ws) as (G & R & N & C).
  split; [|split]; intros A; rewrite ?G, ?R, ?N, ?C, (None_ _ A); now repeat split.
Qed.

Lemma X14_header_defaults_witness :
  detectHeader Sample.noGender
  = {| genderColIndex := 1; nameColIndex := 3;
       categoryColIndex := 4; headerRowIndex := 1 |}.
Proof.
  destruct (proj1 (X14_header_defaults Sample.noGender)) as [G R].
  - repeat constructor.
  - reflexivity.
Defined.

Lemma eachCell_preserves_In {S : Type} (P : S -> Prop)
    (f : CellValue -> Z -> S -> S) (cells : Row) :
  (forall v c s, In v cells -> P s -> P (f v c s)) ->
  forall c s, P s -> P (eachCell f c cells s).
Proof.
  induction cells as [|v cells IH]; intros H c s Hs; simpl; [exact Hs|].
  apply IH.
  - intros v' c' s' Hv. apply H. now right.
  - destruct v; trivial; apply H; trivial; now left.
Qed.

Lemma dateLoop_preserves (P : list DateHeader -> Prop) (cat : Z) (rows : list Row) :
  (forall row v c hs, In row rows -> In v row -> P hs -> P (dateCell cat v c hs)) ->
  forall hs, P hs -> P (dateLoop cat rows hs).
Proof.
  induction rows as [|row rows IH]; intros H hs Hs; simpl; [exact Hs|].
  assert (P' : P (eachCell (dateCell cat) 1 row hs)).
  { apply eachCell_preserves_In; [|exact Hs].
    intros v c s Hv. apply (H row); [now left|exact Hv]. }
  destruct (10 <=? _); [exact P'|].
  apply IH; [|exact P'].
  intros row' v c hs' Hr. apply H. now right.
Qed.

Lemma dateCell_inDateRange (cat : Z) (v : CellValue) (c : Z) (hs : list DateHeader) :
  inDateRange cat hs -> inDateRange cat (dateCell cat v c hs).
Proof.
  intros F. unfold dateCell.
  destruct (_ && _)%bool eqn:G; [|exact F].
  apply andb_true_iff in G. destruct G as [G1 G2].
  apply Z.ltb_lt in G1. apply Z.leb_le in G2.
  assert (Push : forall hs0 d, inDateRange cat hs0 ->
                               inDateRange cat (pushHeader hs0 c d)).
  { intros hs0 d F0. unfold pushHeader. destruct (someCol hs0 c); [exact F0|].
    apply Forall_app. split; [exact F0|]. repeat constructor; simpl; lia. }
  assert (F1 : inDateRange cat (snd (dateCellValue v c hs))).
  { unfold dateCellValue. destruct v; simpl; trivial. now apply Push. }
  destruct (dateCellValue v c hs) as [value hs1]. simpl in F1.
  destruct (matchMD _) as [g2|].
  - destruct (JS.parseInt _); [|exact F1]. now apply Push.
  - destruct (matchBare _) as [g1|]; [|exact F1].
    destruct (JS.parseInt _) as [d|]; [|exact F1].
    destruct (_ && _ && _)%bool; [|exact F1].
    apply Forall_app. split; [exact F1|]. repeat constructor; simpl; lia.
Qed.

Lemma sorted_strict (hs : list DateHeader) :
  StronglySorted (fun a b => col a <= col b) hs -> NoDup (map col hs) ->
  StronglySorted (fun a b => col a < col b) hs.
Proof.
  induction 1 as [|a l S IH F]; intros N; simpl in *; constructor.
  - apply IH. now inversion N.
  - inversion N as [|? ? Na Nl]; subst.
    rewrite Forall_forall in *. intros b Hb.
    specialize (F b Hb).
    assert (col a <> col b).
    { intros E. apply Na. rewrite E. now apply in_map. }
    lia.
Qed.

(** X15. The date headers returned have strictly increasing columns, all
    among the 35 columns after the category column, so there are at most 35
    of them. *)
Theorem X15_date_headers_ordered (ws : Worksheet) (cat : Z) :
  StronglySorted (fun a b => col a < col b) (dateHeadersOf ws cat) /\
  Forall (fun h => cat < col h <= cat + 35) (dateHeadersOf ws cat) /\
  (List.length (dateHeadersOf ws cat) <= 35)%nat.
Proof.
  assert (R : inDateRange cat (dateHeadersOf ws cat)).
  { unfold inDateRange, dateHeadersOf.
    apply Forall_forall. intros h Hh. apply (proj1 (sort_In _ _ _)) in Hh.
    revert h Hh. apply Forall_forall.
    apply (dateLoop_preserves (inDateRange cat)); [|constructor].
    intros row v c hs _ _. apply dateCell_inDateRange. }
  split; [|split; [exact R|]].
  - apply sorted_strict; [|apply dateHeaders_oneDayPerColumn].
    unfold dateHeadersOf.
    apply (sort_sorted (fun a b => col a - col b) (fun _ => True)
             (fun a b => col a <= col b)).
    + intros a b _ _. lia.
    + intros a b _ _. lia.
    + intros a b c _ _ _. lia.
    + apply Forall_forall. intros; exact I.
  - pose proof (dateHeaders_oneDayPerColumn ws cat) as N.
    unfold oneDayPerColumn in N.
    rewrite <- (length_map col).
    replace 35%nat with (List.length (map (fun i => cat + 1 + Z.of_nat i) (seq 0 35)))
      by (now rewrite length_map, length_seq).
    apply NoDup_incl_length; [exact N|].
    intros c Hc. apply in_map_iff in Hc. destruct Hc as (h & <- & Hh).
    unfold inDateRange in R. rewrite Forall_forall in R. specialize (R _ Hh).
    apply in_map_iff. exists (Z.to_nat (col h - cat - 1)). split; [lia|].
    apply in_seq. lia.
Qed.

Lemma digit_cases (a : ascii) :
  JS.isDigit a = true ->
  In a ["0"; "1"; "2"; "3"; "4"; "5"; "6"; "7"; "8"; "9"]%char.
Proof.
  destruct a as [[] [] [] [] [] [] [] []]; intros H;
    try discriminate H; simpl; tauto.
Qed.







Lemma dateCell_extends (cat : Z) (v : CellValue) (c : Z) (hs : list DateHeader) :
  exists more, dateCell cat v c hs = hs ++ more.
Proof.
  assert (Push : forall hs0 d, (exists m0, hs0 = hs ++ m0) ->
                               exists m1, pushHeader hs0 c d = hs ++ m1).
  { intros hs0 d [m0 ->]. unfold pushHeader.
    destruct (someCol _ c); [now exists m0|].
    rewrite <- app_assoc. eexists. reflexivity. }
  unfold dateCell.
  destruct (_ && _)%bool; [|exists []; now rewrite app_nil_r].
  assert (E1 : exists m0, snd (dateCellValue v c hs) = hs ++ m0).
  { unfold dateCellValue.
    destruct v; simpl; try (exists []; now rewrite app_nil_r).
    apply Push. exists []. now rewrite app_nil_r. }
  destruct (dateCellValue v c hs) as [value hs1]. simpl in E1.
  destruct (matchMD _) as [g2|].
  - destruct (JS.parseInt _); [now apply Push|exact E1].
  - destruct (matchBare _) as [g1|]; [|exact E1].
    destruct (JS.parseInt _) as [d|]; [|exact E1].
    destruct (_ && _ && _)%bool; [|exact E1].
    destruct E1 as [m0 ->]. rewrite <- app_assoc. eexists. reflexivity.
Qed.

Lemma eachCell_extends (cat : Z) (row : Row) :
  forall c hs, exists more, eachCell (dateCell cat) c row hs = hs ++ more.
Proof.
  induction row as [|v row IH]; intros c hs; simpl.
  - exists []. now rewrite app_nil_r.
  - destruct (dateCell_extends cat v c hs) as [m1 E1].
    assert (E : exists m, match v with
                          | VNull => hs
                          | _ => dateCell cat v c hs
                          end = hs ++ m).
    { destruct v; try (now exists m1). exists []. now rewrite app_nil_r. }
    destruct E as [m ->].
    destruct (IH (c + 1) (hs ++ m)) as [m2 ->].
    rewrite <- app_assoc. eexists. reflexivity.
Qed.

Lemma dateLoop_extends (cat : Z) (rows : list Row) :
  forall hs, exists more, dateLoop cat rows hs = hs ++ more.
Proof.
  induction rows as [|row rows IH]; intros hs; simpl.
  - exists []. now rewrite app_nil_r.
  - destruct (eachCell_extends cat row 1 hs) as [m1 ->].
    destruct (10 <=? _); [now exists m1|].
    destruct (IH (hs ++ m1)) as [m2 ->].
    rewrite <- app_assoc. eexists. reflexivity.
Qed.

(** X17. The date scan only appends: what it has found after some rows is
    kept, in the same order and with the same days, whatever rows follow. *)
Theorem X17_date_scan_appends (cat : Z) (rows later : list Row) (hs : list DateHeader) :
  exists more,
    dateLoop cat (rows ++ later) hs = dateLoop cat rows hs ++ more.
Proof.
  revert hs. induction rows as [|row rows IH]; intros hs.
  - apply dateLoop_extends.
  - simpl. destruct (10 <=? _).
    + exists []. now rewrite app_nil_r.
    + apply IH.
Qed.

(** ** The holiday tables *)

Lemma keyed_get (t : list (Z * list Z)) (m : Z) :
  JS.map_get String.eqb (keyed t) (JS.String_of_int m) = JS.map_get Z.eqb t m.
Proof.
  induction t as [|[k v] t IH]; simpl; [reflexivity|].
  destruct (Z.eqb_spec m k) as [->|N].
  - now rewrite String.eqb_refl.
  - destruct (String.eqb_spec (JS.String_of_int m) (JS.String_of_int k)) as [E|_].
    + apply String_of_int_inj in E. contradiction.
    + exact IH.
Qed.

Lemma getKoreanHolidays_by_month (year month : Z) :
  getKoreanHolidays year month
  = (match JS.map_get Z.eqb
             [ (1, [1]); (3, [1]); (5, [5]); (6, [6]); (8, [15]);
               (10, [3; 9]); (12, [25]) ] month with
     | Some l => l | None => [] end)
    ++ (if year =? 2024 then
          match JS.map_get Z.eqb
                  [ (2, [9; 10; 11; 12]); (4, [10]); (5, [15]); (9, [16; 17; 18]) ]
                  month with
          | Some l => l | None => [] end
        else [])
    ++ (if year =? 2025 then
          match JS.map_get Z.eqb
                  [ (1, [28; 29; 30]); (5, [5; 6]); (10, [5; 6; 7; 8]) ] month with
          | Some l => l | None => [] end
        else []).
Proof.
  unfold getKoreanHolidays, pushAll.
  change holidays with (keyed [ (1, [1]); (3, [1]); (5, [5]); (6, [6]); (8, [15]);
                                 (10, [3; 9]); (12, [25]) ]).
  change lunarHolidays2024
    with (keyed [ (2, [9; 10; 11; 12]); (4, [10]); (5, [15]); (9, [16; 17; 18]) ]).
  change lunarHolidays2025
    with (keyed [ (1, [28; 29; 30]); (5, [5; 6]); (10, [5; 6; 7; 8]) ]).
  rewrite !keyed_get.
  destruct (year =? 2024), (year =? 2025);
    repeat match goal with
           | |- context [JS.map_get Z.eqb ?t month] =>
               destruct (JS.map_get Z.eqb t month)
           end;
    simpl; rewrite <- ?app_assoc, ?app_nil_r; reflexivity.
Qed.

(** X18. Every holiday returned is a day from 1 to 31; a month outside 1 to
    12 has none; and for a year other than 2024 and 2025 only the fixed
    holidays of the month are returned, the same for every such year. *)
Theorem X18_holidays_of_month (year month : Z) :
  Forall (fun d => 1 <= d <= 31) (getKoreanHolidays year month) /\
  (month < 1 \/ 12 < month -> getKoreanHolidays year month = []) /\
  (year <> 2024 -> year <> 2025 ->
   forall year', year' <> 2024 -> year' <> 2025 ->
     getKoreanHolidays year month = getKoreanHolidays year' month).
Proof.
  rewrite getKoreanHolidays_by_month. simpl.
  split; [|split].
  - destruct (year =? 2024), (year =? 2025);
      repeat match goal with
             | |- context [month =? ?k] => destruct (Z.eqb_spec month k)
             end;
      simpl; repeat constructor; lia.
  - intros H.
    repeat match goal with
           | |- context [month =? ?k] => destruct (Z.eqb_spec month k); [lia|]
           end.
    now destruct (year =? 2024), (year =? 2025).
  - intros N4 N5 year' N4' N5'. rewrite getKoreanHolidays_by_month.
    apply Z.eqb_neq in N4, N5, N4', N5'. now rewrite N4, N5, N4', N5'.
Qed.

Lemma X18_holidays_of_month_witness :
  getKoreanHolidays 2024 13 = [] /\
  getKoreanHolidays 2026 5 = getKoreanHolidays 1999 5.
Proof.
  split.
  - apply (proj1 (proj2 (X18_holidays_of_month 2024 13))). right. lia.
  - apply (proj2 (proj2 (X18_holidays_of_month 2026 5))); lia.
Defined.

(** ** The period of a sheet name *)

Lemma padStart2_short (g : list ascii) : shortDigits g -> twoDigits (padStart2 g).
Proof.
  intros [(a & -> & Ha)|(a & b & -> & Ha & Hb)].
  - exists "0"%char, a. now repeat split.
  - exists a, b. now repeat split.
Qed.

Lemma monthGroup_short (s g : list ascii) : monthGroup s = Some g -> shortDigits g.
Proof.
  unfold monthGroup. destruct s as [|a [|b r]]; try discriminate.
  destruct (JS.isDigit a) eqn:Ea; [|discriminate].
  destruct (JS.isDigit b && startsWith wol r)%bool eqn:E.
  - apply andb_true_iff in E. destruct E as [Eb _].
    intros [= <-]. right. now exists a, b.
  - destruct (startsWith wol (b :: r)); [|discriminate].
    intros [= <-]. left. now exists a.
Qed.

Lemma matchPeriodHere_shape (s : list ascii) (r : MonthMatch) :
  matchPeriodHere s = Some r -> matchShape r.
Proof.
  unfold matchPeriodHere.
  destruct (matchYYMM s) as [r1|] eqn:M1.
  { intros [= <-]. unfold matchYYMM in M1.
    destruct s as [|a [|b [|c [|d r0]]]]; try discriminate.
    destruct (_ && _)%bool eqn:E; [|discriminate].
    injection M1 as <-. rewrite !andb_true_iff in E.
    destruct E as [[[[Ea Eb] Ec] Ed] _]. split.
    - now exists a, b.
    - now exists c, d. }
  destruct (matchYYNyeonM s) as [r2|] eqn:M2.
  { intros [= <-]. unfold matchYYNyeonM in M2.
    destruct s as [|a [|b r0]]; try discriminate.
    destruct (_ && _)%bool eqn:E; [|discriminate].
    destruct (JS.stripPrefix nyeon r0) as [r'|]; [|discriminate].
    destruct (monthGroup _) as [m|] eqn:G; [|discriminate].
    injection M2 as <-. apply andb_true_iff in E. destruct E as [Ea Eb]. split.
    - now exists a, b.
    - now apply monthGroup_short in G. }
  intros M3. unfold matchYYYYNyeonM in M3.
  destruct s as [|a [|b [|c [|d r0]]]]; try discriminate.
  destruct (_ && _)%bool eqn:E; [|discriminate].
  destruct (monthGroup _) as [m|] eqn:G; [|discriminate].
  injection M3 as <-. rewrite !andb_true_iff in E.
  destruct E as [[[Ea Eb] Ec] Ed]. split.
  - now exists a, b, c, d.
  - now apply monthGroup_short in G.
Qed.

Lemma matchPeriod_shape (s : list ascii) (r : MonthMatch) :
  matchPeriod s = Some r -> matchShape r.
Proof.
  induction s as [|a s IH].
  - simpl. discriminate.
  - change (matchPeriod (a :: s))
      with (match matchPeriodHere (a :: s) with
            | Some r0 => Some r0
            | None => matchPeriod s
            end).
    destruct (matchPeriodHere (a :: s)) eqn:M; [|exact IH].
    intros [= <-]. now apply matchPeriodHere_shape in M.
Qed.

Lemma matchSimple_short (s g : list ascii) : matchSimple s = Some g -> shortDigits g.
Proof.
  induction s as [|a s IH].
  - simpl. discriminate.
  - change (matchSimple (a :: s))
      with (match monthGroup (a :: s) with
            | Some m => Some m
            | None => matchSimple s
            end).
    destruct (monthGroup (a :: s)) eqn:M; [|exact IH].
    intros [= <-]. now apply monthGroup_short in M.
Qed.

Lemma uint_digits (d : Decimal.uint) :
  Forall (fun c => JS.isDigit c = true) (JS.chars (NilEmpty.string_of_uint d)).
Proof.
  induction d; simpl; constructor; trivial.
Qed.

Lemma String_of_int_digits (n : Z) :
  0 <= n ->
  JS.chars (JS.String_of_int n) <> [] /\
  Forall (fun c => JS.isDigit c = true) (JS.chars (JS.String_of_int n)).
Proof.
  intros H. unfold JS.String_of_int. destruct n as [|p|p]; [| |lia].
  - split; [discriminate|]. repeat constructor.
  - simpl. pose proof (DecimalPos.Unsigned.to_uint_nonnil p) as N.
    replace (NilZero.string_of_uint (Pos.to_uint p))
      with (NilEmpty.string_of_uint (Pos.to_uint p))
      by (now destruct (Pos.to_uint p)).
    split; [|apply uint_digits].
    destruct (Pos.to_uint p); [contradiction|..]; discriminate.
Qed.

Lemma str_chars (s : string) : JS.str (JS.chars s) = s.
Proof. apply string_of_list_ascii_of_string. Qed.

Lemma chars_str (l : list ascii) : JS.chars (JS.str l) = l.
Proof. apply list_ascii_of_string_of_list_ascii. Qed.

Lemma sliceLast2_two (l : list ascii) :
  (2 <= List.length l)%nat -> Forall (fun c => JS.isDigit c = true) l ->
  twoDigits (sliceLast2 l).
Proof.
  intros L F. unfold sliceLast2.
  assert (F' : Forall (fun c => JS.isDigit c = true) (skipn (List.length l - 2) l)).
  { apply Forall_forall. intros x Hx. rewrite Forall_forall in F. apply F.
    rewrite <- (firstn_skipn (List.length l - 2) l). apply in_or_app. now right. }
  assert (L' : List.length (skipn (List.length l - 2) l) = 2%nat)
    by (rewrite length_skipn; lia).
  destruct (skipn _ l) as [|a [|b [|c r]]]; try discriminate L'.
  inversion F' as [|? ? Ha F'']; subst. inversion F'' as [|? ? Hb _]; subst.
  now exists a, b.
Qed.

Lemma parseInt_oneDigit (a : ascii) :
  JS.isDigit a = true -> exists n, JS.parseInt (JS.str [a]) = Some n /\ 0 <= n <= 9.
Proof.
  intros Ha. apply digit_cases in Ha. simpl in Ha.
  repeat (destruct Ha as [<-|Ha]; [eexists; split; [vm_compute; reflexivity|lia]|]).
  contradiction.
Qed.

Lemma year_suffix (n : Z) :
  10 <= n -> twoDigits (sliceLast2 (JS.chars (JS.String_of_int n))).
Proof.
  intros H. destruct (String_of_int_digits n) as [N F]; [lia|].
  apply sliceLast2_two; [|exact F].
  destruct (JS.chars (JS.String_of_int n)) as [|a [|b r]] eqn:E;
    [contradiction| |simpl; lia].
  exfalso. inversion F as [|? ? Ha _]; subst.
  destruct (parseInt_oneDigit a Ha) as (k & P & B).
  rewrite <- E, str_chars, parseInt_String_of_int in P.
  injection P as <-. lia.
Qed.

Lemma month_padded (m : Z) :
  1 <= m <= 12 -> twoDigits (padStart2 (JS.chars (JS.String_of_int m))).
Proof.
  intros H.
  assert (C : m = 1 \/ m = 2 \/ m = 3 \/ m = 4 \/ m = 5 \/ m = 6 \/ m = 7 \/
              m = 8 \/ m = 9 \/ m = 10 \/ m = 11 \/ m = 12) by lia.
  repeat (destruct C as [->|C];
          [eexists; eexists; split; [vm_compute; reflexivity|now split]|]).
  subst. eexists; eexists; split; [vm_compute; reflexivity|now split].
Qed.

(** X19. Whatever the sheet name, the period is a pair of two-digit
    numerals, provided the clock gives a year of at least two digits and a
    month from 1 to 12: the month is padded to two digits and a four-digit
    year is cut to its last two. *)
Theorem X19_period_two_digits (sheetName : string) (nowFullYear nowMonth : Z) :
  10 <= nowFullYear -> 1 <= nowMonth <= 12 ->
  let p := extractMonthFromSheetName sheetName nowFullYear nowMonth in
  twoDigits (JS.chars (year p)) /\ twoDigits (JS.chars (month p)).
Proof.
  intros Hy Hm p. unfold p, extractMonthFromSheetName.
  destruct (matchPeriod (JS.chars sheetName)) as [[y m|y m|y m]|] eqn:M.
  - apply matchPeriod_shape in M. destruct M as [Y Mo]. simpl.
    rewrite !chars_str. split; [exact Y|].
    destruct Mo as (a & b & -> & Ha & Hb). now exists a, b.
  - apply matchPeriod_shape in M. destruct M as [Y Mo]. simpl.
    rewrite !chars_str. split; [exact Y|now apply padStart2_short].
  - apply matchPeriod_shape in M. destruct M as [(a & b & c & d & -> & Hc & Hd) Mo].
    simpl. rewrite !chars_str. split; [now exists c, d|now apply padStart2_short].
  - destruct (matchSimple (JS.chars sheetName)) as [m|] eqn:S; simpl;
      rewrite !chars_str; (split; [now apply year_suffix|]).
    + apply padStart2_short. now apply matchSimple_short in S.
    + now apply month_padded.
Qed.

Lemma X19_period_two_digits_witness :
  twoDigits (JS.chars (year (extractMonthFromSheetName "2024년 3월 출근부" 2026 11))) /\
  twoDigits (JS.chars (month (extractMonthFromSheetName "2024년 3월 출근부" 2026 11))).
Proof.
  apply (X19_period_two_digits "2024년 3월 출근부" 2026 11); lia.
Defined.

Lemma stripPrefix_app (p s r : list ascii) : JS.stripPrefix p s = Some r -> s = p ++ r.
Proof.
  revert s. induction p as [|a p IH]; intros s; simpl.
  - now intros [= ->].
  - destruct s as [|b s]; [discriminate|].
    destruct (Ascii.eqb_spec a b) as [->|_]; [|discriminate].
    intros H. now rewrite (IH _ H).
Qed.

Lemma startsWith_hasWol (s : list ascii) : startsWith wol s = true -> hasWol s.
Proof.
  unfold startsWith. destruct (JS.stripPrefix wol s) as [r|] eqn:E; [|discriminate].
  intros _. exists [], r. change (s = wol ++ r). now apply stripPrefix_app.
Qed.

Lemma hasWol_later (pre s : list ascii) : hasWol s -> hasWol (pre ++ s).
Proof.
  intros (p & q & ->). exists (pre ++ p), q. now rewrite app_assoc.
Qed.

Lemma stripAny_suffix (ps : list (list ascii)) (s r : list ascii) :
  JS.stripAny ps s = Some r -> exists pre, s = pre ++ r.
Proof.
  induction ps as [|p ps IH]; simpl; [discriminate|].
  destruct (JS.stripPrefix p s) as [r'|] eqn:E.
  - intros [= <-]. exists p. now apply stripPrefix_app.
  - exact IH.
Qed.

Lemma dropLeading_suffix (ps : list (list ascii)) (fuel : nat) :
  forall s, exists pre, s = pre ++ JS.dropLeading fuel ps s.
Proof.
  induction fuel as [|fuel IH]; intros s; simpl; [now exists []|].
  destruct (JS.stripAny ps s) as [r|] eqn:E; [|now exists []].
  apply stripAny_suffix in E. destruct E as [p1 ->].
  destruct (IH r) as [p2 E2]. exists (p1 ++ p2). rewrite <- app_assoc. f_equal. exact E2.
Qed.

Lemma monthGroup_hasWol (s g : list ascii) : monthGroup s = Some g -> hasWol s.
Proof.
  unfold monthGroup. destruct s as [|a [|b r]]; try discriminate.
  destruct (JS.isDigit a); [|discriminate].
  destruct (JS.isDigit b && startsWith wol r)%bool eqn:E.
  - apply andb_true_iff in E. destruct E as [_ E]. intros _.
    apply (hasWol_later [a; b]). now apply startsWith_hasWol.
  - destruct (startsWith wol (b :: r)) eqn:E'; [|discriminate]. intros _.
    apply (hasWol_later [a]). now apply startsWith_hasWol.
Qed.

Lemma trimmed_hasWol (s g : list ascii) :
  monthGroup (JS.trimStartChars s) = Some g -> hasWol s.
Proof.
  intros H. apply monthGroup_hasWol in H.
  destruct (dropLeading_suffix JS.whiteSpace (List.length s) s) as [pre E].
  rewrite E. now apply hasWol_later.
Qed.

Lemma matchPeriodHere_hasWol (s : list ascii) (r : MonthMatch) :
  matchPeriodHere s = Some r -> hasWol s.
Proof.
  unfold matchPeriodHere.
  destruct (matchYYMM s) as [r1|] eqn:M1.
  { intros _. unfold matchYYMM in M1.
    destruct s as [|a [|b [|c [|d r0]]]]; try discriminate.
    destruct (_ && _)%bool eqn:E; [|discriminate].
    rewrite !andb_true_iff in E. destruct E as [_ E].
    apply (hasWol_later [a; b; c; d]). now apply startsWith_hasWol. }
  destruct (matchYYNyeonM s) as [r2|] eqn:M2.
  { intros _. unfold matchYYNyeonM in M2.
    destruct s as [|a [|b r0]]; try discriminate.
    destruct (_ && _)%bool; [|discriminate].
    destruct (JS.stripPrefix nyeon r0) as [r'|] eqn:N; [|discriminate].
    destruct (monthGroup _) as [m|] eqn:G; [|discriminate].
    apply stripPrefix_app in N. subst r0.
    apply (hasWol_later ([a; b] ++ nyeon)). now apply trimmed_hasWol in G. }
  intros M3. unfold matchYYYYNyeonM in M3.
  destruct s as [|a [|b [|c [|d r0]]]]; try discriminate.
  destruct (_ && _)%bool; [|discriminate].
  destruct (monthGroup _) as [m|] eqn:G; [|discriminate].
  apply trimmed_hasWol in G. apply (hasWol_later [a; b; c; d]).
  destruct (JS.stripPrefix nyeon r0) as [r'|] eqn:N; [|exact G].
  apply stripPrefix_app in N. subst r0. now apply hasWol_later.
Qed.

Lemma matchPeriod_hasWol (s : list ascii) (r : MonthMatch) :
  matchPeriod s = Some r -> hasWol s.
Proof.
  induction s as [|a s IH].
  - simpl. discriminate.
  - change (matchPeriod (a :: s))
      with (match matchPeriodHere (a :: s) with
            | Some r0 => Some r0
            | None => matchPeriod s
            end).
    destruct (matchPeriodHere (a :: s)) eqn:M.
    + intros _. now apply matchPeriodHere_hasWol in M.
    + intros H. apply (hasWol_later [a]). now apply IH.
Qed.

Lemma matchSimple_hasWol (s g : list ascii) : matchSimple s = Some g -> hasWol s.
Proof.
  induction s as [|a s IH].
  - simpl. discriminate.
  - change (matchSimple (a :: s))
      with (match monthGroup (a :: s) with
            | Some m => Some m
            | None => matchSimple s
            end).
    destruct (monthGroup (a :: s)) eqn:M.
    + intros _. now apply monthGroup_hasWol in M.
    + intros H. apply (hasWol_later [a]). now apply IH.
Qed.

(** X20. A sheet name without the syllable 월 gives the period of the clock:
    the last two digits of the current year and the current month padded
    to two digits, whatever digits the name holds. *)
Theorem X20_period_from_clock (sheetName : string) (nowFullYear nowMonth : Z) :
  ~ hasWol (JS.chars sheetName) ->
  extractMonthFromSheetName sheetName nowFullYear nowMonth
  = {| year := JS.str (sliceLast2 (JS.chars (JS.String_of_int nowFullYear)));
       month := JS.str (padStart2 (JS.chars (JS.String_of_int nowMonth))) |}.
Proof.
  intros N. unfold extractMonthFromSheetName.
  destruct (matchPeriod (JS.chars sheetName)) as [r|] eqn:M.
  { exfalso. apply N. now apply matchPeriod_hasWol in M. }
  destruct (matchSimple (JS.chars sheetName)) as [m|] eqn:S; [|reflexivity].
  exfalso. apply N. now apply matchSimple_hasWol in S.
Qed.

Lemma stripPrefix_self (p r : list ascii) : JS.stripPrefix p (p ++ r) = Some r.
Proof.
  induction p as [|a p IH]; simpl; [reflexivity|].
  now rewrite Ascii.eqb_refl.
Qed.

Lemma hasWolb_complete (s : list ascii) : hasWol s -> hasWolb s = true.
Proof.
  assert (U : forall l, hasWolb l = true <->
                         startsWith wol l = true \/
                         match l with [] => False | _ :: l' => hasWolb l' = true end).
  { intros [|c l]; cbn [hasWolb]; rewrite orb_true_iff; intuition discriminate. }
  intros (pre & post & ->). induction pre as [|a pre IH].
  - apply U. left. change ([] ++ wol ++ post) with (wol ++ post).
    unfold startsWith. now rewrite stripPrefix_self.
  - apply U. right. exact IH.
Qed.

Lemma X20_period_from_clock_witness :
  extractMonthFromSheetName "Sheet1 (2)" 2026 3 = {| year := "26"; month := "03" |}.
Proof.
  rewrite (X20_period_from_clock "Sheet1 (2)" 2026 3); [reflexivity|].
  intros H. apply hasWolb_complete in H. discriminate H.
Defined.
